(** * Task Manager: a shallow embedding of [task_manager.py]

    The development follows the program top-down: Python values and
    exceptions, text primitives ([str.strip], [str.split]), the calendar
    parser behind [datetime.strptime], the overdue predicate, the two
    statistics functions, the flat-file record store and report
    generation over an explicit file-system state.

    Conventions.
    - A Python [str] is a [string]; a character is a code point of the
      Latin-1 range (Rocq's 8-bit [ascii]).
    - A Python [int] is a [Z]; a Python [float] is a binary64 value of
      the Standard Library's [spec_float].
    - An exception is a constructor of [exn]; code that can raise lives in
      the [res] monad, code that performs I/O in the [io] monad. *)

From Stdlib Require Import ZArith QArith Qpower Lia Lqa Bool List.
From Stdlib Require Import Ascii String DecimalString.
From Stdlib Require Import Floats.SpecFloat.
Import ListNotations.

Local Open Scope string_scope.
Local Open Scope Z_scope.

(** ** Exceptions and the error monad *)

Inductive exn : Type :=
| ValueError
| ZeroDivisionError
| FileNotFoundError
| OSError.

Inductive res (A : Type) : Type :=
| Ok (a : A)
| Raise (e : exn).

Arguments Ok {A} a.
Arguments Raise {A} e.

Definition res_bind {A B : Type} (c : res A) (k : A -> res B) : res B :=
  match c with
  | Ok a => k a
  | Raise e => Raise e
  end.

Declare Scope res_scope.
Delimit Scope res_scope with res.
Notation "x <- c ;; k" := (res_bind c (fun x => k))
  (at level 61, c at next level, right associativity) : res_scope.

(** ** Text primitives *)

Definition code (c : ascii) : Z := Z.of_nat (nat_of_ascii c).

(** [str.isspace] on the Latin-1 range: U+0009..U+000D, U+001C..U+0020,
    U+0085 and U+00A0. *)
Definition is_space (c : ascii) : bool :=
  let n := code c in
  ((9 <=? n) && (n <=? 13)) || ((28 <=? n) && (n <=? 32))
  || (n =? 133) || (n =? 160).

Definition is_empty (s : string) : bool :=
  match s with
  | EmptyString => true
  | String _ _ => false
  end.

Fixpoint lstrip (s : string) : string :=
  match s with
  | EmptyString => EmptyString
  | String c s' => if is_space c then lstrip s' else s
  end.

Fixpoint rstrip (s : string) : string :=
  match s with
  | EmptyString => EmptyString
  | String c s' =>
      let r := rstrip s' in
      if is_space c && is_empty r then EmptyString else String c r
  end.

(** [s.strip()] *)
Definition strip (s : string) : string := rstrip (lstrip s).

Definition is_comma (c : ascii) : bool := (c =? ",")%char.
Definition is_blank (c : ascii) : bool := (c =? " ")%char.

Definition starts_with (p : ascii -> bool) (s : string) : bool :=
  match s with
  | EmptyString => false
  | String c _ => p c
  end.

(** [s.split(", ")]: the pieces between the leftmost, non-overlapping
    occurrences of the two-character separator; [cur] is the piece being
    read. *)
Fixpoint split_from (cur s : string) : list string :=
  match s with
  | EmptyString => [cur]
  | String c s' =>
      match s' with
      | EmptyString => [cur ++ String c EmptyString]
      | String c2 rest =>
          if is_comma c && is_blank c2 then cur :: split_from EmptyString rest
          else split_from (cur ++ String c EmptyString) s'
      end
  end.

Definition split_comma (s : string) : list string := split_from EmptyString s.

(** Does [s] contain the separator [", "]? *)
Fixpoint has_delim (s : string) : bool :=
  match s with
  | EmptyString => false
  | String c s' => (is_comma c && starts_with is_blank s') || has_delim s'
  end.

Fixpoint has_char (p : ascii -> bool) (s : string) : bool :=
  match s with
  | EmptyString => false
  | String c s' => p c || has_char p s'
  end.

Definition is_lf (c : ascii) : bool := code c =? 10.
Definition is_cr (c : ascii) : bool := code c =? 13.
Definition is_newline (c : ascii) : bool := is_lf c || is_cr c.

Definition LF : string := String (ascii_of_nat 10) EmptyString.

(** ** Calendar dates and [datetime.strptime(_, "%Y-%m-%d")] *)

Record datetime : Type := mk_datetime {
  dt_year : Z; dt_month : Z; dt_day : Z;
  dt_hour : Z; dt_minute : Z; dt_second : Z; dt_microsecond : Z
}.

Definition midnight (y m d : Z) : datetime := mk_datetime y m d 0 0 0 0.

(** Naive datetimes compare field by field, most significant first. *)
Fixpoint lex_ltb (a b : list Z) : bool :=
  match a, b with
  | x :: a', y :: b' => (x <? y) || ((x =? y) && lex_ltb a' b')
  | _, _ => false
  end.

Definition dt_fields (t : datetime) : list Z :=
  [dt_year t; dt_month t; dt_day t;
   dt_hour t; dt_minute t; dt_second t; dt_microsecond t].

Definition datetime_ltb (a b : datetime) : bool :=
  lex_ltb (dt_fields a) (dt_fields b).

Definition is_leap (y : Z) : bool :=
  (y mod 4 =? 0) && (negb (y mod 100 =? 0) || (y mod 400 =? 0)).

Definition days_in_month (y m : Z) : Z :=
  if m =? 2 then (if is_leap y then 29 else 28)
  else if (m =? 4) || (m =? 6) || (m =? 9) || (m =? 11) then 30
  else 31.

(** [datetime.date(y, m, d)] accepts years 1..9999 and real days only. *)
Definition valid_date (y m d : Z) : bool :=
  (1 <=? y) && (y <=? 9999) && (1 <=? m) && (m <=? 12)
  && (1 <=? d) && (d <=? days_in_month y m).

(** A backtracking matcher in the style of [re]: every way of matching a
    prefix, most preferred first, with the value read and the rest. *)
Definition re (A : Type) : Type := string -> list (A * string).

Definition re_chr (p : ascii -> bool) : re Z :=
  fun s =>
    match s with
    | String c r => if p c then [(code c - 48, r)] else []
    | EmptyString => []
    end.

Definition re_alt {A : Type} (a b : re A) : re A := fun s => (a s ++ b s)%list.

Definition re_seq {A B C : Type} (f : A -> B -> C) (a : re A) (b : re B)
  : re C :=
  fun s =>
    flat_map (fun xr => map (fun yr => (f (fst xr) (fst yr), snd yr))
                            (b (snd xr)))
             (a s).

Definition between (lo hi : Z) (c : ascii) : bool :=
  (lo <=? code c) && (code c <=? hi).

Definition digit : re Z := re_chr (between 48 57).
Definition lit (k : Z) : re Z := re_chr (between k k).
Definition rng (a b : Z) : re Z := re_chr (between (48 + a) (48 + b)).

Definition two (a b : re Z) : re Z := re_seq (fun x y => 10 * x + y) a b.

(** [%Y]: [\d\d\d\d] *)
Definition re_Y : re Z := two (two (two digit digit) digit) digit.

(** [%m]: [1[0-2]|0[1-9]|[1-9]] *)
Definition re_m : re Z :=
  re_alt (two (rng 1 1) (rng 0 2)) (re_alt (two (rng 0 0) (rng 1 9)) (rng 1 9)).

(** [%d]: [3[0-1]|[1-2]\d|0[1-9]|[1-9]| [1-9]] *)
Definition re_d : re Z :=
  re_alt (two (rng 3 3) (rng 0 1))
    (re_alt (two (rng 1 2) digit)
       (re_alt (two (rng 0 0) (rng 1 9))
          (re_alt (rng 1 9) (re_seq (fun _ y => y) (lit 32) (rng 1 9))))).

Definition format_regex : re (Z * Z * Z) :=
  re_seq (fun y md => (y, fst md, snd md)) re_Y
    (re_seq (fun _ md => md) (lit 45)
       (re_seq (fun m d => (m, d)) re_m
          (re_seq (fun _ d => d) (lit 45) re_d))).

(** [datetime.strptime(s, "%Y-%m-%d")]: the first match of the format's
    regular expression must consume the whole string, and the three numbers
    must form a date; every failure is a [ValueError]. *)
Definition strptime (s : string) : res datetime :=
  match format_regex s with
  | [] => Raise ValueError
  | (y, m, d, rest) :: _ =>
      if is_empty rest then
        if valid_date y m d then Ok (midnight y m d) else Raise ValueError
      else Raise ValueError
  end.

(** ** The overdue predicate *)

Section Clock.

(** [datetime.now()] *)
Variable now : datetime.

Definition is_overdue (due_date : string) : res bool :=
  match strptime due_date with
  | Ok due => Ok (datetime_ltb due now)
  | Raise ValueError => Ok false
  | Raise e => Raise e
  end.

End Clock.

(** ** Python numbers *)

Definition prec : Z := 53.
Definition emax : Z := 1024.

Definition fdiv : spec_float -> spec_float -> spec_float := SFdiv prec emax.
Definition fmul : spec_float -> spec_float -> spec_float := SFmul prec emax.
Definition fadd : spec_float -> spec_float -> spec_float := SFadd prec emax.

(** [float(z)] *)
Definition float_of_int (z : Z) : spec_float :=
  binary_normalize prec emax z 0 false.

(** An integer as an exact, not yet rounded, binary number. *)
Definition int_sf (z : Z) : spec_float :=
  match z with
  | Z0 => S754_zero false
  | Zpos p => S754_finite false p 0
  | Zneg p => S754_finite true p 0
  end.

(** [a / b] on integers: the exact quotient rounded once, to nearest even
    ([fdiv_value] below).  Where the quotient is beyond the float range
    Python raises [OverflowError]; here the result is then the infinity of
    [spec_float], which the quotients of this program, all at most 1,
    never reach. *)
Definition truediv (a b : Z) : res spec_float :=
  if b =? 0 then Raise ZeroDivisionError
  else Ok (fdiv (int_sf a) (int_sf b)).

(** The integer nearest to [num / den], ties to even ([0 < den]). *)
Definition rhe_div (num den : Z) : Z :=
  let q := num / den in
  match 2 * (num mod den) ?= den with
  | Lt => q
  | Gt => q + 1
  | Eq => if Z.even q then q else q + 1
  end.

(** The number of hundredths nearest to the exact value of [m * 2^e]. *)
Definition hundredths (m : positive) (e : Z) : Z :=
  if 0 <=? e then 100 * Zpos m * 2 ^ e
  else rhe_div (100 * Zpos m) (2 ^ (- e)).

(** The float nearest to [h / 100], signed by [s]. *)
Definition cents_float (s : bool) (h : Z) : spec_float :=
  match h with
  | Zpos n => fdiv (S754_finite s n 0) (int_sf 100)
  | _ => S754_zero s
  end.

(** [round(f, 2)] on a float: the exact value is rounded to two decimals,
    ties to even, and the decimal result is rounded to the nearest float. *)
Definition float_round2 (f : spec_float) : spec_float :=
  match f with
  | S754_finite s m e => cents_float s (hundredths m e)
  | _ => f
  end.

Inductive pynum : Type :=
| PInt (z : Z)
| PFloat (f : spec_float).

(** [round(x, 2)]: an [int] is returned as it is. *)
Definition round2 (x : pynum) : pynum :=
  match x with
  | PInt z => PInt z
  | PFloat f => PFloat (float_round2 f)
  end.

Local Open Scope res_scope.

(** [(num / den * 100) if den else 0] *)
Definition percent (num den : Z) : res pynum :=
  if den =? 0 then Ok (PInt 0)
  else q <- truediv num den ;; Ok (PFloat (fmul q (float_of_int 100))).

(** ** Tasks and dictionaries *)

Record task : Type := mk_task {
  username : string;
  title : string;
  description : string;
  assigned_date : string;
  due_date : string;
  completed : string
}.

Definition len {A : Type} (l : list A) : Z := Z.of_nat (List.length l).

(** A [dict] with string keys, in insertion order. *)
Definition dict (V : Type) : Type := list (string * V).

Fixpoint dict_get {V : Type} (k : string) (d : dict V) : option V :=
  match d with
  | [] => None
  | (k', v) :: d' => if (k' =? k)%string then Some v else dict_get k d'
  end.

(** [d[k] = v]: a present key keeps its place, a new key goes last. *)
Fixpoint dict_set {V : Type} (k : string) (v : V) (d : dict V) : dict V :=
  match d with
  | [] => [(k, v)]
  | (k', v') :: d' =>
      if (k' =? k)%string then (k', v) :: d' else (k', v') :: dict_set k v d'
  end.

Definition dict_keys {V : Type} (d : dict V) : list string := map fst d.

(** ** Statistics *)

Record task_stats : Type := mk_task_stats {
  total : Z;
  completed_count : Z;
  uncompleted : Z;
  overdue_uncompleted : Z;
  incomplete_percent : pynum;
  overdue_percent : pynum
}.

Record counts : Type := mk_counts {
  c_tasks : Z;
  c_completed : Z;
  c_overdue : Z
}.

Record user_stat : Type := mk_user_stat {
  us_tasks : Z;
  us_completed : Z;
  us_overdue : Z;
  percent_total : pynum;
  percent_completed : pynum;
  percent_incomplete : pynum;
  percent_overdue : pynum
}.

Record user_report : Type := mk_user_report {
  total_users : Z;
  total_tasks : Z;
  user_stats : dict user_stat
}.

(** [sum(1 for x in xs if cond(x))], started from [acc]. *)
Fixpoint sum_ones {A : Type} (cond : A -> res bool) (xs : list A) (acc : Z)
  : res Z :=
  match xs with
  | [] => Ok acc
  | x :: xs' => b <- cond x ;; sum_ones cond xs' (if b then acc + 1 else acc)
  end.

(** A loop whose body can raise. *)
Fixpoint for_each {A S : Type} (body : S -> A -> res S) (xs : list A) (st : S)
  : res S :=
  match xs with
  | [] => Ok st
  | x :: xs' => st' <- body st x ;; for_each body xs' st'
  end.

Fixpoint dict_mapM {V W : Type} (f : V -> res W) (d : dict V) : res (dict W) :=
  match d with
  | [] => Ok []
  | (k, v) :: d' => w <- f v ;; r <- dict_mapM f d' ;; Ok ((k, w) :: r)
  end.

Section Stats.

(** [datetime.now()]: every call of [is_overdue] reads the clock; the
    readings of one pass over the tasks are taken to be one instant. *)
Variable now : datetime.

Definition is_done (t : task) : bool := (completed t =? "Yes")%string.

(** [task["completed"] == "No" and is_overdue(task["due_date"])] *)
Definition open_and_overdue (t : task) : res bool :=
  if (completed t =? "No")%string then is_overdue now (due_date t)
  else Ok false.

Definition calculate_task_stats (tasks : list task) : res task_stats :=
  let total_tasks := len tasks in
  done <- sum_ones (fun t => Ok (is_done t)) tasks 0 ;;
  let undone := total_tasks - done in
  late <- sum_ones open_and_overdue tasks 0 ;;
  ip <- percent undone total_tasks ;;
  op <- percent late total_tasks ;;
  Ok (mk_task_stats total_tasks done undone late (round2 ip) (round2 op)).

Definition zero_counts : counts := mk_counts 0 0 0.

(** [{username: {"tasks": 0, "completed": 0, "overdue": 0}
      for username in users}] *)
Definition init_stats {V : Type} (users : dict V) : dict counts :=
  fold_left (fun d u => dict_set u zero_counts d) (dict_keys users) [].

(** The body of the loop over the tasks. *)
Definition tally (st : dict counts) (t : task) : res (dict counts) :=
  match dict_get (username t) st with
  | None => Ok st
  | Some c =>
      let c1 := mk_counts (c_tasks c + 1) (c_completed c) (c_overdue c) in
      if is_done t then
        Ok (dict_set (username t)
              (mk_counts (c_tasks c1) (c_completed c1 + 1) (c_overdue c1)) st)
      else
        late <- is_overdue now (due_date t) ;;
        if late then
          Ok (dict_set (username t)
                (mk_counts (c_tasks c1) (c_completed c1) (c_overdue c1 + 1))
                st)
        else Ok (dict_set (username t) c1 st)
  end.

(** The body of the loop over the users: four percentages, then rounded. *)
Definition add_percentages (total_tasks : Z) (c : counts) : res user_stat :=
  let tasks_assigned := c_tasks c in
  pt <- percent tasks_assigned total_tasks ;;
  pc <- percent (c_completed c) tasks_assigned ;;
  pi <- percent (tasks_assigned - c_completed c) tasks_assigned ;;
  po <- percent (c_overdue c) tasks_assigned ;;
  Ok (mk_user_stat (c_tasks c) (c_completed c) (c_overdue c)
        (round2 pt) (round2 pc) (round2 pi) (round2 po)).

Definition calculate_user_stats {V : Type} (tasks : list task)
    (users : dict V) : res user_report :=
  let total_tasks := len tasks in
  let total_users := len users in
  st <- for_each tally tasks (init_stats users) ;;
  us <- dict_mapM (add_percentages total_tasks) st ;;
  Ok (mk_user_report total_users total_tasks us).

End Stats.

(** ** The file system and the [io] monad *)

(** The state a run can observe and change: the text files by name, what
    has been printed, and which files have been opened for writing, in
    order. *)
Record world : Type := mk_world {
  files : dict string;
  stdout : list string;
  opened_w : list string
}.

Definition io (A : Type) : Type := world -> res A * world.

Definition ret {A : Type} (a : A) : io A := fun w => (Ok a, w).

Definition io_bind {A B : Type} (c : io A) (k : A -> io B) : io B :=
  fun w =>
    match c w with
    | (Ok a, w') => k a w'
    | (Raise e, w') => (Raise e, w')
    end.

Declare Scope io_scope.
Delimit Scope io_scope with io.
Notation "x <- c ;; k" := (io_bind c (fun x => k))
  (at level 61, c at next level, right associativity) : io_scope.
Notation "c ;; k" := (io_bind c (fun _ => k))
  (at level 61, right associativity) : io_scope.

Definition lift {A : Type} (r : res A) : io A := fun w => (r, w).

(** [isinstance(e, cls)]: [FileNotFoundError] is an [OSError], and
    [IOError] is another name of [OSError]. *)
Definition is_a (e cls : exn) : bool :=
  match cls, e with
  | OSError, (OSError | FileNotFoundError) => true
  | FileNotFoundError, FileNotFoundError => true
  | ValueError, ValueError => true
  | ZeroDivisionError, ZeroDivisionError => true
  | _, _ => false
  end.

(** [try: body / except cls: handler] *)
Definition try_except {A : Type} (body : io A) (cls : exn) (handler : io A)
  : io A :=
  fun w =>
    match body w with
    | (Raise e, w') => if is_a e cls then handler w' else (Raise e, w')
    | ok => ok
    end.

Definition print (line : string) : io unit :=
  fun w =>
    (Ok tt, mk_world (files w) (stdout w ++ [line])%list (opened_w w)).

(** Reading in text mode turns ["\r\n"] and ["\r"] into ["\n"]. *)
Fixpoint universal_newlines (s : string) : string :=
  match s with
  | EmptyString => EmptyString
  | String c s' =>
      if is_cr c then
        String (ascii_of_nat 10)
          match s' with
          | String c2 s'' =>
              if is_lf c2 then universal_newlines s''
              else universal_newlines s'
          | EmptyString => EmptyString
          end
      else String c (universal_newlines s')
  end.

(** [for line in file]: the lines, each with its ["\n"] when it has one. *)
Fixpoint lines_from (cur s : string) : list string :=
  match s with
  | EmptyString => if is_empty cur then [] else [cur]
  | String c s' =>
      if is_lf c then (cur ++ LF) :: lines_from EmptyString s'
      else lines_from (cur ++ String c EmptyString) s'
  end.

Definition file_lines (text : string) : list string :=
  lines_from EmptyString (universal_newlines text).

(** [with open(name, "r") as file], read line by line. *)
Definition read_lines (name : string) : io (list string) :=
  fun w =>
    match dict_get name (files w) with
    | Some text => (Ok (file_lines text), w)
    | None => (Raise FileNotFoundError, w)
    end.

Definition set_file (name text : string) (w : world) : world :=
  mk_world (dict_set name text (files w)) (stdout w) (opened_w w).

(** The [file.write] calls of a [with] block and its closing.  [fault]
    counts down to the call that raises [OSError]; what was written before
    stays in the file. *)
Fixpoint write_chunks (name : string) (fault : option nat)
    (chunks : list string) (done : string) (w : world) : res unit * world :=
  match fault, chunks with
  | Some O, _ => (Raise OSError, set_file name done w)
  | None, [] => (Ok tt, set_file name done w)
  | Some (S _), [] => (Raise OSError, set_file name done w)
  | Some (S k), chunk :: rest =>
      write_chunks name (Some k) rest (done ++ chunk) w
  | None, chunk :: rest => write_chunks name None rest (done ++ chunk) w
  end.

Section Storage.

(** Where writing a file goes wrong: [Some 0] makes [open(name, "w")]
    raise [OSError], [Some k] makes the [k]-th [file.write] raise it, or
    the closing of the file when there are fewer writes. *)
Variable faults : string -> option nat.

(** [with open(name, "w") as file: file.write(chunk) ...].  The text
    written is Latin-1, which [utf-8-sig] always encodes: no
    [UnicodeEncodeError] arises, and a write fails only as [faults]
    says. *)
Definition write_file (name : string) (chunks : list string) : io unit :=
  fun w =>
    let w1 := mk_world (files w) (stdout w) (opened_w w ++ [name])%list in
    match faults name with
    | Some O => (Raise OSError, w1)
    | Some (S k) => write_chunks name (Some k) chunks EmptyString w1
    | None => write_chunks name None chunks EmptyString w1
    end.

End Storage.

Fixpoint io_for_each {A S : Type} (body : S -> A -> io S) (xs : list A)
    (st : S) : io S :=
  match xs with
  | [] => ret st
  | x :: xs' => io_bind (body st x) (fun st' => io_for_each body xs' st')
  end.

(** ** The record store *)

Local Open Scope io_scope.

Definition skip_warning (line : string) : string :=
  "Warning: Skipping invalid line: '" ++ strip line ++ "'".

Section RecordStore.

Variable faults : string -> option nat.

(** The body of the loop over the lines of [user.txt]. *)
Definition read_user_line (users : dict string) (line : string)
  : io (dict string) :=
  match split_comma (strip line) with
  | [name; password] => ret (dict_set name password users)
  | _ => print (skip_warning line) ;; ret users
  end.

Definition load_users : io (dict string) :=
  try_except
    (lines <- read_lines "user.txt" ;; io_for_each read_user_line lines [])
    FileNotFoundError
    (print "Error: user.txt not found. Creating new file with admin." ;;
     write_file faults "user.txt" ["admin, adm1n" ++ LF] ;;
     ret (dict_set "admin" "adm1n" [])).

(** The body of the loop over the lines of [tasks.txt]. *)
Definition read_task_line (tasks : list task) (line : string)
  : io (list task) :=
  match split_comma (strip line) with
  | [f0; f1; f2; f3; f4; f5] => ret (tasks ++ [mk_task f0 f1 f2 f3 f4 f5])%list
  | _ => print (skip_warning line) ;; ret tasks
  end.

Definition load_tasks : io (list task) :=
  try_except
    (lines <- read_lines "tasks.txt" ;; io_for_each read_task_line lines [])
    FileNotFoundError
    (print "Error: tasks.txt not found. Creating empty file." ;;
     write_file faults "tasks.txt" [] ;;
     ret []).

Definition task_line (t : task) : string :=
  username t ++ ", " ++ title t ++ ", " ++ description t ++ ", "
  ++ assigned_date t ++ ", " ++ due_date t ++ ", " ++ completed t ++ LF.

Definition save_tasks (tasks : list task) : io unit :=
  write_file faults "tasks.txt" (map task_line tasks).

End RecordStore.

(** ** Reports *)

Definition str_int (z : Z) : string := NilZero.string_of_int (Z.to_int z).

(** The text of a two-decimal float as an f-string shows it: the
    hundredths [n] as [n/100] with one or two decimals. *)
Definition str_hundredths (negative : bool) (n : Z) : string :=
  (if negative then "-" else "")
  ++ str_int (n / 100) ++ "." ++ str_int (n mod 100 / 10)
  ++ (if n mod 10 =? 0 then "" else str_int (n mod 10)).

(** [f"{x}"] for a percentage of the reports: an [int], or a float that
    [round(_, 2)] returned and that is below 10^13. *)
Definition str_percent (x : pynum) : string :=
  match x with
  | PInt z => str_int z
  | PFloat (S754_zero s) => str_hundredths s 0
  | PFloat (S754_finite s m e) => str_hundredths s (hundredths m e)
  | PFloat (S754_infinity s) => if s then "-inf" else "inf"
  | PFloat S754_nan => "nan"
  end.

Definition task_overview_lines (st : task_stats) : list string :=
  [ "Task Overview" ++ LF;
    "Total tasks: " ++ str_int (total st) ++ LF;
    "Completed tasks: " ++ str_int (completed_count st) ++ LF;
    "Uncompleted tasks: " ++ str_int (uncompleted st) ++ LF;
    "Overdue uncompleted tasks: " ++ str_int (overdue_uncompleted st) ++ LF;
    "Incomplete percentage: " ++ str_percent (incomplete_percent st)
      ++ "%" ++ LF;
    "Overdue percentage: " ++ str_percent (overdue_percent st) ++ "%" ++ LF ].

Definition user_block (entry : string * user_stat) : list string :=
  let stats := snd entry in
  [ LF ++ "User: " ++ fst entry ++ LF;
    "Tasks assigned: " ++ str_int (us_tasks stats) ++ LF;
    "Percentage of total tasks: " ++ str_percent (percent_total stats)
      ++ "%" ++ LF;
    "Percentage completed: " ++ str_percent (percent_completed stats)
      ++ "%" ++ LF;
    "Percentage incomplete: " ++ str_percent (percent_incomplete stats)
      ++ "%" ++ LF;
    "Percentage overdue: " ++ str_percent (percent_overdue stats)
      ++ "%" ++ LF ].

Definition user_overview_lines (rep : user_report) : list string :=
  [ "User Overview" ++ LF;
    "Total users: " ++ str_int (total_users rep) ++ LF;
    "Total tasks: " ++ str_int (total_tasks rep) ++ LF ]
  ++ flat_map user_block (user_stats rep).

Section Reports.

Variable faults : string -> option nat.

(** The clock: one reading serves a whole run. *)
Variable now : datetime.

(** The two [try] blocks of [generate_reports]. *)
Definition write_reports (task_stats : task_stats) (user_stats : user_report)
  : io unit :=
  written <-
    try_except
      (write_file faults "task_overview.txt"
         (task_overview_lines task_stats) ;;
       ret true)
      OSError
      (print "Error: Could not write to task_overview.txt" ;; ret false) ;;
  if written : bool then
    written' <-
      try_except
        (write_file faults "user_overview.txt"
           (user_overview_lines user_stats) ;;
         ret true)
        OSError
        (print "Error: Could not write to user_overview.txt" ;; ret false) ;;
    if written' : bool then
      print "Reports generated: task_overview.txt, user_overview.txt"
    else ret tt
  else ret tt.

Definition generate_reports : io unit :=
  tasks <- load_tasks faults ;;
  users <- load_users faults ;;
  task_stats <- lift (calculate_task_stats now tasks) ;;
  user_stats <- lift (calculate_user_stats now tasks users) ;;
  write_reports task_stats user_stats.

End Reports.

Local Close Scope io_scope.

(** ** Specification-side counts *)

(** The overdue predicate as a plain boolean. *)
Definition overdue_holds (now : datetime) (due_date : string) : bool :=
  match is_overdue now due_date with
  | Ok b => b
  | Raise _ => false
  end.

Definition is_open (t : task) : bool := (completed t =? "No")%string.

(** A task flagged ["No"] for which the overdue predicate holds. *)
Definition is_late (now : datetime) (t : task) : bool :=
  is_open t && overdue_holds now (due_date t).

Definition count {A : Type} (p : A -> bool) (l : list A) : Z :=
  len (filter p l).

(** [n / d * 100], and 0 when [d] is 0. *)
Definition ratio100 (n d : Z) : pynum :=
  if d =? 0 then PInt 0
  else PFloat (fmul (fdiv (int_sf n) (int_sf d)) (float_of_int 100)).

Definition mine (u : string) (t : task) : bool := (username t =? u)%string.

(** What the tasks of user [u] add to that user's three counters. *)
Definition user_counts (now : datetime) (u : string) (tasks : list task)
  : counts :=
  mk_counts
    (count (mine u) tasks)
    (count (fun t => mine u t && is_done t) tasks)
    (count (fun t => mine u t && negb (is_done t)
                     && overdue_holds now (due_date t)) tasks).

Definition add_counts (a b : counts) : counts :=
  mk_counts (c_tasks a + c_tasks b) (c_completed a + c_completed b)
    (c_overdue a + c_overdue b).

(** A counter record with its four rounded percentages. *)
Definition with_percentages (total_tasks : Z) (c : counts) : user_stat :=
  mk_user_stat (c_tasks c) (c_completed c) (c_overdue c)
    (round2 (ratio100 (c_tasks c) total_tasks))
    (round2 (ratio100 (c_completed c) (c_tasks c)))
    (round2 (ratio100 (c_tasks c - c_completed c) (c_tasks c)))
    (round2 (ratio100 (c_overdue c) (c_tasks c))).

Definition dict_mem {V : Type} (k : string) (d : dict V) : bool :=
  match dict_get k d with
  | Some _ => true
  | None => false
  end.

Definition map_values {V W : Type} (g : V -> W) (d : dict V) : dict W :=
  map (fun kv => (fst kv, g (snd kv))) d.

(** The three counters of a finished record. *)
Definition counters (r : user_stat) : counts :=
  mk_counts (us_tasks r) (us_completed r) (us_overdue r).

(** Is the last character of [s] there and not whitespace? *)
Fixpoint ends_solid (s : string) : bool :=
  match s with
  | EmptyString => false
  | String c EmptyString => negb (is_space c)
  | String _ s' => ends_solid s'
  end.

(** A field the flat file can hold: no separator and no line break. *)
Definition plain (s : string) : bool :=
  negb (has_delim s) && negb (has_char is_newline s).

(** A record that survives the line format: six plain fields, a
    username that does not start with whitespace, and a completion flag
    that is not empty and does not end with whitespace. *)
Definition storable (t : task) : bool :=
  plain (username t) && plain (title t) && plain (description t)
  && plain (assigned_date t) && plain (due_date t) && plain (completed t)
  && negb (starts_with is_space (username t))
  && ends_solid (completed t).

Definition no_delim (t : task) : bool :=
  negb (has_delim (username t)) && negb (has_delim (title t))
  && negb (has_delim (description t)) && negb (has_delim (assigned_date t))
  && negb (has_delim (due_date t)) && negb (has_delim (completed t)).

(** All the chunks of a file, one after the other. *)
Definition join (chunks : list string) : string :=
  fold_right append EmptyString chunks.

(** What one task adds to the counters of user [u]. *)
Definition delta (now : datetime) (u : string) (t : task) : counts :=
  user_counts now u [t].

(** A line without its end. *)
Definition line_body (t : task) : string :=
  username t ++ ", " ++ title t ++ ", " ++ description t ++ ", "
  ++ assigned_date t ++ ", " ++ due_date t ++ ", " ++ completed t.

(** ** Example data *)

(** The scenario of the specification: three users, four tasks, one of an
    unregistered user. *)
Definition scenario_now : datetime := mk_datetime 2025 6 15 10 30 0 0.

Definition scenario_users : dict string :=
  [("alice", "a1"); ("bob", "b2"); ("admin", "adm1n")].

Definition scenario_tasks : list task :=
  [ mk_task "alice" "plan" "d" "2025-01-01" "2025-02-01" "Yes";
    mk_task "alice" "draft" "d" "2025-01-01" "2025-02-01" "No";
    mk_task "bob" "review" "d" "2025-01-01" "2026-02-01" "No";
    mk_task "charlie" "ship" "d" "2025-01-01" "2025-02-01" "Yes" ].

(** ** The claims that fail, as propositions *)

(** C1 as the specification words it: a failing write of
    [task_overview.txt] leaves the write of [user_overview.txt] attempted. *)
Definition claims_writes_independent : Prop :=
  forall (faults : string -> option nat) (now : datetime) (w : world)
         (k : nat),
    faults "task_overview.txt" = Some k ->
    In "user_overview.txt" (opened_w (snd (generate_reports faults now w))).

(** C8 as the specification words it: fields without the separator are
    enough for a collection to come back from the file as it was saved. *)
Definition claims_round_trip : Prop :=
  forall (faults : string -> option nat) (w : world) (tasks : list task),
    faults "tasks.txt" = None ->
    forallb no_delim tasks = true ->
    fst (load_tasks faults (snd (save_tasks faults tasks w))) = Ok tasks.

Definition float_of (x : pynum) : spec_float :=
  match x with
  | PInt z => float_of_int z
  | PFloat f => f
  end.

(** [a + b == 100] on two percentages. *)
Definition sum_is_100 (a b : pynum) : bool :=
  match a, b with
  | PInt x, PInt y => x + y =? 100
  | _, _ => SFeqb (fadd (float_of a) (float_of b)) (float_of_int 100)
  end.

(** C7 as the specification words it: for a user with tasks, the two
    rounded percentages add up to 100. *)
Definition claims_percentages_complementary : Prop :=
  forall (now : datetime) (tasks : list task) (users : dict string)
         (rep : user_report) (u : string) (r : user_stat),
    calculate_user_stats now tasks users = Ok rep ->
    dict_get u (user_stats rep) = Some r ->
    0 < us_tasks r ->
    sum_is_100 (percent_completed r) (percent_incomplete r) = true.

(** One user with 160 tasks, 23 of them completed. *)
Definition tasks_23_of_160 : list task :=
  (repeat (mk_task "u" "t" "d" "" "" "Yes") 23
   ++ repeat (mk_task "u" "t" "d" "" "" "No") 137)%list.

(** ** Rounding, exactly *)

(** Where [rho / D] lies in [0, 1): at 0, below, at or above the middle. *)
Definition loc_of (rho D : Z) : location :=
  if rho =? 0 then loc_Exact else loc_Inexact (2 * rho ?= D).

(** A shift record holds [M / D]: its integer part and where the
    fractional part lies. *)
Definition holds (rec : shr_record) (M D : Z) : Prop :=
  shr_m rec = M / D /\ loc_of_shr_record rec = loc_of (M mod D) D.

Definition pow2 (e : Z) : Q := ((2 # 1) ^ e)%Q.

(** Half an ulp, relative to a number of 53 bits: [2^-53]. *)
Definition u53 : Q := 1 # 9007199254740992.

(** ** Lines, accounts and percentages *)

(** Is the last character of [s] a comma? *)
Fixpoint ends_comma (s : string) : bool :=
  match s with
  | EmptyString => false
  | String c EmptyString => is_comma c
  | String _ s' => ends_comma s'
  end.

(** A line as [for line in file] gives it: a text without line breaks,
    followed by a line feed except perhaps for the last line. *)
Definition line_shape (l : string) : Prop :=
  exists body,
    has_char is_newline body = false /\ (l = body ++ LF \/ l = body).

(** The password that the last well-formed line for [name] gives. *)
Fixpoint last_password (name : string) (lines : list string) : option string :=
  match lines with
  | [] => None
  | l :: rest =>
      match last_password name rest with
      | Some p => Some p
      | None =>
          match split_comma (strip l) with
          | [n; p] => if (n =? name)%string then Some p else None
          | _ => None
          end
      end
  end.

(** A percentage as the statistics return it: the integer 0, or the float
    nearest to a number of hundredths between 0.00 and 100.00. *)
Definition is_percentage (x : pynum) : Prop :=
  x = PInt 0
  \/ exists h, x = PFloat (cents_float false h) /\ 0 <= h <= 10000.

(** The sum of the [tasks] counters of a report. *)
Definition sum_tasks (d : dict user_stat) : Z :=
  fold_right (fun kv acc => us_tasks (snd kv) + acc) 0 d.

(** ** Showing a task *)

(** [c * n] *)
Fixpoint repeat_char (c : ascii) (n : nat) : string :=
  match n with
  | O => EmptyString
  | S n' => String c (repeat_char c n')
  end.

(** [f"{s:<n}"]: [s] padded with blanks on the right up to [n]
    characters. *)
Definition pad_right (s : string) (n : nat) : string :=
  s ++ repeat_char " " (n - String.length s).

Definition task_lines (t : task) : list string :=
  [ pad_right "Task" 18 ++ title t;
    pad_right "Assigned to" 18 ++ username t;
    pad_right "Description" 18 ++ description t;
    pad_right "Assigned on" 18 ++ assigned_date t;
    pad_right "Due by" 18 ++ due_date t;
    pad_right "Completed" 18 ++ completed t ].

(** [max(len(line) for line in lines)] *)
Definition max_len (lines : list string) : nat :=
  fold_right Nat.max O (map String.length lines).

Definition box_border (box_width : nat) : string :=
  "+" ++ repeat_char "-" (box_width - 2) ++ "+".

(** [f"| {line:<{max_length}} |"] *)
Definition box_row (max_length : nat) (line : string) : string :=
  "| " ++ pad_right line max_length ++ " |".

Local Open Scope io_scope.

Definition display_task (t : task) : io Z :=
  let lines := task_lines t in
  let max_length := max_len lines in
  let box_width := (max_length + 4)%nat in
  print (box_border box_width) ;;
  io_for_each (fun _ line => print (box_row max_length line)) lines tt ;;
  print (box_border box_width) ;;
  print "" ;;
  ret (Z.of_nat box_width).

Local Close Scope io_scope.

(** ** Appending to the record store *)

(** [s.endswith("\n")] *)
Fixpoint ends_lf (s : string) : bool :=
  match s with
  | EmptyString => false
  | String c EmptyString => is_lf c
  | String _ s' => ends_lf s'
  end.

Definition log_open (name : string) (w : world) : world :=
  mk_world (files w) (stdout w) (opened_w w ++ [name])%list.

Section Appending.

Variable faults : string -> option nat.

(** The files are written through the codec [utf-8-sig], which puts a byte
    order mark in front of the first text it encodes unless the file is
    opened beyond its start.  Read back in the middle of a file the mark is
    the character U+FEFF, which the Latin-1 strings of this model do not
    have: [bom] stands for it. *)
Variable bom : string.

(** [with open(name, "r+") as file: content = file.read()], then the
    writes [extra content] at the end of the file.  The encoder starts at
    the start of the file, so the first write carries the mark. *)
Definition amend_file (name : string) (extra : string -> list string)
  : io unit :=
  fun w =>
    match dict_get name (files w) with
    | None => (Raise FileNotFoundError, log_open name w)
    | Some raw =>
        let chunks :=
          match extra (universal_newlines raw) with
          | [] => []
          | first :: more => (bom ++ first) :: more
          end in
        match faults name with
        | Some O => (Raise OSError, log_open name w)
        | Some (S k) => write_chunks name (Some k) chunks raw (log_open name w)
        | None => write_chunks name None chunks raw (log_open name w)
        end
    end.

(** [with open(name, "a") as file: file.write(chunk) ...]: a missing file
    is created; the mark goes in front of an empty file only, where the
    decoder drops it. *)
Definition append_file (name : string) (chunks : list string) : io unit :=
  fun w =>
    let raw :=
      match dict_get name (files w) with
      | Some raw => raw
      | None => EmptyString
      end in
    match faults name with
    | Some O => (Raise OSError, log_open name w)
    | Some (S k) => write_chunks name (Some k) chunks raw (log_open name w)
    | None => write_chunks name None chunks raw (log_open name w)
    end.

Local Open Scope io_scope.

(** The first [try] block of [save_user] and of [save_new_task]. *)
Definition end_with_newline (name : string) : io unit :=
  try_except
    (amend_file name
       (fun content =>
          if negb (is_empty content) && negb (ends_lf content) then [LF]
          else []))
    FileNotFoundError
    (ret tt).

Definition save_user (username password : string) : io unit :=
  end_with_newline "user.txt" ;;
  append_file "user.txt" [username ++ ", " ++ password ++ LF].

Definition save_new_task
    (username title description assigned_date due_date completed : string)
  : io unit :=
  end_with_newline "tasks.txt" ;;
  append_file "tasks.txt"
    [username ++ ", " ++ title ++ ", " ++ description ++ ", "
     ++ assigned_date ++ ", " ++ due_date ++ ", " ++ completed ++ LF].

Local Close Scope io_scope.

End Appending.

(** A file that [save_user] and [save_new_task] append to as it is: empty
    or ending with a line break. *)
Definition tidy (raw : string) : bool :=
  is_empty (universal_newlines raw) || ends_lf (universal_newlines raw).

(** A user the line format holds: two plain fields, a name that does not
    start with whitespace and a password that is not empty and does not end
    with whitespace. *)
Definition storable_user (username password : string) : bool :=
  plain username && plain password
  && negb (starts_with is_space username) && ends_solid password.

(** ** The terminal *)

(** *** [int] on a string *)

(** The whitespace [int] skips around a number: that of [str.isspace]
    without U+001C..U+001F. *)
Definition is_int_space (c : ascii) : bool :=
  is_space c && negb ((28 <=? code c) && (code c <=? 31)).

Definition is_decimal (c : ascii) : bool :=
  (48 <=? code c) && (code c <=? 57).

Definition is_underscore (c : ascii) : bool := (c =? "_")%char.

Fixpoint skip_int_space (s : string) : string :=
  match s with
  | EmptyString => EmptyString
  | String c s' => if is_int_space c then skip_int_space s' else s
  end.

(** The digits after the first one, single underscores allowed between
    two digits: the value, the number of digits, and what is left. *)
Fixpoint scan_digits (value : Z) (count : nat) (s : string)
  : Z * nat * string :=
  match s with
  | EmptyString => (value, count, s)
  | String c s' =>
      if is_decimal c then
        scan_digits (10 * value + (code c - 48)) (S count) s'
      else if is_underscore c then
        match s' with
        | String d s'' =>
            if is_decimal d then
              scan_digits (10 * value + (code d - 48)) (S count) s''
            else (value, count, s)
        | EmptyString => (value, count, s)
        end
      else (value, count, s)
  end.

Section IntOfString.

(** [sys.get_int_max_str_digits()]: the most digits [int] converts, or 0
    for no limit. *)
Variable max_str_digits : nat.

(** [int(s)] for a string [s]: blanks, a sign, decimal digits, blanks. *)
Definition py_int (s : string) : res Z :=
  let s1 := skip_int_space s in
  let '(negative, s2) :=
    match s1 with
    | String c s' =>
        if (c =? "-")%char then (true, s')
        else if (c =? "+")%char then (false, s')
        else (false, s1)
    | EmptyString => (false, s1)
    end in
  match s2 with
  | String c s3 =>
      if is_decimal c then
        let '(value, count, rest) := scan_digits (code c - 48) 1 s3 in
        if is_empty (skip_int_space rest)
           && ((max_str_digits =? 0)%nat || (count <=? max_str_digits)%nat)
        then Ok (if negative then - value else value)
        else Raise ValueError
      else Raise ValueError
  | EmptyString => Raise ValueError
  end.

End IntOfString.

(** *** Commands that read the standard input *)

(** How a run ends that does not return: with an exception of the store or
    of a parser, with the [EOFError] of [input] at the end of the standard
    input, with the [IndexError] of a list, or with the [RecursionError] of
    calls nested too deep. *)
Inductive halt : Type :=
| Exn (e : exn)
| EOFError
| IndexError
| RecursionError.

(** [Unfinished]: the rounds granted to a [while True] loop are used up
    and the loop would go on. *)
Inductive outcome (A : Type) : Type :=
| Done (a : A)
| Halt (h : halt)
| Unfinished.

Arguments Done {A} a.
Arguments Halt {A} h.
Arguments Unfinished {A}.

(** A command at the terminal: it takes lines from the standard input and
    leaves the rest.  The lines typed are Latin-1 text, like all text
    here. *)
Definition tty (A : Type) : Type :=
  list string -> world -> outcome A * list string * world.

Definition tty_ret {A : Type} (a : A) : tty A :=
  fun ins w => (Done a, ins, w).

Definition tty_bind {A B : Type} (c : tty A) (k : A -> tty B) : tty B :=
  fun ins w =>
    match c ins w with
    | (Done a, ins', w') => k a ins' w'
    | (Halt h, ins', w') => (Halt h, ins', w')
    | (Unfinished, ins', w') => (Unfinished, ins', w')
    end.

Declare Scope tty_scope.
Delimit Scope tty_scope with tty.
Notation "x <- c ;; k" := (tty_bind c (fun x => k))
  (at level 61, c at next level, right associativity) : tty_scope.
Notation "c ;; k" := (tty_bind c (fun _ => k))
  (at level 61, right associativity) : tty_scope.

(** A command of the store, run at the terminal. *)
Definition run {A : Type} (c : io A) : tty A :=
  fun ins w =>
    match c w with
    | (Ok a, w') => (Done a, ins, w')
    | (Raise e, w') => (Halt (Exn e), ins, w')
    end.

Definition say (line : string) : tty unit := run (print line).

(** [input(prompt)]: the prompt goes to the standard output, where it is
    logged like a printed line; the next line of the input is returned
    without its line break. *)
Definition input (prompt : string) : tty string :=
  fun ins w =>
    let w' := mk_world (files w) (stdout w ++ [prompt])%list (opened_w w) in
    match ins with
    | [] => (Halt EOFError, [], w')
    | line :: rest => (Done line, rest, w')
    end.

(** [try: body / except cls: handler] at the terminal. *)
Definition tty_try {A : Type} (body : tty A) (cls : exn) (handler : tty A)
  : tty A :=
  fun ins w =>
    match body ins w with
    | (Halt (Exn e), ins', w') =>
        if is_a e cls then handler ins' w' else (Halt (Exn e), ins', w')
    | other => other
    end.

(** [while True: body]: a round that gives [None] is followed by the next
    one, a round that gives [Some a] leaves the loop with [a]. *)
Fixpoint while_true {A : Type} (rounds : nat) (body : tty (option A))
  : tty A :=
  match rounds with
  | O => fun ins w => (Unfinished, ins, w)
  | S rounds' =>
      tty_bind body
        (fun r =>
           match r with
           | Some a => tty_ret a
           | None => while_true rounds' body
           end)
  end.

(** [c.lower()] on the Latin-1 range. *)
Definition lower_char (c : ascii) : ascii :=
  let n := code c in
  if ((65 <=? n) && (n <=? 90))
     || ((192 <=? n) && (n <=? 222) && negb (n =? 215))
  then ascii_of_nat (nat_of_ascii c + 32)
  else c.

Fixpoint lower (s : string) : string :=
  match s with
  | EmptyString => EmptyString
  | String c s' => String (lower_char c) (lower s')
  end.

(** [l[i]], with negative indices counted from the end. *)
Definition py_index {A : Type} (l : list A) (i : Z) : option A :=
  let n := len l in
  if (0 <=? i) && (i <? n) then nth_error l (Z.to_nat i)
  else if (- n <=? i) && (i <? 0) then nth_error l (Z.to_nat (i + n))
  else None.

(** [a == b] on two task dictionaries. *)
Definition task_eqb (a b : task) : bool :=
  (username a =? username b)%string && (title a =? title b)%string
  && (description a =? description b)%string
  && (assigned_date a =? assigned_date b)%string
  && (due_date a =? due_date b)%string
  && (completed a =? completed b)%string.

(** [l.index(x)]: the place of the first element equal to [x]. *)
Fixpoint list_index (x : task) (l : list task) : option nat :=
  match l with
  | [] => None
  | y :: l' =>
      if task_eqb y x then Some O
      else match list_index x l' with
           | Some i => Some (S i)
           | None => None
           end
  end.

(** [l[i] = f(l[i])] for a place [i] of the list. *)
Fixpoint update_at {A : Type} (i : nat) (f : A -> A) (l : list A) : list A :=
  match l, i with
  | [], _ => []
  | x :: l', O => f x :: l'
  | x :: l', S i' => x :: update_at i' f l'
  end.

(** [l.pop(i)] for a place [i] of the list: what is left. *)
Fixpoint remove_at {A : Type} (i : nat) (l : list A) : list A :=
  match l, i with
  | [], _ => []
  | _ :: l', O => l'
  | x :: l', S i' => x :: remove_at i' l'
  end.

Definition set_completed (v : string) (t : task) : task :=
  mk_task (username t) (title t) (description t) (assigned_date t)
    (due_date t) v.

Definition set_username (v : string) (t : task) : task :=
  mk_task v (title t) (description t) (assigned_date t) (due_date t)
    (completed t).

Definition set_due_date (v : string) (t : task) : task :=
  mk_task (username t) (title t) (description t) (assigned_date t) v
    (completed t).

Definition is_nil {A : Type} (l : list A) : bool :=
  match l with
  | [] => true
  | _ :: _ => false
  end.

Local Open Scope io_scope.

(** [for idx, task in enumerate(tasks, 1)]: the number of each task, then
    its box. *)
Definition show_numbered (tasks : list task) : io Z :=
  io_for_each
    (fun idx task =>
       print (LF ++ "Task " ++ str_int idx ++ ":") ;;
       display_task task ;;
       ret (idx + 1))
    tasks 1.

Local Close Scope io_scope.

(** *** The interactive functions *)

Section Terminal.

Variable faults : string -> option nat.
Variable bom : string.
Variable max_str_digits : nat.

(** How many calls of [get_valid_task_number] fit on the stack where it is
    called. *)
Variable recursion_limit : nat.

(** The rounds granted to each [while True] loop. *)
Variable rounds : nat.

Local Open Scope tty_scope.

(** [input(prompt).strip()] *)
Definition input_strip (prompt : string) : tty string :=
  line <- input prompt ;;
  tty_ret (strip line).

(** [frames] calls fit on the stack; the call that does not fit raises
    [RecursionError]. *)
Fixpoint get_valid_task_number (frames : nat) (user_tasks : list task)
  : tty Z :=
  match frames with
  | O => fun ins w => (Halt RecursionError, ins, w)
  | S frames' =>
      tty_try
        (choice <- input_strip "Enter task number (-1 to main menu): " ;;
         choice <- run (lift (py_int max_str_digits choice)) ;;
         if choice =? -1 then tty_ret (-1)
         else if (1 <=? choice) && (choice <=? len user_tasks) then
           tty_ret choice
         else
           say "Invalid task number. Try again." ;;
           get_valid_task_number frames' user_tasks)
        ValueError
        (say "Please enter a valid number." ;;
         get_valid_task_number frames' user_tasks)
  end.

(** [if edit_choice in ["1", "3"]: ...] in [manage_my_tasks]: the tasks to
    go on with, or [None] where the function returns. *)
Definition edit_username (tasks : list task) (task_index : nat)
    (edit_choice : string) : tty (option (list task)) :=
  if (edit_choice =? "1")%string || (edit_choice =? "3")%string then
    new_username <- input_strip "Enter new username: " ;;
    users <- run (load_users faults) ;;
    if negb (dict_mem new_username users) then
      say ("User '" ++ new_username ++ "' does not exist.") ;;
      tty_ret None
    else
      tty_ret (Some (update_at task_index (set_username new_username) tasks))
  else tty_ret (Some tasks).

(** [if edit_choice in ["2", "3"]: ...] in [manage_my_tasks]. *)
Definition edit_due_date (tasks : list task) (task_index : nat)
    (edit_choice : string) : tty (option (list task)) :=
  if (edit_choice =? "2")%string || (edit_choice =? "3")%string then
    new_due_date <- input_strip "Enter new due date (YYYY-MM-DD): " ;;
    tty_try
      (run (lift (strptime new_due_date)) ;;
       tty_ret (Some (update_at task_index (set_due_date new_due_date)
                        tasks)))
      ValueError
      (say "Invalid date format. Use YYYY-MM-DD." ;;
       tty_ret None)
  else tty_ret (Some tasks).

(** The part of [manage_my_tasks] after [action == "e"] and the check of
    the completion flag. *)
Definition edit_task (tasks : list task) (task_index : nat)
    (selected_task : task) : tty unit :=
  say (LF ++ "Select edit option:") ;;
  say "1 - edit username" ;;
  say "2 - edit due date" ;;
  say "3 - edit both" ;;
  edit_choice <- input ": " ;;
  renamed <- edit_username tasks task_index edit_choice ;;
  match renamed with
  | None => tty_ret tt
  | Some tasks =>
      dated <- edit_due_date tasks task_index edit_choice ;;
      match dated with
      | None => tty_ret tt
      | Some tasks =>
          if (edit_choice =? "1")%string || (edit_choice =? "2")%string
             || (edit_choice =? "3")%string
          then
            run (save_tasks faults tasks) ;;
            say ("Task '" ++ title selected_task ++ "' updated.")
          else say "Invalid edit option."
      end
  end.

Definition manage_my_tasks (current_user : string) : tty unit :=
  tasks <- run (load_tasks faults) ;;
  let user_tasks :=
    filter (fun task => (username task =? current_user)%string) tasks in
  if is_nil user_tasks then
    say ("No tasks assigned to you, " ++ current_user ++ ".")
  else
    say (LF ++ "My Tasks (" ++ current_user ++ ")") ;;
    run (show_numbered user_tasks) ;;
    choice <- get_valid_task_number recursion_limit user_tasks ;;
    if choice =? -1 then tty_ret tt
    else
      match py_index user_tasks (choice - 1) with
      | None => fun ins w => (Halt IndexError, ins, w)
      | Some selected_task =>
          match list_index selected_task tasks with
          | None => fun ins w => (Halt (Exn ValueError), ins, w)
          | Some task_index =>
              say (LF ++ "Select an action:") ;;
              say "c - mark as complete" ;;
              say "e - edit task" ;;
              action <- input ": " ;;
              let action := lower action in
              if (action =? "c")%string then
                let tasks := update_at task_index (set_completed "Yes") tasks in
                run (save_tasks faults tasks) ;;
                say ("Task '" ++ title selected_task ++ "' marked complete.")
              else if (action =? "e")%string then
                if (completed selected_task =? "Yes")%string then
                  say "Cannot edit completed task."
                else edit_task tasks task_index selected_task
              else say "Invalid action. Choose 'c' or 'e'."
          end
      end.

Definition delete_task : tty unit :=
  tasks <- run (load_tasks faults) ;;
  if is_nil tasks then say "No tasks to delete."
  else
    say (LF ++ "Select a task to delete:") ;;
    run (show_numbered tasks) ;;
    tty_try
      (line <- input "Enter task number to delete (0 to cancel): " ;;
       choice <- run (lift (py_int max_str_digits line)) ;;
       if choice =? 0 then say "Deletion cancelled."
       else if (1 <=? choice) && (choice <=? len tasks) then
         match py_index tasks (choice - 1) with
         | None => fun ins w => (Halt IndexError, ins, w)
         | Some deleted_task =>
             let tasks := remove_at (Z.to_nat (choice - 1)) tasks in
             run (save_tasks faults tasks) ;;
             say ("Task '" ++ title deleted_task ++ "' deleted successfully.")
         end
       else say "Invalid task number. Try again.")
      ValueError
      (say "Please enter a valid number.").

(** One round of the loop of [login]. *)
Definition login_round (users : dict string) : tty (option string) :=
  username <- input_strip "Enter your username: " ;;
  password <- input_strip "Enter your password: " ;;
  match dict_get username users with
  | None =>
      say ("Username '" ++ username ++ "' does not exist. Try again.") ;;
      tty_ret None
  | Some stored =>
      if negb (stored =? password)%string then
        say "Incorrect password. Try again." ;;
        tty_ret None
      else
        say ("Login successful. Welcome, " ++ username ++ ".") ;;
        tty_ret (Some username)
  end.

Definition login : tty string :=
  users <- run (load_users faults) ;;
  say "Welcome to the Task Manager. Please log in." ;;
  while_true rounds (login_round users).

(** One round of the loop of [reg_user]. *)
Definition reg_user_round (users : dict string) : tty (option unit) :=
  new_username <- input_strip "Enter new username (blank to cancel): " ;;
  if is_empty new_username then
    say "Registration cancelled." ;;
    tty_ret (Some tt)
  else if dict_mem new_username users then
    say ("Username '" ++ new_username ++ "' already exists. Try another.") ;;
    tty_ret None
  else
    new_password <- input_strip "Enter new password: " ;;
    confirm_password <- input_strip "Confirm password: " ;;
    if negb (new_password =? confirm_password)%string then
      say "Passwords do not match. Try again." ;;
      tty_ret None
    else
      run (save_user faults bom new_username new_password) ;;
      say ("User '" ++ new_username ++ "' registered successfully.") ;;
      tty_ret (Some tt).

Definition reg_user : tty unit :=
  users <- run (load_users faults) ;;
  while_true rounds (reg_user_round users).

Local Close Scope tty_scope.

End Terminal.

(** The number that [get_valid_task_number] accepts on a line, if any. *)
Definition accepted (max_str_digits : nat) (user_tasks : list task)
    (line : string) : option Z :=
  match py_int max_str_digits (strip line) with
  | Ok n =>
      if (n =? -1) || ((1 <=? n) && (n <=? len user_tasks)) then Some n
      else None
  | Raise _ => None
  end.

(** The lines typed in a number of login attempts. *)
Definition typed (attempts : list (string * string)) : list string :=
  flat_map (fun a => [fst a; snd a]) attempts.

(** Does the pair of lines typed name an account and its password? *)
Definition opens (users : dict string) (attempt : string * string) : bool :=
  match dict_get (strip (fst attempt)) users with
  | Some stored => (stored =? strip (snd attempt))%string
  | None => false
  end.

(** The world with more lines printed. *)
Definition printed (w : world) (out : list string) : world :=
  mk_world (files w) (stdout w ++ out)%list (opened_w w).


(** *** Statistics on the screen and the menu *)

(** [os.path.exists(name)] *)
Definition path_exists (name : string) : io bool :=
  fun w => (Ok (dict_mem name (files w)), w).

(** [with open(name, "r") as file: file.read()] *)
Definition read_text (name : string) : io string :=
  fun w =>
    match dict_get name (files w) with
    | Some text => (Ok (universal_newlines text), w)
    | None => (Raise FileNotFoundError, w)
    end.

(** [try: body / except cls1: handler1 / except cls2: handler2] *)
Definition try_except2 {A : Type} (body : io A) (cls1 : exn) (handler1 : io A)
    (cls2 : exn) (handler2 : io A) : io A :=
  fun w =>
    match body w with
    | (Raise e, w') =>
        if is_a e cls1 then handler1 w'
        else if is_a e cls2 then handler2 w'
        else (Raise e, w')
    | ok => ok
    end.

(** [max(display_task(task) for task in tasks)] *)
Definition show_all (tasks : list task) : io Z :=
  match tasks with
  | [] => lift (Raise ValueError)
  | first :: others =>
      io_bind (display_task first)
        (fun width =>
           io_for_each
             (fun widest task =>
                io_bind (display_task task)
                  (fun width => ret (Z.max widest width)))
             others width)
  end.

Definition pad2 (z : Z) : string :=
  if z <? 10 then "0" ++ str_int z else str_int z.

(** [t.strftime("%Y-%m-%d")], the year as the C library prints it:
    without leading zeros. *)
Definition strftime_date (t : datetime) : string :=
  str_int (dt_year t) ++ "-" ++ pad2 (dt_month t) ++ "-" ++ pad2 (dt_day t).

Section Menu.

Variable faults : string -> option nat.
Variable bom : string.
Variable max_str_digits : nat.
Variable recursion_limit : nat.
Variable rounds : nat.

(** The clock: one reading serves a whole run. *)
Variable now : datetime.

Local Open Scope io_scope.

(** One of the two [try] blocks of [display_statistics]: [false] where
    the function returns. *)
Definition show_report (header name : string) : io bool :=
  try_except2
    (print header ;;
     content <- read_text name ;;
     print content ;;
     ret true)
    FileNotFoundError
    (print ("Error: " ++ name ++ " not found.") ;; ret false)
    OSError
    (print ("Error: Could not read " ++ name) ;; ret false).

Definition display_statistics : io unit :=
  task_report <- path_exists "task_overview.txt" ;;
  user_report <- path_exists "user_overview.txt" ;;
  (if negb (task_report && user_report) then
     print "Reports not found. Generating reports first." ;;
     generate_reports faults now
   else ret tt) ;;
  shown <- show_report (LF ++ "=== Task Overview ===") "task_overview.txt" ;;
  if shown : bool then
    show_report (LF ++ "=== User Overview ===") "user_overview.txt" ;;
    ret tt
  else ret tt.

(** The tasks of a view, or the message that there are none. *)
Definition view_tasks (tasks : list task) (heading nothing : string)
  : io unit :=
  if is_nil tasks then print nothing
  else
    print heading ;;
    max_length <- show_all tasks ;;
    print (repeat_char "-" (Z.to_nat max_length)).

Local Close Scope io_scope.
Local Open Scope tty_scope.

(** The branch [menu == "a"] of [main]. *)
Definition add_task : tty unit :=
  username <- input_strip "Enter username to assign task: " ;;
  users <- run (load_users faults) ;;
  if negb (dict_mem username users) then
    say ("User '" ++ username ++ "' does not exist. Try again.")
  else
    title <- input_strip "Enter task title: " ;;
    description <- input_strip "Enter task description: " ;;
    due_date <- input_strip "Enter due date (YYYY-MM-DD): " ;;
    valid <-
      tty_try
        (run (lift (strptime due_date)) ;; tty_ret true)
        ValueError
        (say "Invalid date format. Use YYYY-MM-DD. Try again." ;;
         tty_ret false) ;;
    if valid : bool then
      let assigned_date := strftime_date now in
      run (save_new_task faults bom username title description assigned_date
             due_date "No") ;;
      say ("Task '" ++ title ++ "' added for " ++ username ++ ".")
    else tty_ret tt.

(** One round of the menu loop: [Some tt] where it leaves the loop. *)
Definition menu_round (current_user : string) (is_admin : bool)
  : tty (option unit) :=
  say (LF ++ "Please select one of the following options:") ;;
  (if is_admin then say "r - register user" else tty_ret tt) ;;
  say "a - add task" ;;
  say "va - view all tasks" ;;
  say "vm - view my tasks" ;;
  (if is_admin then
     say "vc - view completed tasks" ;;
     say "del - delete a task" ;;
     say "ds - display statistics" ;;
     say "gr - generate reports"
   else tty_ret tt) ;;
  say "e - exit" ;;
  menu <- input ": " ;;
  let menu := lower menu in
  if (menu =? "r")%string && is_admin then
    reg_user faults bom rounds ;; tty_ret None
  else if (menu =? "a")%string then
    add_task ;; tty_ret None
  else if (menu =? "va")%string then
    tasks <- run (load_tasks faults) ;;
    run (view_tasks tasks (LF ++ "All Tasks") "No tasks to display.") ;;
    tty_ret None
  else if (menu =? "vm")%string then
    manage_my_tasks faults max_str_digits recursion_limit current_user ;;
    tty_ret None
  else if (menu =? "vc")%string && is_admin then
    tasks <- run (load_tasks faults) ;;
    let completed_tasks :=
      filter (fun task => (completed task =? "Yes")%string) tasks in
    run (view_tasks completed_tasks (LF ++ "Completed Tasks")
           "No completed tasks to display.") ;;
    tty_ret None
  else if (menu =? "del")%string && is_admin then
    delete_task faults max_str_digits ;; tty_ret None
  else if (menu =? "ds")%string && is_admin then
    run (generate_reports faults now) ;;
    run display_statistics ;;
    tty_ret None
  else if (menu =? "gr")%string && is_admin then
    run (generate_reports faults now) ;; tty_ret None
  else if (menu =? "e")%string then
    say (LF ++ "Goodbye, " ++ current_user ++ ". See you next time.") ;;
    tty_ret (Some tt)
  else
    say "Invalid option. Please select a valid option." ;;
    tty_ret None.

Definition main : tty unit :=
  current_user <- login faults rounds ;;
  let is_admin := (current_user =? "admin")%string in
  while_true rounds (menu_round current_user is_admin).

Local Close Scope tty_scope.

End Menu.

(** *** What a session may touch *)

(** [w'] differs from [w] at most in [tasks.txt], and in [user.txt] where
    that file was missing. *)
Definition kept (w w' : world) : Prop :=
  (forall name,
      name <> "tasks.txt" -> name <> "user.txt" ->
      dict_get name (files w') = dict_get name (files w))
  /\ (forall text,
         dict_get "user.txt" (files w) = Some text ->
         dict_get "user.txt" (files w') = Some text).

Definition io_keeps {A : Type} (c : io A) : Prop :=
  forall w r w', c w = (r, w') -> kept w w'.

Definition tty_keeps {A : Type} (c : tty A) : Prop :=
  forall ins w o ins' w', c ins w = (o, ins', w') -> kept w w'.

(** *** Running out of input *)

(** A command that never reads more than there is, and that finishes when
    the rounds outnumber the lines left. *)
Definition tty_ends (rounds : nat) {A : Type} (c : tty A) : Prop :=
  forall ins w o ins' w',
    c ins w = (o, ins', w') ->
    (List.length ins' <= List.length ins)%nat
    /\ ((List.length ins < rounds)%nat -> o <> Unfinished).

(** A command that returns only after reading a line. *)
Definition tty_reads {A : Type} (c : tty A) : Prop :=
  forall ins w a ins' w',
    c ins w = (Done a, ins', w') ->
    (List.length ins' < List.length ins)%nat.

(** * Properties *)

(** ** Worked examples *)

Example strptime_examples :
  strptime "2024-02-29" = Ok (midnight 2024 2 29)
  /\ strptime "2023-02-29" = Raise ValueError
  /\ strptime "2024-1-5" = Ok (midnight 2024 1 5)
  /\ strptime "2024-01- 5" = Ok (midnight 2024 1 5)
  /\ strptime "2024-13-01" = Raise ValueError
  /\ strptime "2024-01-05 " = Raise ValueError
  /\ strptime "0000-01-01" = Raise ValueError
  /\ strptime "" = Raise ValueError.
Proof. repeat split; reflexivity. Qed.

Example is_overdue_at_midnight :
  is_overdue (mk_datetime 2025 6 15 0 0 0 0) "2025-06-15" = Ok false
  /\ is_overdue (mk_datetime 2025 6 15 0 0 0 1) "2025-06-15" = Ok true
  /\ is_overdue (mk_datetime 2025 6 15 0 0 0 1) "15/06/2025" = Ok false.
Proof. repeat split; reflexivity. Qed.

Example text_examples :
  split_comma "a,, b" = ["a,"; "b"]
  /\ split_comma "" = [""]
  /\ split_comma (strip ("  u, t ,  d, " ++ LF)) = ["u"; "t "; " d,"]
  /\ file_lines ("a" ++ String (ascii_of_nat 13) LF ++ "b")
     = ["a" ++ LF; "b"].
Proof. repeat split; reflexivity. Qed.

(** [23 / 160 * 100] is 14.374999999999998 and rounds to 14.37. *)
Example percent_23_of_160 :
  percent 23 160 = Ok (PFloat (S754_finite false 8092405580431359 (-49)))
  /\ str_percent (round2 (ratio100 23 160)) = "14.37"
  /\ str_percent (round2 (ratio100 137 160)) = "85.62"
  /\ str_percent (round2 (ratio100 1 2)) = "50.0"
  /\ str_percent (round2 (ratio100 0 0)) = "0".
Proof. repeat split; reflexivity. Qed.

Example scenario_task_stats :
  exists st,
    calculate_task_stats scenario_now scenario_tasks = Ok st
    /\ (total st, completed_count st, uncompleted st, overdue_uncompleted st)
       = (4, 2, 2, 1)
    /\ str_percent (incomplete_percent st) = "50.0"
    /\ str_percent (overdue_percent st) = "25.0".
Proof. eexists. repeat split; reflexivity. Qed.

Example scenario_user_stats :
  exists rep,
    calculate_user_stats scenario_now scenario_tasks scenario_users = Ok rep
    /\ total_tasks rep = 4
    /\ map (fun kv => (fst kv, counters (snd kv))) (user_stats rep)
       = [("alice", mk_counts 2 1 1); ("bob", mk_counts 1 0 0);
          ("admin", mk_counts 0 0 0)]
    /\ map (fun kv => str_percent (percent_completed (snd kv)))
         (user_stats rep)
       = ["50.0"; "0.0"; "0"].
Proof. eexists. repeat split; reflexivity. Qed.

Example empty_task_overview :
  exists st,
    calculate_task_stats scenario_now [] = Ok st
    /\ join (task_overview_lines st)
       = "Task Overview" ++ LF ++ "Total tasks: 0" ++ LF
         ++ "Completed tasks: 0" ++ LF ++ "Uncompleted tasks: 0" ++ LF
         ++ "Overdue uncompleted tasks: 0" ++ LF
         ++ "Incomplete percentage: 0%" ++ LF
         ++ "Overdue percentage: 0%" ++ LF.
Proof. eexists. split; reflexivity. Qed.

(** ** The overdue predicate *)

Lemma strptime_raises (s : string) (e : exn) :
  strptime s = Raise e -> e = ValueError.
Proof.
  unfold strptime.
  destruct (format_regex s) as [|[[[y m] d] rest] tl]; [congruence|].
  destruct (is_empty rest); [|congruence].
  destruct (valid_date y m d); congruence.
Qed.

Lemma strptime_midnight (s : string) (due : datetime) :
  strptime s = Ok due ->
  exists y m d, due = midnight y m d /\ valid_date y m d = true.
Proof.
  unfold strptime.
  destruct (format_regex s) as [|[[[y m] d] rest] tl]; [discriminate|].
  destruct (is_empty rest); [|discriminate].
  destruct (valid_date y m d) eqn:V; [|discriminate].
  intros [= <-]. now exists y, m, d.
Qed.

Lemma is_overdue_ok (now : datetime) (s : string) :
  is_overdue now s = Ok (overdue_holds now s).
Proof.
  unfold overdue_holds, is_overdue.
  destruct (strptime s) as [due|e] eqn:P; [reflexivity|].
  now rewrite (strptime_raises _ _ P).
Qed.

(** C2. [is_overdue] always returns; it returns true exactly when the
    string parses under ["%Y-%m-%d"] to a calendar date whose midnight is
    strictly before the current timestamp; a string that does not parse
    gives false. *)
Theorem is_overdue_iff_parsed_and_past (now : datetime) (s : string) :
  (exists b, is_overdue now s = Ok b)
  /\ (is_overdue now s = Ok true <->
      exists y m d, strptime s = Ok (midnight y m d)
                    /\ valid_date y m d = true
                    /\ datetime_ltb (midnight y m d) now = true)
  /\ (forall e, strptime s = Raise e -> is_overdue now s = Ok false).
Proof.
  split; [eexists; apply is_overdue_ok|].
  split.
  - unfold is_overdue. split.
    + destruct (strptime s) as [due|e] eqn:P.
      * intros [= L]. destruct (strptime_midnight _ _ P) as (y & m & d & -> & V).
        now exists y, m, d.
      * rewrite (strptime_raises _ _ P). discriminate.
    + intros (y & m & d & -> & _ & L). now rewrite L.
  - intros e P. unfold is_overdue. rewrite P.
    now rewrite (strptime_raises _ _ P).
Qed.

(** ** Counting *)

Lemma len_cons {A : Type} (x : A) (l : list A) : len (x :: l) = len l + 1.
Proof. unfold len. cbn [List.length]. lia. Qed.

Lemma len_nonneg {A : Type} (l : list A) : 0 <= len l.
Proof. unfold len. lia. Qed.

Lemma len_app {A : Type} (l1 l2 : list A) : len (l1 ++ l2) = len l1 + len l2.
Proof. unfold len. rewrite length_app. lia. Qed.

Lemma count_cons {A : Type} (p : A -> bool) (x : A) (l : list A) :
  count p (x :: l) = (if p x then 1 else 0) + count p l.
Proof.
  unfold count. cbn [filter]. destruct (p x); [rewrite len_cons|]; lia.
Qed.

Lemma count_app {A : Type} (p : A -> bool) (l1 l2 : list A) :
  count p (l1 ++ l2) = count p l1 + count p l2.
Proof. unfold count. now rewrite filter_app, len_app. Qed.

Lemma count_bounds {A : Type} (p : A -> bool) (l : list A) :
  0 <= count p l <= len l.
Proof.
  induction l as [|x l IH]; [unfold count, len; cbn; lia|].
  rewrite count_cons, len_cons. destruct (p x); lia.
Qed.

(** Two exclusive conditions that both imply a third. *)
Lemma count_disjoint {A : Type} (p q r : A -> bool) (l : list A) :
  (forall x, p x = true -> q x = false) ->
  (forall x, p x = true -> r x = true) ->
  (forall x, q x = true -> r x = true) ->
  count p l + count q l <= count r l.
Proof.
  intros PQ PR QR. induction l as [|x l IH]; [unfold count, len; cbn; lia|].
  rewrite !count_cons.
  specialize (PQ x). specialize (PR x). specialize (QR x).
  destruct (p x), (q x), (r x); try lia;
    try (specialize (PQ eq_refl)); try (specialize (PR eq_refl));
    try (specialize (QR eq_refl)); discriminate.
Qed.

Lemma sum_ones_count {A : Type} (cond : A -> res bool) (p : A -> bool)
    (xs : list A) (acc : Z) :
  (forall x, cond x = Ok (p x)) ->
  sum_ones cond xs acc = Ok (acc + count p xs).
Proof.
  intros H. revert acc.
  induction xs as [|x xs IH]; intros acc; cbn [sum_ones].
  - unfold count, len. cbn. f_equal. lia.
  - rewrite H. cbn [res_bind]. rewrite IH, count_cons. f_equal.
    destruct (p x); lia.
Qed.

Lemma open_and_overdue_ok (now : datetime) (t : task) :
  open_and_overdue now t = Ok (is_late now t).
Proof.
  unfold open_and_overdue, is_late, is_open.
  destruct (completed t =? "No")%string; [apply is_overdue_ok|reflexivity].
Qed.

Lemma percent_ok (n d : Z) : percent n d = Ok (ratio100 n d).
Proof.
  unfold percent, ratio100, truediv.
  destruct (d =? 0); reflexivity.
Qed.

(** The value [calculate_task_stats] returns, in closed form. *)
Lemma calculate_task_stats_eq (now : datetime) (tasks : list task) :
  calculate_task_stats now tasks =
  Ok (mk_task_stats (len tasks) (count is_done tasks)
        (len tasks - count is_done tasks) (count (is_late now) tasks)
        (round2 (ratio100 (len tasks - count is_done tasks) (len tasks)))
        (round2 (ratio100 (count (is_late now) tasks) (len tasks)))).
Proof.
  unfold calculate_task_stats.
  rewrite (sum_ones_count _ is_done) by reflexivity. cbn [res_bind].
  rewrite (sum_ones_count _ (is_late now)) by apply open_and_overdue_ok.
  cbn [res_bind]. rewrite !percent_ok. reflexivity.
Qed.

(** C3. The four counts of [calculate_task_stats]: all tasks, tasks
    flagged ["Yes"], the difference of the two, and tasks flagged ["No"]
    for which the overdue predicate holds. *)
Theorem calculate_task_stats_counts (now : datetime) (tasks : list task) :
  exists st,
    calculate_task_stats now tasks = Ok st
    /\ total st = len tasks
    /\ completed_count st
       = count (fun t => (completed t =? "Yes")%string) tasks
    /\ uncompleted st = total st - completed_count st
    /\ completed_count st + uncompleted st = total st
    /\ overdue_uncompleted st
       = count (fun t => (completed t =? "No")%string
                         && overdue_holds now (due_date t)) tasks.
Proof.
  eexists. split; [apply calculate_task_stats_eq|]. cbn.
  repeat split; lia.
Qed.

(** C4. [calculate_task_stats] never divides by zero: it returns, its two
    percentages are [uncompleted/total*100] and
    [overdue_uncompleted/total*100] rounded to two decimals, and both are
    the integer 0 when there is no task. *)
Theorem calculate_task_stats_percentages (now : datetime) (tasks : list task) :
  exists st,
    calculate_task_stats now tasks = Ok st
    /\ percent (uncompleted st) (total st)
       = Ok (ratio100 (uncompleted st) (total st))
    /\ percent (overdue_uncompleted st) (total st)
       = Ok (ratio100 (overdue_uncompleted st) (total st))
    /\ incomplete_percent st = round2 (ratio100 (uncompleted st) (total st))
    /\ overdue_percent st
       = round2 (ratio100 (overdue_uncompleted st) (total st))
    /\ (total st = 0 ->
        incomplete_percent st = PInt 0 /\ overdue_percent st = PInt 0).
Proof.
  eexists. split; [apply calculate_task_stats_eq|].
  cbn [total uncompleted overdue_uncompleted incomplete_percent
       overdue_percent].
  split; [apply percent_ok|]. split; [apply percent_ok|].
  split; [reflexivity|]. split; [reflexivity|].
  intros ->. split; reflexivity.
Qed.

(** C10. A task whose flag is neither ["Yes"] nor ["No"] adds one to
    [uncompleted] and nothing to [overdue_uncompleted], whatever its due
    date; and [overdue_uncompleted <= uncompleted] for every collection. *)
Theorem other_flag_is_uncompleted_never_overdue
    (now : datetime) (before after : list task) (t : task)
    (HY : completed t <> "Yes") (HN : completed t <> "No") :
  (exists st st',
      calculate_task_stats now (before ++ t :: after) = Ok st
      /\ calculate_task_stats now (before ++ after) = Ok st'
      /\ uncompleted st = uncompleted st' + 1
      /\ overdue_uncompleted st = overdue_uncompleted st')
  /\ (forall tasks, exists st,
        calculate_task_stats now tasks = Ok st
        /\ overdue_uncompleted st <= uncompleted st).
Proof.
  split.
  - do 2 eexists. split; [apply calculate_task_stats_eq|].
    split; [apply calculate_task_stats_eq|].
    cbn [uncompleted overdue_uncompleted].
    rewrite !count_app, !len_app, !count_cons, len_cons.
    unfold is_done, is_late, is_open.
    apply String.eqb_neq in HY, HN. rewrite HY, HN. cbn [andb]. lia.
  - intros tasks. eexists. split; [apply calculate_task_stats_eq|].
    cbn [uncompleted overdue_uncompleted].
    assert (E : count (fun _ : task => true) tasks = len tasks).
    { unfold count. f_equal. induction tasks as [|x l IH]; cbn; congruence. }
    pose proof (count_disjoint is_done (is_late now) (fun _ => true) tasks)
      as D.
    rewrite E in D. cut (count is_done tasks + count (is_late now) tasks
                         <= len tasks); [lia|].
    apply D; try reflexivity.
    intros x. unfold is_done, is_late, is_open.
    destruct (completed x =? "Yes")%string eqn:Y; [|discriminate].
    apply String.eqb_eq in Y. rewrite Y. reflexivity.
Qed.

Lemma other_flag_is_uncompleted_never_overdue_witness :
  exists st st',
    calculate_task_stats (mk_datetime 2025 6 15 10 30 0 0)
      [mk_task "alice" "t" "d" "2020-01-01" "2020-02-01" "yes"] = Ok st
    /\ calculate_task_stats (mk_datetime 2025 6 15 10 30 0 0) [] = Ok st'
    /\ uncompleted st = uncompleted st' + 1
    /\ overdue_uncompleted st = overdue_uncompleted st'.
Proof.
  apply (other_flag_is_uncompleted_never_overdue
           (mk_datetime 2025 6 15 10 30 0 0) [] []
           (mk_task "alice" "t" "d" "2020-01-01" "2020-02-01" "yes"));
    discriminate.
Defined.

(** ** Dictionaries *)

Lemma dict_get_set_same {V : Type} (k : string) (v : V) (d : dict V) :
  dict_get k (dict_set k v d) = Some v.
Proof.
  induction d as [|[k' v'] d IH]; cbn.
  - now rewrite String.eqb_refl.
  - destruct (k' =? k)%string eqn:E; cbn; rewrite E; auto.
Qed.

Lemma dict_get_set_other {V : Type} (u k : string) (v : V) (d : dict V) :
  u <> k -> dict_get u (dict_set k v d) = dict_get u d.
Proof.
  intros N. induction d as [|[k' v'] d IH]; cbn.
  - apply String.eqb_neq in N. rewrite String.eqb_sym in N.
    now rewrite N.
  - destruct (k' =? k)%string eqn:E; cbn.
    + apply String.eqb_eq in E. subst k'.
      assert (F : (k =? u)%string = false)
        by (apply String.eqb_neq; congruence).
      now rewrite F.
    + destruct (k' =? u)%string; auto.
Qed.

Lemma dict_keys_set_present {V : Type} (k : string) (v c : V) (d : dict V) :
  dict_get k d = Some c -> dict_keys (dict_set k v d) = dict_keys d.
Proof.
  induction d as [|[k' v'] d IH]; cbn; [discriminate|].
  destruct (k' =? k)%string; cbn; [reflexivity|].
  intros H. unfold dict_keys in IH. now rewrite IH.
Qed.

Lemma dict_mem_keys {V : Type} (k : string) (d : dict V) :
  dict_mem k d = true <-> In k (dict_keys d).
Proof.
  unfold dict_mem. induction d as [|[k' v'] d IH]; cbn.
  - split; [discriminate|tauto].
  - destruct (k' =? k)%string eqn:E.
    + apply String.eqb_eq in E. tauto.
    + apply String.eqb_neq in E. rewrite IH. tauto.
Qed.

Lemma dict_get_map_values {V W : Type} (g : V -> W) (k : string) (d : dict V) :
  dict_get k (map_values g d) = option_map g (dict_get k d).
Proof.
  induction d as [|[k' v'] d IH]; cbn; [reflexivity|].
  destruct (k' =? k)%string; auto.
Qed.

Lemma dict_mapM_total {V W : Type} (f : V -> res W) (g : V -> W) (d : dict V) :
  (forall v, f v = Ok (g v)) -> dict_mapM f d = Ok (map_values g d).
Proof.
  intros H. induction d as [|[k v] d IH]; cbn; [reflexivity|].
  now rewrite H, IH.
Qed.

(** ** Per-user accumulation *)

Lemma user_counts_cons (now : datetime) (u : string) (t : task)
    (l : list task) :
  user_counts now u (t :: l)
  = add_counts (delta now u t) (user_counts now u l).
Proof.
  unfold delta, user_counts, add_counts. cbn [c_tasks c_completed c_overdue].
  rewrite !(count_cons _ t l), !(count_cons _ t []).
  unfold count, len. cbn. f_equal; lia.
Qed.

Lemma add_counts_assoc (a b c : counts) :
  add_counts (add_counts a b) c = add_counts a (add_counts b c).
Proof. unfold add_counts. cbn. f_equal; lia. Qed.

Lemma add_counts_zero_r (a : counts) : add_counts a (mk_counts 0 0 0) = a.
Proof. destruct a. unfold add_counts. cbn. f_equal; lia. Qed.

Lemma add_counts_zero_l (a : counts) : add_counts (mk_counts 0 0 0) a = a.
Proof. destruct a. reflexivity. Qed.

Lemma delta_other (now : datetime) (u : string) (t : task) :
  u <> username t -> delta now u t = mk_counts 0 0 0.
Proof.
  intros N. unfold delta, user_counts, mine.
  assert (E : (username t =? u)%string = false)
    by (apply String.eqb_neq; congruence).
  unfold count, len. cbn. now rewrite E.
Qed.

Lemma delta_self (now : datetime) (t : task) :
  delta now (username t) t
  = mk_counts 1 (if is_done t then 1 else 0)
      (if is_done t then 0
       else if overdue_holds now (due_date t) then 1 else 0).
Proof.
  unfold delta, user_counts, mine. rewrite !count_cons.
  rewrite String.eqb_refl. unfold count, len. cbn.
  destruct (is_done t); cbn; [reflexivity|].
  destruct (overdue_holds now (due_date t)); reflexivity.
Qed.

(** One turn of the loop over the tasks, in closed form. *)
Lemma tally_eq (now : datetime) (st : dict counts) (t : task) :
  tally now st t =
  Ok (match dict_get (username t) st with
      | None => st
      | Some c =>
          dict_set (username t) (add_counts c (delta now (username t) t)) st
      end).
Proof.
  unfold tally. destruct (dict_get (username t) st) as [c|]; [|reflexivity].
  rewrite delta_self. unfold add_counts. cbn [c_tasks c_completed c_overdue].
  destruct (is_done t) eqn:D.
  - now rewrite Z.add_0_r.
  - rewrite is_overdue_ok. cbn [res_bind].
    destruct (overdue_holds now (due_date t)); now rewrite ?Z.add_0_r.
Qed.

Lemma for_each_tally (now : datetime) (tasks : list task) :
  forall st, exists st',
    for_each (tally now) tasks st = Ok st'
    /\ dict_keys st' = dict_keys st
    /\ forall u,
        dict_get u st'
        = option_map (fun c => add_counts c (user_counts now u tasks))
            (dict_get u st).
Proof.
  induction tasks as [|t l IH]; intros st.
  - exists st. split; [reflexivity|]. split; [reflexivity|].
    intros u. destruct (dict_get u st) as [c|]; [|reflexivity].
    cbn. f_equal. exact (eq_sym (add_counts_zero_r c)).
  - cbn [for_each]. rewrite tally_eq. cbn [res_bind].
    match goal with |- context [for_each _ l ?s1] =>
      destruct (IH s1) as (st' & R & K & G) end.
    exists st'. split; [exact R|].
    destruct (dict_get (username t) st) as [c|] eqn:E.
    + split; [now rewrite K, (dict_keys_set_present _ _ c)|].
      intros u. rewrite G, user_counts_cons.
      destruct (string_dec u (username t)) as [->|N].
      * rewrite dict_get_set_same, E. cbn. now rewrite add_counts_assoc.
      * rewrite dict_get_set_other by exact N.
        now rewrite (delta_other _ _ _ N), add_counts_zero_l.
    + split; [exact K|].
      intros u. rewrite G, user_counts_cons.
      destruct (string_dec u (username t)) as [->|N].
      * now rewrite E.
      * now rewrite (delta_other _ _ _ N), add_counts_zero_l.
Qed.

Lemma dict_mem_set {V : Type} (u k : string) (v : V) (d : dict V) :
  dict_mem u (dict_set k v d) = (k =? u)%string || dict_mem u d.
Proof.
  unfold dict_mem. destruct (string_dec u k) as [->|N].
  - now rewrite dict_get_set_same, String.eqb_refl.
  - rewrite dict_get_set_other by exact N.
    assert (E : (k =? u)%string = false)
      by (apply String.eqb_neq; congruence).
    now rewrite E.
Qed.

Lemma fold_set_zero_get (ks : list string) :
  forall (d : dict counts) (u : string),
    (forall k c, dict_get k d = Some c -> c = zero_counts) ->
    dict_get u (fold_left (fun d k => dict_set k zero_counts d) ks d)
    = if dict_mem u d || existsb (fun k => (k =? u)%string) ks
      then Some zero_counts else None.
Proof.
  induction ks as [|k ks IH]; intros d u Z0; cbn [fold_left existsb].
  - rewrite orb_false_r. unfold dict_mem.
    destruct (dict_get u d) as [c|] eqn:E; [|reflexivity].
    now rewrite (Z0 _ _ E).
  - rewrite IH.
    + now rewrite dict_mem_set, orb_assoc, (orb_comm (dict_mem u d)).
    + intros k' c. destruct (string_dec k' k) as [->|N].
      * rewrite dict_get_set_same. congruence.
      * rewrite dict_get_set_other by exact N. apply Z0.
Qed.

Lemma existsb_keys {V : Type} (u : string) (d : dict V) :
  existsb (fun k => (k =? u)%string) (dict_keys d) = dict_mem u d.
Proof.
  unfold dict_mem. induction d as [|[k v] d IH]; cbn; [reflexivity|].
  destruct (k =? u)%string; [reflexivity|exact IH].
Qed.

Lemma init_stats_get {V : Type} (users : dict V) (u : string) :
  dict_get u (init_stats users)
  = if dict_mem u users then Some zero_counts else None.
Proof.
  unfold init_stats. rewrite fold_set_zero_get by (cbn; discriminate).
  now rewrite existsb_keys.
Qed.

Lemma add_percentages_ok (total_tasks : Z) (c : counts) :
  add_percentages total_tasks c = Ok (with_percentages total_tasks c).
Proof.
  unfold add_percentages. rewrite !percent_ok. reflexivity.
Qed.

(** The report of [calculate_user_stats], read user by user. *)
Lemma calculate_user_stats_lookup {V : Type} (now : datetime)
    (tasks : list task) (users : dict V) :
  exists rep,
    calculate_user_stats now tasks users = Ok rep
    /\ total_users rep = len users
    /\ total_tasks rep = len tasks
    /\ forall u,
        dict_get u (user_stats rep)
        = if dict_mem u users
          then Some (with_percentages (len tasks) (user_counts now u tasks))
          else None.
Proof.
  unfold calculate_user_stats.
  destruct (for_each_tally now tasks (init_stats users)) as (st & R & _ & G).
  rewrite R. cbn [res_bind].
  rewrite (dict_mapM_total _ (with_percentages (len tasks)))
    by apply add_percentages_ok.
  cbn [res_bind]. eexists. split; [reflexivity|].
  cbn [total_users total_tasks user_stats]. do 2 (split; [reflexivity|]).
  intros u. rewrite dict_get_map_values, G, init_stats_get.
  destruct (dict_mem u users); [|reflexivity].
  cbn. now rewrite add_counts_zero_l.
Qed.

Lemma count_none {A : Type} (p : A -> bool) (l : list A) :
  (forall x, In x l -> p x = false) -> count p l = 0.
Proof.
  intros H. induction l as [|x l IH]; [reflexivity|].
  rewrite count_cons, (H x) by now left.
  rewrite IH; [reflexivity|]. intros y Hy. apply H. now right.
Qed.

Lemma count_le {A : Type} (p q : A -> bool) (l : list A) :
  (forall x, p x = true -> q x = true) -> count p l <= count q l.
Proof.
  intros H. induction l as [|x l IH]; [reflexivity|].
  rewrite !count_cons. specialize (H x).
  destruct (p x), (q x); lia.
Qed.

(** One turn of the loop on a task of a user with a record. *)
Lemma tally_step (now : datetime) (st : dict counts) (t : task)
    (c : counts) (H : dict_get (username t) st = Some c) :
  exists st' c',
    tally now st t = Ok st'
    /\ dict_get (username t) st' = Some c'
    /\ (forall u, u <> username t -> dict_get u st' = dict_get u st)
    /\ c_tasks c' = c_tasks c + 1
    /\ (completed t = "Yes" ->
        c_completed c' = c_completed c + 1 /\ c_overdue c' = c_overdue c)
    /\ (completed t <> "Yes" -> is_overdue now (due_date t) = Ok true ->
        c_completed c' = c_completed c /\ c_overdue c' = c_overdue c + 1)
    /\ (completed t <> "Yes" -> is_overdue now (due_date t) = Ok false ->
        c_completed c' = c_completed c /\ c_overdue c' = c_overdue c)
    /\ (c_completed c' - c_completed c) + (c_overdue c' - c_overdue c) <= 1.
Proof.
  do 2 eexists. split; [rewrite tally_eq, H; reflexivity|].
  split; [apply dict_get_set_same|].
  split; [intros u N; now apply dict_get_set_other|].
  rewrite delta_self. unfold add_counts, is_done.
  cbn [c_tasks c_completed c_overdue].
  split; [reflexivity|].
  split; [intros ->; cbn; lia|].
  split; [|split].
  - intros N O. apply String.eqb_neq in N. rewrite N.
    rewrite is_overdue_ok in O. injection O as ->. lia.
  - intros N O. apply String.eqb_neq in N. rewrite N.
    rewrite is_overdue_ok in O. injection O as ->. lia.
  - destruct (completed t =? "Yes")%string; [lia|].
    destruct (overdue_holds now (due_date t)); lia.
Qed.

(** C9. In every record of [calculate_user_stats],
    [completed + overdue <= tasks], so [overdue] is at most the number of
    the user's tasks that are not completed. *)
Theorem user_counts_bounded {V : Type} (now : datetime) (tasks : list task)
    (users : dict V) :
  exists rep,
    calculate_user_stats now tasks users = Ok rep
    /\ forall u r,
        dict_get u (user_stats rep) = Some r ->
        us_completed r + us_overdue r <= us_tasks r
        /\ us_overdue r <= us_tasks r - us_completed r.
Proof.
  destruct (calculate_user_stats_lookup now tasks users)
    as (rep & R & _ & _ & G).
  exists rep. split; [exact R|]. intros u r L. rewrite G in L.
  destruct (dict_mem u users); [|discriminate]. injection L as <-.
  cbn [with_percentages user_counts us_tasks us_completed us_overdue
       c_tasks c_completed c_overdue].
  cut (count (fun t => mine u t && is_done t) tasks
       + count (fun t => mine u t && negb (is_done t)
                         && overdue_holds now (due_date t)) tasks
       <= count (mine u) tasks); [lia|].
  apply count_disjoint; intros x; destruct (mine u x), (is_done x);
    cbn; congruence.
Qed.

Lemma user_counts_app (now : datetime) (u : string) (l1 l2 : list task) :
  user_counts now u (l1 ++ l2)
  = add_counts (user_counts now u l1) (user_counts now u l2).
Proof.
  unfold user_counts, add_counts. cbn [c_tasks c_completed c_overdue].
  now rewrite !count_app.
Qed.

Lemma ratio100_zero_num (d : Z) :
  0 <= d ->
  round2 (ratio100 0 d) = PInt 0
  \/ round2 (ratio100 0 d) = PFloat (S754_zero false).
Proof.
  intros Hd. unfold ratio100. destruct d as [|p|p]; [now left| |lia].
  right. reflexivity.
Qed.

(** C5. [calculate_user_stats] counts a task of a registered user as
    follows: with the task in the collection rather than out of it, the
    user's returned [tasks] is one more; [completed] is one more when the
    flag is ["Yes"], and then [overdue] is the same, though the task be
    past due; otherwise [overdue] is one more when the task is overdue,
    and neither counter moves when it is not; never both move, and no
    other user's counters change.  The three counters returned are the
    numbers of the user's tasks, of those flagged ["Yes"], and of those
    not flagged ["Yes"] that are overdue. *)
Theorem calculate_user_stats_increments {V : Type} (now : datetime)
    (before : list task) (t : task) (after : list task) (users : dict V)
    (H : In (username t) (dict_keys users)) :
  exists rep rep' r r',
    calculate_user_stats now (before ++ t :: after) users = Ok rep
    /\ calculate_user_stats now (before ++ after) users = Ok rep'
    /\ dict_get (username t) (user_stats rep) = Some r
    /\ dict_get (username t) (user_stats rep') = Some r'
    /\ us_tasks r = us_tasks r' + 1
    /\ (completed t = "Yes" ->
        us_completed r = us_completed r' + 1 /\ us_overdue r = us_overdue r')
    /\ (completed t <> "Yes" -> is_overdue now (due_date t) = Ok true ->
        us_completed r = us_completed r' /\ us_overdue r = us_overdue r' + 1)
    /\ (completed t <> "Yes" -> is_overdue now (due_date t) = Ok false ->
        us_completed r = us_completed r' /\ us_overdue r = us_overdue r')
    /\ (us_completed r - us_completed r') + (us_overdue r - us_overdue r') <= 1
    /\ (forall u, u <> username t ->
        option_map counters (dict_get u (user_stats rep))
        = option_map counters (dict_get u (user_stats rep')))
    /\ us_tasks r = count (mine (username t)) (before ++ t :: after)
    /\ us_completed r
       = count (fun x => mine (username t) x && is_done x)
           (before ++ t :: after)
    /\ us_overdue r
       = count (fun x => mine (username t) x && negb (is_done x)
                         && overdue_holds now (due_date x))
           (before ++ t :: after).
Proof.
  apply dict_mem_keys in H.
  destruct (calculate_user_stats_lookup now (before ++ t :: after) users)
    as (rep & R & _ & _ & G).
  destruct (calculate_user_stats_lookup now (before ++ after) users)
    as (rep' & R' & _ & _ & G').
  exists rep, rep'. do 2 eexists.
  split; [exact R|]. split; [exact R'|].
  split; [rewrite G, H; reflexivity|].
  split; [rewrite G', H; reflexivity|].
  assert (E : forall u,
             user_counts now u (before ++ t :: after)
             = add_counts (user_counts now u (before ++ after))
                 (delta now u t)).
  { intros u. rewrite !user_counts_app, user_counts_cons. unfold add_counts.
    cbn [c_tasks c_completed c_overdue]. f_equal; lia. }
  cbn [with_percentages us_tasks us_completed us_overdue].
  rewrite (E (username t)), delta_self. unfold add_counts, is_done.
  cbn [c_tasks c_completed c_overdue].
  split; [reflexivity|].
  split; [intros ->; cbn; lia|].
  split; [|split; [|split; [|split]]].
  - intros N O. apply String.eqb_neq in N. rewrite N.
    rewrite is_overdue_ok in O. injection O as ->. lia.
  - intros N O. apply String.eqb_neq in N. rewrite N.
    rewrite is_overdue_ok in O. injection O as ->. lia.
  - destruct (completed t =? "Yes")%string; [lia|].
    destruct (overdue_holds now (due_date t)); lia.
  - intros u N. rewrite G, G'.
    destruct (dict_mem u users); [|reflexivity].
    cbn [option_map]. f_equal. unfold counters, with_percentages.
    cbn [us_tasks us_completed us_overdue].
    rewrite (E u), (delta_other _ _ _ N), add_counts_zero_r.
    now destruct (user_counts now u (before ++ after)).
  - unfold user_counts. cbn [c_tasks c_completed c_overdue].
    rewrite !count_app, !count_cons.
    assert (M : mine (username t) t = true) by apply String.eqb_refl.
    rewrite M. unfold is_done. cbn [andb].
    destruct (completed t =? "Yes")%string; cbn [negb andb];
      [repeat split; lia|].
    destruct (overdue_holds now (due_date t)); repeat split; lia.
Qed.

Lemma calculate_user_stats_increments_witness :
  exists rep rep' r r',
    calculate_user_stats scenario_now
      ([mk_task "alice" "plan" "d" "2025-01-01" "2025-02-01" "No"]
       ++ mk_task "alice" "t" "d" "2020-01-01" "2020-02-01" "Yes"
          :: [mk_task "bob" "u" "d" "2020-01-01" "2020-02-01" "No"])
      scenario_users = Ok rep
    /\ calculate_user_stats scenario_now
         ([mk_task "alice" "plan" "d" "2025-01-01" "2025-02-01" "No"]
          ++ [mk_task "bob" "u" "d" "2020-01-01" "2020-02-01" "No"])
         scenario_users = Ok rep'
    /\ dict_get "alice" (user_stats rep) = Some r
    /\ dict_get "alice" (user_stats rep') = Some r'
    /\ us_tasks r = us_tasks r' + 1
    /\ us_completed r = us_completed r' + 1
    /\ us_overdue r = us_overdue r'.
Proof.
  destruct (calculate_user_stats_increments scenario_now
              [mk_task "alice" "plan" "d" "2025-01-01" "2025-02-01" "No"]
              (mk_task "alice" "t" "d" "2020-01-01" "2020-02-01" "Yes")
              [mk_task "bob" "u" "d" "2020-01-01" "2020-02-01" "No"]
              scenario_users (or_introl eq_refl))
    as (rep & rep' & r & r' & R & R' & G & G' & T & Y & _).
  exists rep, rep', r, r'. destruct (Y eq_refl) as [C O].
  repeat split; assumption.
Defined.

(** C6. [calculate_user_stats] returns one record for every registered
    username and for no other; the record of a user without tasks is zeroed;
    a task of an unregistered username changes no record's counters, and
    is still counted in [total_tasks]. *)
Theorem user_stats_cover_registered_users {V : Type} (now : datetime)
    (tasks : list task) (users : dict V) :
  exists rep,
    calculate_user_stats now tasks users = Ok rep
    /\ total_tasks rep = len tasks
    /\ (forall u, In u (dict_keys users) ->
        exists r,
          dict_get u (user_stats rep) = Some r
          /\ us_tasks r = count (mine u) tasks
          /\ ((forall t, In t tasks -> username t <> u) ->
              us_tasks r = 0 /\ us_completed r = 0 /\ us_overdue r = 0
              /\ percent_completed r = PInt 0
              /\ percent_incomplete r = PInt 0
              /\ percent_overdue r = PInt 0
              /\ (percent_total r = PInt 0
                  \/ percent_total r = PFloat (S754_zero false))))
    /\ (forall u, ~ In u (dict_keys users) ->
        dict_get u (user_stats rep) = None)
    /\ (forall (before : list task) (t : task) (after : list task),
        tasks = (before ++ t :: after)%list ->
        ~ In (username t) (dict_keys users) ->
        exists rep',
          calculate_user_stats now (before ++ after) users = Ok rep'
          /\ total_tasks rep = total_tasks rep' + 1
          /\ forall u,
              option_map counters (dict_get u (user_stats rep))
              = option_map counters (dict_get u (user_stats rep'))).
Proof.
  destruct (calculate_user_stats_lookup now tasks users)
    as (rep & R & _ & T & G).
  exists rep. split; [exact R|]. split; [exact T|].
  split; [|split].
  - intros u M. apply dict_mem_keys in M. eexists.
    split; [rewrite G, M; reflexivity|].
    split; [reflexivity|].
    intros NoTask.
    assert (Z0 : user_counts now u tasks = mk_counts 0 0 0).
    { unfold user_counts. rewrite !count_none; [reflexivity| | |];
        intros x Hx; specialize (NoTask x Hx); unfold mine;
        apply String.eqb_neq in NoTask; now rewrite NoTask. }
    rewrite Z0. cbn [with_percentages us_tasks us_completed us_overdue
      percent_completed percent_incomplete percent_overdue percent_total
      c_tasks c_completed c_overdue].
    do 6 (split; [reflexivity|]).
    apply ratio100_zero_num, len_nonneg.
  - intros u N. rewrite G.
    destruct (dict_mem u users) eqn:M; [|reflexivity].
    apply dict_mem_keys in M. contradiction.
  - intros before t after -> N.
    destruct (calculate_user_stats_lookup now (before ++ after) users)
      as (rep' & R' & _ & T' & G').
    exists rep'. split; [exact R'|].
    split; [rewrite T, T', !len_app, len_cons; lia|].
    intros u. rewrite G, G'.
    destruct (dict_mem u users) eqn:M; [|reflexivity].
    cbn [option_map]. f_equal. unfold counters, with_percentages.
    cbn [us_tasks us_completed us_overdue].
    assert (D : u <> username t).
    { intros ->. apply dict_mem_keys in M. contradiction. }
    rewrite !user_counts_app, user_counts_cons, (delta_other _ _ _ D).
    rewrite add_counts_zero_l. now destruct (add_counts _ _).
Qed.

(** ** Writing files *)

Lemma append_assoc (a b c : string) : (a ++ b) ++ c = a ++ (b ++ c).
Proof. induction a as [|x a IH]; cbn; [reflexivity|now rewrite IH]. Qed.

Lemma append_nil_r (a : string) : a ++ "" = a.
Proof. induction a as [|x a IH]; cbn; [reflexivity|now rewrite IH]. Qed.

Lemma write_chunks_clean (name : string) (chunks : list string) :
  forall done w,
    write_chunks name None chunks done w
    = (Ok tt, set_file name (done ++ join chunks) w).
Proof.
  induction chunks as [|c l IH]; intros done w; cbn [write_chunks join fold_right].
  - now rewrite append_nil_r.
  - rewrite IH. now rewrite append_assoc.
Qed.

Lemma write_chunks_faulty (name : string) (chunks : list string) :
  forall k done w, exists text,
    write_chunks name (Some k) chunks done w
    = (Raise OSError, set_file name text w).
Proof.
  induction chunks as [|c l IH]; intros k done w; destruct k as [|k];
    cbn [write_chunks]; eauto.
Qed.

Lemma write_file_ok (faults : string -> option nat) (name : string)
    (chunks : list string) (w : world) :
  faults name = None ->
  write_file faults name chunks w
  = (Ok tt, mk_world (dict_set name (join chunks) (files w)) (stdout w)
              (opened_w w ++ [name])).
Proof.
  intros F. unfold write_file. rewrite F, write_chunks_clean. reflexivity.
Qed.

Lemma write_file_fails (faults : string -> option nat) (name : string)
    (chunks : list string) (w : world) (k : nat) :
  faults name = Some k ->
  exists w',
    write_file faults name chunks w = (Raise OSError, w')
    /\ stdout w' = stdout w
    /\ opened_w w' = (opened_w w ++ [name])%list
    /\ forall other, other <> name ->
         dict_get other (files w') = dict_get other (files w).
Proof.
  intros F. unfold write_file. rewrite F. destruct k as [|k].
  - eexists. split; [reflexivity|]. cbn. auto.
  - match goal with |- context [write_chunks _ _ _ _ ?w1] =>
      destruct (write_chunks_faulty name chunks k EmptyString w1) as [text E]
    end.
    rewrite E. eexists. split; [reflexivity|]. cbn.
    split; [reflexivity|]. split; [reflexivity|].
    intros other N. now apply dict_get_set_other.
Qed.

(** ** Report generation *)

(** C1, as stated, fails: when [open("task_overview.txt", "w")] raises,
    [generate_reports] returns without opening [user_overview.txt]. *)
Lemma task_overview_failure_skips_user_overview :
  ~ claims_writes_independent.
Proof.
  intros C.
  specialize (C (fun name =>
                   if (name =? "task_overview.txt")%string then Some O
                   else None)
                (mk_datetime 2025 6 15 10 30 0 0)
                (mk_world [("tasks.txt", ""); ("user.txt", "")] [] [])
                O eq_refl).
  vm_compute in C. destruct C as [C|[]]. discriminate.
Qed.

(** C1, amended.  Once tasks and users are loaded: if writing
    [task_overview.txt] raises, the failure is printed and
    [generate_reports] returns without opening [user_overview.txt]; if
    [task_overview.txt] is written and writing [user_overview.txt] raises,
    that failure is printed and the finished [task_overview.txt] stays. *)
Theorem generate_reports_write_failures
    (faults : string -> option nat) (now : datetime) (w w0 w1 : world)
    (tasks : list task) (users : dict string)
    (HT : load_tasks faults w = (Ok tasks, w0))
    (HU : load_users faults w0 = (Ok users, w1)) :
  (forall k, faults "task_overview.txt" = Some k ->
     exists w',
       generate_reports faults now w = (Ok tt, w')
       /\ stdout w'
          = (stdout w1 ++ ["Error: Could not write to task_overview.txt"])%list
       /\ opened_w w' = (opened_w w1 ++ ["task_overview.txt"])%list)
  /\ (forall k, faults "task_overview.txt" = None ->
      faults "user_overview.txt" = Some k ->
      exists w' ts,
        generate_reports faults now w = (Ok tt, w')
        /\ calculate_task_stats now tasks = Ok ts
        /\ stdout w'
           = (stdout w1
              ++ ["Error: Could not write to user_overview.txt"])%list
        /\ opened_w w'
           = (opened_w w1 ++ ["task_overview.txt"; "user_overview.txt"])%list
        /\ dict_get "task_overview.txt" (files w')
           = Some (join (task_overview_lines ts))).
Proof.
  destruct (calculate_user_stats_lookup now tasks users) as (us & RU & _).
  assert (G : generate_reports faults now w
              = write_reports faults
                  (mk_task_stats (len tasks) (count is_done tasks)
                     (len tasks - count is_done tasks)
                     (count (is_late now) tasks)
                     (round2 (ratio100 (len tasks - count is_done tasks)
                                (len tasks)))
                     (round2 (ratio100 (count (is_late now) tasks)
                                (len tasks))))
                  us w1).
  { unfold generate_reports, io_bind, lift.
    now rewrite HT, HU, calculate_task_stats_eq, RU. }
  split.
  - intros k F. rewrite G. unfold write_reports, io_bind, try_except.
    match goal with |- context [write_file faults ?n ?c ?x] =>
      destruct (write_file_fails faults n c x k F) as (w' & E & O & P & _)
    end.
    rewrite E. cbn. eexists. split; [reflexivity|]. cbn.
    now rewrite O, P.
  - intros k F1 F2. rewrite G. unfold write_reports, io_bind, try_except.
    rewrite (write_file_ok faults _ _ _ F1). cbn [ret].
    match goal with |- context [write_file faults "user_overview.txt" ?c ?x] =>
      destruct (write_file_fails faults "user_overview.txt" c x k F2)
        as (w' & E & O & P & Q)
    end.
    rewrite E. cbn. do 2 eexists. split; [reflexivity|].
    split; [apply calculate_task_stats_eq|]. cbn.
    rewrite O, P. cbn. split; [reflexivity|].
    split; [now rewrite <- app_assoc|].
    rewrite Q by discriminate. cbn. apply dict_get_set_same.
Qed.

Lemma generate_reports_write_failures_witness :
  exists w',
    generate_reports
      (fun name =>
         if (name =? "task_overview.txt")%string then Some O else None)
      (mk_datetime 2025 6 15 10 30 0 0)
      (mk_world [("tasks.txt", ""); ("user.txt", "")] [] [])
    = (Ok tt, w')
    /\ stdout w' = ["Error: Could not write to task_overview.txt"]
    /\ opened_w w' = ["task_overview.txt"].
Proof.
  exact (proj1
           (generate_reports_write_failures
              (fun name =>
                 if (name =? "task_overview.txt")%string then Some O
                 else None)
              (mk_datetime 2025 6 15 10 30 0 0)
              (mk_world [("tasks.txt", ""); ("user.txt", "")] [] [])
              (mk_world [("tasks.txt", ""); ("user.txt", "")] [] [])
              (mk_world [("tasks.txt", ""); ("user.txt", "")] [] [])
              [] [] eq_refl eq_refl)
           O eq_refl).
Defined.

(** ** The record store *)

Lemma has_char_app (p : ascii -> bool) (a b : string) :
  has_char p (a ++ b) = has_char p a || has_char p b.
Proof.
  induction a as [|c a IH]; cbn; [reflexivity|].
  now rewrite IH, orb_assoc.
Qed.

Lemma split_from_field (f : string) :
  forall cur rest,
    has_delim f = false ->
    split_from cur (f ++ ", " ++ rest)
    = (cur ++ f) :: split_from EmptyString rest.
Proof.
  induction f as [|c f IH]; intros cur rest H.
  - cbn. now rewrite append_nil_r.
  - cbn [has_delim] in H. apply orb_false_iff in H. destruct H as [H1 H2].
    change (String c f ++ ", " ++ rest) with (String c (f ++ ", " ++ rest)).
    cbn [split_from].
    assert (E : split_from (cur ++ String c EmptyString) (f ++ ", " ++ rest)
                = (cur ++ String c f) :: split_from EmptyString rest).
    { rewrite IH by exact H2. now rewrite append_assoc. }
    destruct f as [|c2 f'].
    + cbn [append] in *. change (is_blank ",") with false.
      now rewrite andb_false_r.
    + cbn [append starts_with] in *. now rewrite H1.
Qed.

Lemma split_from_last (f : string) :
  forall cur, has_delim f = false -> split_from cur f = [cur ++ f].
Proof.
  induction f as [|c f IH]; intros cur H.
  - cbn. now rewrite append_nil_r.
  - cbn [has_delim] in H. apply orb_false_iff in H. destruct H as [H1 H2].
    cbn [split_from]. destruct f as [|c2 f']; [reflexivity|].
    cbn [starts_with] in H1. rewrite H1, IH by exact H2.
    now rewrite append_assoc.
Qed.

Lemma lstrip_solid_start (s : string) :
  starts_with is_space s = false -> lstrip s = s.
Proof. destruct s as [|c s]; cbn; [reflexivity|]. now intros ->. Qed.

Lemma rstrip_solid_end (s : string) :
  ends_solid s = true -> rstrip (s ++ LF) = s.
Proof.
  induction s as [|c s IH]; [discriminate|].
  cbn [ends_solid]. destruct s as [|c2 s'].
  - intros H. apply negb_true_iff in H. cbn. now rewrite H.
  - intros H. change (String c (String c2 s') ++ LF)
      with (String c (String c2 s' ++ LF)).
    cbn [rstrip]. rewrite (IH H). cbn [is_empty]. now rewrite andb_false_r.
Qed.

Lemma ends_solid_app (a b : string) :
  ends_solid (a ++ b) = if is_empty b then ends_solid a else ends_solid b.
Proof.
  induction a as [|c a IH].
  - cbn. now destruct b.
  - change (String c a ++ b) with (String c (a ++ b)). cbn [ends_solid].
    destruct a as [|c2 a'].
    + cbn [append]. destruct b; reflexivity.
    + change (String c2 a' ++ b) with (String c2 (a' ++ b)) in *.
      exact IH.
Qed.

Lemma is_empty_sep (a b : string) : is_empty (a ++ ", " ++ b) = false.
Proof. now destruct a. Qed.

Lemma ends_solid_sep (a b : string) :
  is_empty b = false -> ends_solid (a ++ ", " ++ b) = ends_solid b.
Proof.
  intros H. rewrite ends_solid_app. cbn [append is_empty].
  change (String "," (String " " b)) with (", " ++ b).
  now rewrite ends_solid_app, H.
Qed.

Lemma task_line_body (t : task) : task_line t = line_body t ++ LF.
Proof.
  unfold task_line, line_body. now rewrite !append_assoc.
Qed.

Lemma storable_fields (t : task) :
  storable t = true ->
  (plain (username t) = true /\ plain (title t) = true
   /\ plain (description t) = true /\ plain (assigned_date t) = true
   /\ plain (due_date t) = true /\ plain (completed t) = true)
  /\ starts_with is_space (username t) = false
  /\ ends_solid (completed t) = true.
Proof.
  unfold storable. rewrite !andb_true_iff, negb_true_iff. tauto.
Qed.

Lemma plain_parts (s : string) :
  plain s = true -> has_delim s = false /\ has_char is_newline s = false.
Proof. unfold plain. rewrite andb_true_iff, !negb_true_iff. tauto. Qed.

Lemma strip_task_line (t : task) :
  storable t = true -> strip (task_line t) = line_body t.
Proof.
  intros S. destruct (storable_fields t S) as (_ & B & E).
  rewrite task_line_body. unfold strip.
  assert (L : lstrip (line_body t ++ LF) = line_body t ++ LF).
  { apply lstrip_solid_start. unfold line_body.
    destruct (username t); [reflexivity|exact B]. }
  rewrite L. apply rstrip_solid_end.
  unfold line_body.
  rewrite !ends_solid_sep; try apply is_empty_sep; try exact E;
    now destruct (completed t).
Qed.

Lemma split_line_body (t : task) :
  storable t = true ->
  split_comma (line_body t)
  = [username t; title t; description t; assigned_date t; due_date t;
     completed t].
Proof.
  intros S. destruct (storable_fields t S) as ((U & T & D & A & Du & C) & _).
  apply plain_parts in U, T, D, A, Du, C.
  unfold split_comma, line_body.
  rewrite !split_from_field by tauto.
  now rewrite split_from_last by tauto.
Qed.

Lemma join_cons (a : string) (l : list string) : join (a :: l) = a ++ join l.
Proof. reflexivity. Qed.

Lemma universal_newlines_no_cr (s : string) :
  has_char is_cr s = false -> universal_newlines s = s.
Proof.
  induction s as [|c s IH]; [reflexivity|].
  cbn [has_char universal_newlines]. intros H.
  apply orb_false_iff in H. destruct H as [H1 H2].
  now rewrite H1, IH.
Qed.

Lemma lines_from_line (body : string) :
  forall cur rest,
    has_char is_lf body = false ->
    lines_from cur (body ++ LF ++ rest)
    = (cur ++ body ++ LF) :: lines_from EmptyString rest.
Proof.
  induction body as [|c body IH]; intros cur rest H.
  - reflexivity.
  - cbn [has_char] in H. apply orb_false_iff in H. destruct H as [H1 H2].
    change (String c body ++ LF ++ rest)
      with (String c (body ++ LF ++ rest)).
    cbn [lines_from]. rewrite H1, IH by exact H2.
    now rewrite append_assoc.
Qed.

Lemma is_newline_parts (s : string) :
  has_char is_newline s = false ->
  has_char is_lf s = false /\ has_char is_cr s = false.
Proof.
  induction s as [|c s IH]; cbn; [easy|]. unfold is_newline at 1.
  rewrite !orb_false_iff. tauto.
Qed.

Lemma line_body_no_newline (t : task) :
  storable t = true -> has_char is_newline (line_body t) = false.
Proof.
  intros S. destruct (storable_fields t S) as ((U & T & D & A & Du & C) & _).
  apply plain_parts in U, T, D, A, Du, C.
  unfold line_body. rewrite !has_char_app.
  destruct U as [_ ->], T as [_ ->], D as [_ ->], A as [_ ->],
    Du as [_ ->], C as [_ ->]. reflexivity.
Qed.

Lemma tasks_text_no_cr (tasks : list task) :
  forallb storable tasks = true ->
  has_char is_cr (join (map task_line tasks)) = false.
Proof.
  induction tasks as [|t l IH]; [reflexivity|].
  cbn [forallb map]. rewrite andb_true_iff. intros [S R].
  rewrite join_cons, task_line_body, !has_char_app, (IH R).
  destruct (is_newline_parts _ (line_body_no_newline t S)) as [_ ->].
  reflexivity.
Qed.

Lemma tasks_text_lines (tasks : list task) :
  forallb storable tasks = true ->
  file_lines (join (map task_line tasks)) = map task_line tasks.
Proof.
  intros S. unfold file_lines.
  rewrite universal_newlines_no_cr by now apply tasks_text_no_cr.
  induction tasks as [|t l IH]; [reflexivity|].
  cbn [forallb map] in *. apply andb_true_iff in S. destruct S as [S R].
  rewrite join_cons, task_line_body, append_assoc.
  rewrite lines_from_line.
  - now rewrite (IH R).
  - now destruct (is_newline_parts _ (line_body_no_newline t S)).
Qed.

Lemma read_task_line_stored (acc : list task) (t : task) (w : world) :
  storable t = true ->
  read_task_line acc (task_line t) w = (Ok (acc ++ [t])%list, w).
Proof.
  intros S. unfold read_task_line.
  rewrite strip_task_line, split_line_body by exact S.
  now destruct t.
Qed.

Lemma read_stored_lines (tasks : list task) :
  forall acc w,
    forallb storable tasks = true ->
    io_for_each read_task_line (map task_line tasks) acc w
    = (Ok (acc ++ tasks)%list, w).
Proof.
  induction tasks as [|t l IH]; intros acc w S.
  - cbn. now rewrite app_nil_r.
  - cbn [forallb map] in *. apply andb_true_iff in S. destruct S as [S R].
    cbn [io_for_each]. unfold io_bind.
    rewrite read_task_line_stored by exact S.
    rewrite IH by exact R. now rewrite <- app_assoc.
Qed.

(** C8, as stated, fails: no field of the task below contains the
    separator, yet it comes back with another username, because
    [load_tasks] strips each line. *)
Lemma leading_space_lost_on_reload : ~ claims_round_trip.
Proof.
  intros C.
  specialize (C (fun _ => None) (mk_world [] [] [])
                [mk_task " bob" "report" "write it" "2025-01-01"
                   "2025-02-01" "No"]
                eq_refl eq_refl).
  vm_compute in C. discriminate.
Qed.

(** C8, amended.  The fields of a [task] are strings of Latin-1
    characters (U+0000..U+00FF), every one of which the encoding of
    the file can write; text beyond that range, where [save_tasks] can
    raise [UnicodeEncodeError], is not covered.  For such a collection,
    when the fields contain neither the separator nor a line break, the
    usernames do not start with whitespace, the completion flags are not
    empty and do not end with whitespace, and writing [tasks.txt] does not
    fail, [save_tasks] returns and [load_tasks] reads back exactly the
    collection that was written. *)
Theorem save_load_round_trip
    (faults : string -> option nat) (w : world) (tasks : list task)
    (HF : faults "tasks.txt" = None)
    (HS : forallb storable tasks = true) :
  exists w1,
    save_tasks faults tasks w = (Ok tt, w1)
    /\ load_tasks faults w1 = (Ok tasks, w1).
Proof.
  eexists. split.
  - unfold save_tasks. now apply write_file_ok.
  - unfold load_tasks, try_except, io_bind, read_lines.
    cbn [files]. rewrite dict_get_set_same.
    rewrite tasks_text_lines by exact HS.
    now rewrite read_stored_lines by exact HS.
Qed.

Lemma save_load_round_trip_witness :
  exists w1,
    save_tasks (fun _ => None)
      [mk_task "alice" "report" "write,then send " "2025-01-01"
         "2025-02-01" "No";
       mk_task "" " x " "" "" "never" "Yes"]
      (mk_world [] [] [])
    = (Ok tt, w1)
    /\ load_tasks (fun _ => None) w1
       = (Ok [mk_task "alice" "report" "write,then send " "2025-01-01"
                "2025-02-01" "No";
              mk_task "" " x " "" "" "never" "Yes"], w1).
Proof.
  apply (save_load_round_trip (fun _ => None) (mk_world [] [] [])
           [mk_task "alice" "report" "write,then send " "2025-01-01"
              "2025-02-01" "No";
            mk_task "" " x " "" "" "never" "Yes"]);
    reflexivity.
Defined.

(** ** Binary64 rounding *)

Lemma loc_record_loc (m : Z) (l : location) :
  loc_of_shr_record (shr_record_of_loc m l) = l.
Proof. destruct l as [|[]]; reflexivity. Qed.

Lemma shr_m_record_of_loc (m : Z) (l : location) :
  shr_m (shr_record_of_loc m l) = m.
Proof. destruct l as [|[]]; reflexivity. Qed.

Lemma div_mod_double (M D : Z) :
  0 < D -> 0 <= M ->
  M / (2 * D) = (M / D) / 2
  /\ M mod (2 * D) = (M / D) mod 2 * D + M mod D.
Proof.
  intros HD HM.
  assert (E1 : M / (2 * D) = (M / D) / 2).
  { rewrite (Z.mul_comm 2 D). now rewrite Z.div_div by lia. }
  split; [exact E1|].
  pose proof (Z.div_mod M (2 * D) ltac:(lia)) as A.
  pose proof (Z.div_mod M D ltac:(lia)) as B.
  pose proof (Z.div_mod (M / D) 2 ltac:(lia)) as C.
  rewrite E1 in A. nia.
Qed.

Lemma loc_of_cases (rho D : Z) (r s : bool) :
  0 <= rho < D ->
  loc_of_shr_record (Build_shr_record 0 r s) = loc_of rho D ->
  (r = false /\ s = false /\ rho = 0)
  \/ (r = false /\ s = true /\ 0 < rho /\ 2 * rho < D)
  \/ (r = true /\ s = false /\ 2 * rho = D)
  \/ (r = true /\ s = true /\ D < 2 * rho).
Proof.
  intros B. unfold loc_of. cbn [loc_of_shr_record].
  destruct (Z.eqb_spec rho 0) as [E|E];
    destruct (Z.compare_spec (2 * rho) D); destruct r, s;
    intros K; try discriminate; lia.
Qed.

Lemma loc_of_intro (rho D : Z) (m : Z) (r s : bool) :
  0 <= rho < D ->
  (r = false /\ s = false /\ rho = 0)
  \/ (r = false /\ s = true /\ 0 < rho /\ 2 * rho < D)
  \/ (r = true /\ s = false /\ 2 * rho = D)
  \/ (r = true /\ s = true /\ D < 2 * rho) ->
  loc_of_shr_record (Build_shr_record m r s) = loc_of rho D.
Proof.
  intros B. unfold loc_of. cbn [loc_of_shr_record].
  destruct (Z.eqb_spec rho 0) as [E|E];
    destruct (Z.compare_spec (2 * rho) D); destruct r, s;
    intros K; try reflexivity; lia.
Qed.

Lemma holds_shr_1 (rec : shr_record) (M D : Z) :
  0 < D -> 0 <= M -> holds rec M D -> holds (shr_1 rec) M (2 * D).
Proof.
  intros HD HM [Hm Hl].
  destruct (div_mod_double M D HD HM) as [E1 E2].
  pose proof (Z.mod_pos_bound M D HD) as B.
  pose proof (Z.div_pos M D HM HD) as Q0.
  unfold holds. rewrite E1, E2.
  destruct rec as [m r s]. cbn [shr_m] in Hm. subst m.
  assert (Hl' : loc_of_shr_record (Build_shr_record 0 r s)
                = loc_of (M mod D) D) by exact Hl.
  apply loc_of_cases in Hl'; [|exact B].
  set (q := M / D) in *. set (rho := M mod D) in *.
  assert (S1 : shr_m (shr_1 (Build_shr_record q r s)) = q / 2
               /\ shr_r (shr_1 (Build_shr_record q r s)) = Z.odd q
               /\ shr_s (shr_1 (Build_shr_record q r s)) = r || s).
  { destruct q as [|[p|p|]|p]; cbn [shr_1 shr_m shr_r shr_s Z.odd];
      try lia; repeat split; try reflexivity.
    - apply Z.div_unique with (r := 1); lia.
    - apply Z.div_unique with (r := 0); lia. }
  destruct S1 as (S1 & S2 & S3).
  split; [exact S1|].
  destruct (shr_1 (Build_shr_record q r s)) as [m' r' s'].
  cbn [shr_m shr_r shr_s] in *. subst r' s'.
  rewrite Zmod_odd.
  apply loc_of_intro.
  - destruct (Z.odd q); lia.
  - destruct (Z.odd q); destruct Hl' as [H|[H|[H|H]]];
      destruct H as (-> & -> & H); cbn [orb];
      first [ solve [left; repeat split; lia]
            | solve [right; left; repeat split; lia]
            | solve [right; right; left; repeat split; lia]
            | solve [right; right; right; repeat split; lia] ].
Qed.

Lemma holds_iter_shr_1 (M : Z) (p : positive) :
  forall rec D,
    0 < D -> 0 <= M -> holds rec M D ->
    holds (iter_pos shr_1 p rec) M (2 ^ Zpos p * D).
Proof.
  induction p as [p IH|p IH|]; intros rec D HD HM H; cbn [iter_pos].
  - replace (2 ^ Zpos p~1 * D) with (2 ^ Zpos p * (2 ^ Zpos p * (2 * D))).
    + apply IH; [lia|exact HM|]. apply IH; [lia|exact HM|].
      now apply holds_shr_1.
    + rewrite (Pos2Z.inj_xI p). rewrite Z.pow_add_r by lia.
      rewrite Z.pow_twice_r. ring.
  - replace (2 ^ Zpos p~0 * D) with (2 ^ Zpos p * (2 ^ Zpos p * D)).
    + apply IH; [lia|exact HM|]. now apply IH.
    + rewrite (Pos2Z.inj_xO p), Z.pow_twice_r. ring.
  - now apply holds_shr_1.
Qed.

Lemma holds_shr (rec : shr_record) (e n M D : Z) :
  0 <= n -> 0 < D -> 0 <= M -> holds rec M D ->
  exists rec',
    shr rec e n = (rec', e + n) /\ holds rec' M (2 ^ n * D).
Proof.
  intros Hn HD HM H. destruct n as [|p|p]; [| |lia].
  - exists rec. split; [unfold shr; now rewrite Z.add_0_r|].
    now rewrite Z.pow_0_r, Z.mul_1_l.
  - exists (iter_pos shr_1 p rec). split; [reflexivity|].
    now apply holds_iter_shr_1.
Qed.

Lemma digits2_pos_size (p : positive) : digits2_pos p = Pos.size p.
Proof. induction p as [p IH|p IH|]; cbn; now rewrite ?IH. Qed.

Lemma Zdigits2_log2 (z : Z) : 0 < z -> Zdigits2 z = Z.log2 z + 1.
Proof.
  destruct z as [|p|p]; try lia. intros _. cbn [Zdigits2].
  destruct p as [p|p|]; cbn [digits2_pos Z.log2];
    rewrite ?digits2_pos_size; lia.
Qed.

Lemma Zdigits2_bounds (z : Z) :
  0 < z -> 2 ^ (Zdigits2 z - 1) <= z < 2 ^ Zdigits2 z.
Proof.
  intros H. rewrite Zdigits2_log2 by exact H.
  replace (Z.log2 z + 1 - 1) with (Z.log2 z) by ring.
  pose proof (Z.log2_spec z H). lia.
Qed.

Lemma Zdigits2_unique (z k : Z) :
  2 ^ (k - 1) <= z < 2 ^ k -> 0 < z -> Zdigits2 z = k.
Proof.
  intros B H. rewrite Zdigits2_log2 by exact H.
  assert (0 < k).
  { destruct (Z.ltb_spec 0 k); [assumption|].
    rewrite (Z.pow_neg_r 2 (k - 1)) in B by lia.
    destruct (Z.eqb_spec k 0) as [->|]; [cbn in B; lia|].
    rewrite (Z.pow_neg_r 2 k) in B by lia. lia. }
  rewrite (Z.log2_unique z (k - 1)); [ring|lia|].
  replace (Z.succ (k - 1)) with k by lia. exact B.
Qed.

Lemma rhe_div_near (M D : Z) :
  0 < D ->
  - D <= 2 * (rhe_div M D * D - M) <= D
  /\ M / D <= rhe_div M D <= M / D + 1.
Proof.
  intros HD. unfold rhe_div.
  pose proof (Z.div_mod M D ltac:(lia)) as E.
  pose proof (Z.mod_pos_bound M D HD) as B.
  destruct (Z.compare_spec (2 * (M mod D)) D); [destruct (Z.even (M / D))| |];
    nia.
Qed.

Lemma rne_is_rhe_div (M D : Z) :
  0 < D ->
  round_nearest_even (M / D) (loc_of (M mod D) D) = rhe_div M D.
Proof.
  intros HD. unfold loc_of, rhe_div, round_nearest_even.
  pose proof (Z.mod_pos_bound M D HD) as B.
  destruct (Z.eqb_spec (M mod D) 0) as [E|E].
  - rewrite E. cbn. now destruct D.
  - destruct (2 * (M mod D) ?= D); reflexivity.
Qed.

Lemma fexp_normal (x : Z) : -1074 <= x - 53 -> fexp prec emax x = x - 53.
Proof. unfold fexp, SpecFloat.emin, prec, emax. lia. Qed.

(** Rounding a number of at least 53 bits: [binary_round_aux] returns the
    mantissa [rhe_div M D'] at the exponent that leaves 53 bits, or
    [2^52] one exponent higher when the rounding carries. *)
Lemma binary_round_aux_rne (s : bool) (mx ex M D : Z) :
  0 < D -> 0 < mx -> mx = M / D ->
  53 <= Zdigits2 mx ->
  -1074 <= Zdigits2 mx + ex - 53 < 971 ->
  exists (m : positive) (e n : Z),
    binary_round_aux prec emax s mx ex (loc_of (M mod D) D)
    = S754_finite s m e
    /\ n = Zdigits2 mx - 53
    /\ 2 ^ 52 <= Zpos m < 2 ^ 53
    /\ 2 ^ 52 <= M / (2 ^ n * D) < 2 ^ 53
    /\ ((Zpos m = rhe_div M (2 ^ n * D) /\ e = ex + n)
        \/ (rhe_div M (2 ^ n * D) = 2 ^ 53 /\ Zpos m = 2 ^ 52
            /\ e = ex + n + 1)).
Proof.
  intros HD Hmx Emx Hd He.
  set (d := Zdigits2 mx) in *. set (n := d - 53).
  assert (HM : 0 <= M).
  { destruct (Z.ltb_spec M 0) as [N|N]; [|exact N].
    pose proof (Z.div_lt_upper_bound M D 0 HD ltac:(lia)). lia. }
  assert (Hn : 0 <= n) by (unfold n; lia).
  assert (HD' : 0 < 2 ^ n * D) by (pose proof (Z.pow_pos_nonneg 2 n); nia).
  set (D' := 2 ^ n * D) in *.
  unfold binary_round_aux, shr_fexp. fold d.
  rewrite fexp_normal by lia.
  replace (d + ex - 53 - ex) with n by (unfold n; ring).
  destruct (holds_shr (shr_record_of_loc mx (loc_of (M mod D) D)) ex n M D
              Hn HD HM) as (rec' & E1 & [Hm Hl]).
  { split; [now rewrite shr_m_record_of_loc|apply loc_record_loc]. }
  rewrite E1. fold D' in Hm, Hl. rewrite Hm, Hl, rne_is_rhe_div by exact HD'.
  set (R := rhe_div M D').
  destruct (rhe_div_near M D' HD') as [_ HR]. fold R in HR.
  assert (Q : 2 ^ 52 <= M / D' < 2 ^ 53).
  { unfold D'. rewrite Z.mul_comm, <- Z.div_div, <- Emx by lia.
    pose proof (Zdigits2_bounds mx Hmx) as B. fold d in B.
    replace (d - 1) with (52 + n) in B by (unfold n; ring).
    replace d with (53 + n) in B by (unfold n; ring).
    rewrite !Z.pow_add_r in B by lia.
    pose proof (Z.pow_pos_nonneg 2 n ltac:(lia) Hn) as P.
    split.
    - apply Z.div_le_lower_bound; lia.
    - apply Z.div_lt_upper_bound; lia. }
  destruct (Z.eqb_spec R (2 ^ 53)) as [C|C].
  - (* the rounding carries *)
    exists (Z.to_pos (2 ^ 52)), (ex + n + 1), n.
    rewrite C. change (Zdigits2 (2 ^ 53)) with 54.
    rewrite fexp_normal by lia.
    replace (54 + (ex + n) - 53 - (ex + n)) with 1 by ring.
    cbn [shr_record_of_loc shr iter_pos]. cbn [shr_1 shr_m Z.pow Z.pow_pos Pos.iter Z.mul Pos.mul].
    replace (ex + n + 1 <=? emax - prec) with true
      by (symmetry; apply Z.leb_le; unfold emax, prec, n; lia).
    split; [reflexivity|]. split; [reflexivity|].
    split; [cbn; lia|]. split; [exact Q|].
    right. split; [exact C|]. split; reflexivity.
  - assert (HR2 : 2 ^ 52 <= R < 2 ^ 53) by lia.
    assert (DR : Zdigits2 R = 53) by (apply Zdigits2_unique; cbn in *; lia).
    rewrite DR, fexp_normal by lia.
    replace (53 + (ex + n) - 53 - (ex + n)) with 0 by ring.
    cbn [shr_record_of_loc shr shr_m].
    destruct R as [|m|m] eqn:ER; try (cbn in HR2; lia).
    exists m, (ex + n), n.
    replace (ex + n <=? emax - prec) with true
      by (symmetry; apply Z.leb_le; unfold emax, prec, n; lia).
    split; [reflexivity|]. split; [reflexivity|].
    split; [exact HR2|]. split; [exact Q|].
    left. split; [symmetry; exact ER|reflexivity].
Qed.

Local Open Scope Q_scope.

Lemma pow2_pos (e : Z) : 0 < pow2 e.
Proof. apply Qpower_0_lt. reflexivity. Qed.

Lemma pow2_add (a b : Z) : pow2 (a + b) == pow2 a * pow2 b.
Proof. apply Qpower_plus. discriminate. Qed.

Lemma pow2_nonneg (n : Z) : (0 <= n)%Z -> pow2 n == inject_Z (2 ^ n).
Proof. intros H. unfold pow2. now rewrite Zpower_Qpower. Qed.

Lemma rounded_within_u53 (y r p : Q) :
  4503599627370496 <= y -> y - (1 # 2) <= r <= y + (1 # 2) -> 0 < p ->
  y * p * (1 - u53) <= r * p <= y * p * (1 + u53).
Proof.
  intros Hy Hr Hp. unfold u53.
  assert (A : 0 <= r - y * (1 - (1 # 9007199254740992))) by lra.
  assert (B : 0 <= y * (1 + (1 # 9007199254740992)) - r) by lra.
  split; nra.
Qed.

Lemma inject_Z_pos (z : Z) : (0 < z)%Z -> 0 < inject_Z z.
Proof. intros H. now rewrite Zlt_Qlt in H. Qed.

Lemma ratio_times (M D : Z) :
  (0 < D)%Z -> inject_Z M / inject_Z D * inject_Z D == inject_Z M.
Proof.
  intros H. apply inject_Z_pos in H. field. lra.
Qed.

Lemma quotient_round_bounds (M D R : Z) :
  (0 < D)%Z -> (- D <= 2 * (R * D - M) <= D)%Z ->
  inject_Z M / inject_Z D - (1 # 2) <= inject_Z R
  <= inject_Z M / inject_Z D + (1 # 2).
Proof.
  intros HD [L U]. pose proof (ratio_times M D HD) as E.
  apply inject_Z_pos in HD.
  unfold Z.sub in L, U. rewrite Zle_Qle in L, U.
  rewrite inject_Z_mult, inject_Z_plus, inject_Z_mult, !inject_Z_opp in L.
  rewrite inject_Z_mult, inject_Z_plus, inject_Z_mult, !inject_Z_opp in U.
  set (y := inject_Z M / inject_Z D) in *.
  set (d := inject_Z D) in *. set (r := inject_Z R) in *.
  set (m := inject_Z M) in *.
  change (inject_Z 2) with 2 in *.
  split; apply (Qmult_le_r _ _ d HD); lra.
Qed.

Lemma quotient_floor_bound (M D k : Z) :
  (0 < D)%Z -> (k <= M / D)%Z -> inject_Z k <= inject_Z M / inject_Z D.
Proof.
  intros HD H.
  assert (K : (k * D <= M)%Z).
  { pose proof (Z.mul_div_le M D HD). nia. }
  apply Qle_shift_div_l; [now apply inject_Z_pos|].
  rewrite <- inject_Z_mult. now rewrite <- Zle_Qle.
Qed.

(** The value of a rounded number of at least 53 bits is within a
    relative [u53] of the exact value [M / D * 2^ex]. *)
Lemma binary_round_aux_value (mx ex M D : Z) :
  (0 < D)%Z -> (0 < mx)%Z -> mx = (M / D)%Z ->
  (53 <= Zdigits2 mx)%Z ->
  (-1074 <= Zdigits2 mx + ex - 53 < 971)%Z ->
  exists (m : positive) (e : Z),
    binary_round_aux prec emax false mx ex (loc_of (M mod D) D)
    = S754_finite false m e
    /\ (2 ^ 52 <= Zpos m < 2 ^ 53)%Z
    /\ (ex + Zdigits2 mx - 53 <= e <= ex + Zdigits2 mx - 52)%Z
    /\ inject_Z M / inject_Z D * pow2 ex * (1 - u53)
       <= inject_Z (Zpos m) * pow2 e
       <= inject_Z M / inject_Z D * pow2 ex * (1 + u53).
Proof.
  intros HD Hmx Emx Hd He.
  destruct (binary_round_aux_rne false mx ex M D HD Hmx Emx Hd He)
    as (m & e & n & E & En & Bm & Q & C).
  exists m, e. split; [exact E|]. split; [exact Bm|].
  split; [destruct C as [[_ ->]|(_ & _ & ->)]; lia|].
  assert (Hn : (0 <= n)%Z) by lia.
  assert (HD' : (0 < 2 ^ n * D)%Z)
    by (pose proof (Z.pow_pos_nonneg 2 n ltac:(lia) Hn); nia).
  set (D' := (2 ^ n * D)%Z) in *.
  set (R := rhe_div M D') in *.
  set (y := inject_Z M / inject_Z D').
  set (p := pow2 (ex + n)).
  assert (X : inject_Z M / inject_Z D * pow2 ex == y * p).
  { unfold y, p, D'. rewrite pow2_add, inject_Z_mult, <- pow2_nonneg by lia.
    pose proof (pow2_pos n). pose proof (inject_Z_pos D HD).
    field. split; lra. }
  assert (V : inject_Z (Zpos m) * pow2 e == inject_Z R * p).
  { destruct C as [[-> ->]|(-> & -> & ->)]; [reflexivity|].
    unfold p. rewrite (pow2_add (ex + n) 1).
    change (pow2 1) with 2. change (inject_Z (2 ^ 52)) with 4503599627370496.
    change (inject_Z (2 ^ 53)) with 9007199254740992. ring. }
  rewrite X, V.
  apply rounded_within_u53.
  - apply (quotient_floor_bound M D' (2 ^ 52)); [exact HD'|apply Q].
  - apply quotient_round_bounds; [exact HD'|].
    apply (rhe_div_near M D' HD').
  - apply pow2_pos.
Qed.

Local Open Scope Z_scope.

Lemma new_location_loc_of (D r : Z) :
  0 <= r < D -> new_location D r = loc_of r D.
Proof.
  intros B. unfold new_location, new_location_even, new_location_odd, loc_of.
  destruct (Z.even D) eqn:E; [reflexivity|].
  destruct (r =? 0); [reflexivity|]. f_equal.
  assert (O : Z.odd D = true) by (rewrite <- Z.negb_even, E; reflexivity).
  apply Z.odd_spec in O. destruct O as [k O].
  destruct (Z.compare_spec (2 * r + 1) D), (Z.compare_spec (2 * r) D);
    try reflexivity; lia.
Qed.

Lemma Zdigits2_ge (z k : Z) : 0 <= k -> 2 ^ k <= z -> k + 1 <= Zdigits2 z.
Proof.
  intros Hk H.
  assert (P : 0 < z) by (pose proof (Z.pow_pos_nonneg 2 k); lia).
  rewrite Zdigits2_log2 by exact P.
  pose proof (Z.log2_le_mono _ _ H) as L.
  rewrite Z.log2_pow2 in L by exact Hk. lia.
Qed.

Lemma Zdigits2_le (z k : Z) : 0 <= k -> 0 < z < 2 ^ k -> Zdigits2 z <= k.
Proof.
  intros Hk [P H]. rewrite Zdigits2_log2 by exact P.
  apply Z.log2_lt_pow2 in H; [lia|exact P].
Qed.

Local Open Scope Q_scope.

(** [c / t] for [0 < c <= t < 2^64]: one rounding of the exact quotient. *)
Lemma fdiv_value (c t : positive) :
  (Zpos c <= Zpos t < 2 ^ 64)%Z ->
  exists (m : positive) (e : Z),
    fdiv (int_sf (Zpos c)) (int_sf (Zpos t)) = S754_finite false m e
    /\ (2 ^ 52 <= Zpos m < 2 ^ 53)%Z
    /\ (-116 <= e <= -51)%Z
    /\ inject_Z (Zpos c) / inject_Z (Zpos t) * (1 - u53)
       <= inject_Z (Zpos m) * pow2 e
       <= inject_Z (Zpos c) / inject_Z (Zpos t) * (1 + u53).
Proof.
  intros [Hct Ht].
  pose proof (Zdigits2_bounds (Zpos c) eq_refl) as Bc.
  pose proof (Zdigits2_bounds (Zpos t) eq_refl) as Bt.
  set (d1 := Zdigits2 (Zpos c)) in *. set (d2 := Zdigits2 (Zpos t)) in *.
  assert (H1 : (1 <= d1)%Z) by (apply (Zdigits2_ge (Zpos c) 0); cbn; lia).
  assert (H2 : (d2 <= 64)%Z) by (apply Zdigits2_le; lia).
  assert (H12 : (d1 <= d2)%Z).
  { destruct (Z.leb_spec d1 d2) as [L|L]; [exact L|].
    assert ((2 ^ d2 <= 2 ^ (d1 - 1))%Z) by (apply Z.pow_le_mono_r; lia).
    lia. }
  unfold fdiv, int_sf, SFdiv, SFdiv_core_binary. fold d1 d2.
  rewrite fexp_normal by lia.
  replace (Z.min (d1 + 0 - (d2 + 0) - 53) (0 - 0))%Z
    with (d1 - d2 - 53)%Z by lia.
  set (s := (53 + d2 - d1)%Z).
  replace (0 - 0 - (d1 - d2 - 53))%Z with s by (unfold s; ring).
  assert (Hs : (0 < s)%Z) by (unfold s; lia).
  replace (match s with
           | 0%Z => Zpos c
           | Zpos _ => Z.shiftl (Zpos c) s
           | Zneg _ => 0%Z
           end) with (Zpos c * 2 ^ s)%Z
    by (rewrite <- Z.shiftl_mul_pow2 by lia; destruct s; try lia; reflexivity).
  set (M := (Zpos c * 2 ^ s)%Z).
  assert (Eq : Z.div_eucl M (Zpos t) = ((M / Zpos t)%Z, (M mod Zpos t)%Z)).
  { unfold Z.div, Z.modulo. now destruct (Z.div_eucl M (Zpos t)). }
  rewrite Eq. cbn [xorb].
  rewrite new_location_loc_of by (apply Z.mod_pos_bound; lia).
  assert (P2 : (0 < 2 ^ s)%Z) by (apply Z.pow_pos_nonneg; lia).
  assert (Ms : (2 ^ (52 + d2) <= M < 2 ^ (53 + d2))%Z).
  { assert (A1 : (2 ^ (52 + d2) = 2 ^ (d1 - 1) * 2 ^ s)%Z)
      by (rewrite <- Z.pow_add_r by lia; f_equal; unfold s; ring).
    assert (A2 : (2 ^ (53 + d2) = 2 ^ d1 * 2 ^ s)%Z)
      by (rewrite <- Z.pow_add_r by lia; f_equal; unfold s; ring).
    rewrite A1, A2. unfold M. nia. }
  rewrite !Z.pow_add_r in Ms by lia.
  assert (P3 : (0 < 2 ^ d2)%Z) by (apply Z.pow_pos_nonneg; lia).
  assert (P4 : (2 * 2 ^ (d2 - 1) = 2 ^ d2)%Z).
  { replace d2 with (1 + (d2 - 1))%Z at 2 by ring.
    now rewrite Z.pow_add_r by lia. }
  assert (Q1 : (2 ^ 52 <= M / Zpos t)%Z)
    by (apply Z.div_le_lower_bound; nia).
  assert (Q2 : (M / Zpos t < 2 ^ 54)%Z).
  { apply Z.div_lt_upper_bound; [lia|].
    change (2 ^ 54)%Z with (2 * 2 ^ 53)%Z. nia. }
  assert (G1 : (53 <= Zdigits2 (M / Zpos t))%Z)
    by (apply (Zdigits2_ge _ 52); lia).
  assert (G2 : (Zdigits2 (M / Zpos t) <= 54)%Z)
    by (apply Zdigits2_le; lia).
  destruct (binary_round_aux_value (M / Zpos t) (d1 - d2 - 53) M (Zpos t))
    as (m & e & E & Bm & Be & V); try lia.
  exists m, e. split; [exact E|]. split; [exact Bm|]. split; [lia|].
  assert (X : inject_Z M / inject_Z (Zpos t) * pow2 (d1 - d2 - 53)
              == inject_Z (Zpos c) / inject_Z (Zpos t)).
  { unfold M. rewrite inject_Z_mult, <- pow2_nonneg by lia.
    replace (d1 - d2 - 53)%Z with (- s)%Z by (unfold s; ring).
    unfold pow2 at 2. rewrite Qpower_opp. fold (pow2 s).
    pose proof (pow2_pos s). pose proof (inject_Z_pos (Zpos t) eq_refl).
    field. split; lra. }
  now rewrite X in V.
Qed.

Lemma float_100 : float_of_int 100 = S754_finite false 7036874417766400 (-46).
Proof. reflexivity. Qed.

(** [x * 100] for a normal [x] of moderate exponent. *)
Lemma fmul_100_value (m1 : positive) (e1 : Z) :
  (2 ^ 52 <= Zpos m1 < 2 ^ 53)%Z -> (-200 <= e1 <= 0)%Z ->
  exists (m : positive) (e : Z),
    fmul (S754_finite false m1 e1) (float_of_int 100) = S754_finite false m e
    /\ inject_Z (Zpos m1) * pow2 e1 * 100 * (1 - u53)
       <= inject_Z (Zpos m) * pow2 e
       <= inject_Z (Zpos m1) * pow2 e1 * 100 * (1 + u53).
Proof.
  intros Bm Be. rewrite float_100. unfold fmul, SFmul. cbn [xorb].
  set (M := Zpos (m1 * 7036874417766400)).
  assert (EM : M = (Zpos m1 * 7036874417766400)%Z) by reflexivity.
  assert (BM : (2 ^ 104 <= M < 2 ^ 106)%Z).
  { rewrite EM. change (2 ^ 104)%Z with (2 ^ 52 * 2 ^ 52)%Z.
    change (2 ^ 106)%Z with (2 ^ 53 * 2 ^ 53)%Z.
    change (2 ^ 52)%Z with 4503599627370496%Z in *.
    change (2 ^ 53)%Z with 9007199254740992%Z in *. lia. }
  assert (G1 : (105 <= Zdigits2 M)%Z) by (apply (Zdigits2_ge _ 104); lia).
  assert (G2 : (Zdigits2 M <= 106)%Z) by (apply Zdigits2_le; lia).
  destruct (binary_round_aux_value M (e1 + -46) M 1)
    as (m & e & E & _ & _ & V); try lia.
  { now rewrite Z.div_1_r. }
  rewrite Z.mod_1_r in E. change (loc_of 0 1) with loc_Exact in E.
  exists m, e. split; [exact E|].
  assert (X : inject_Z M / inject_Z 1 * pow2 (e1 + -46)
              == inject_Z (Zpos m1) * pow2 e1 * 100).
  { rewrite EM, inject_Z_mult, pow2_add.
    assert (C : inject_Z 7036874417766400 * pow2 (-46) == 100)
      by reflexivity.
    rewrite <- C. change (inject_Z 1) with 1. field. }
  now rewrite X in V.
Qed.

Lemma pow2_neg (e : Z) : (e < 0)%Z -> pow2 e == / inject_Z (2 ^ (- e)).
Proof.
  intros H. rewrite <- pow2_nonneg by lia. unfold pow2.
  rewrite <- Qpower_opp. now rewrite Z.opp_involutive.
Qed.

(** The hundredths are within one half of a hundred times the value. *)
Lemma hundredths_near (m : positive) (e : Z) :
  inject_Z (Zpos m) * pow2 e * 100 - (1 # 2)
  <= inject_Z (hundredths m e)
  <= inject_Z (Zpos m) * pow2 e * 100 + (1 # 2).
Proof.
  unfold hundredths. destruct (Z.leb_spec 0 e) as [H|H].
  - rewrite !inject_Z_mult, <- pow2_nonneg by exact H.
    change (inject_Z 100) with 100. split; lra.
  - assert (P : (0 < 2 ^ (- e))%Z) by (apply Z.pow_pos_nonneg; lia).
    pose proof (quotient_round_bounds (100 * Zpos m) (2 ^ (- e))
                  (rhe_div (100 * Zpos m) (2 ^ (- e))) P
                  (proj1 (rhe_div_near _ _ P))) as B.
    assert (X : inject_Z (100 * Zpos m) / inject_Z (2 ^ (- e))
                == inject_Z (Zpos m) * pow2 e * 100).
    { rewrite inject_Z_mult, pow2_neg by exact H.
      change (inject_Z 100) with 100.
      pose proof (inject_Z_pos _ P). field. lra. }
    now rewrite X in B.
Qed.

Lemma ratio_unit (c t : Z) :
  (0 <= c <= t)%Z -> (0 < t)%Z ->
  0 <= inject_Z c / inject_Z t <= 1.
Proof.
  intros [H0 H1] Ht. pose proof (inject_Z_pos t Ht) as P.
  rewrite Zle_Qle in H0, H1. change (inject_Z 0) with 0 in H0.
  split.
  - apply Qle_shift_div_l; [exact P|lra].
  - apply Qle_shift_div_r; [exact P|lra].
Qed.

(** A percentage of the reports, as hundredths: [round(c / t * 100, 2)]
    is the float nearest to [h / 100] for an integer [h] within a half
    (and a rounding residue) of [10000 * c / t]. *)
Lemma percent_cents (c t : Z) :
  (0 <= c <= t)%Z -> (0 < t < 2 ^ 64)%Z ->
  exists h : Z,
    round2 (ratio100 c t) = PFloat (cents_float false h)
    /\ 10000 * (inject_Z c / inject_Z t) - (1 # 2) - (1 # 1000000)
       <= inject_Z h
       <= 10000 * (inject_Z c / inject_Z t) + (1 # 2) + (1 # 1000000).
Proof.
  intros Hc Ht. pose proof (ratio_unit c t Hc (proj1 Ht)) as U.
  unfold ratio100. destruct t as [|t|t]; try lia. cbn [Z.eqb round2].
  destruct c as [|c|c]; try lia.
  - exists 0%Z. split; [reflexivity|].
    assert (E : inject_Z 0 / inject_Z (Zpos t) == 0) by reflexivity.
    rewrite E. change (inject_Z 0) with 0. split; lra.
  - destruct (fdiv_value c t ltac:(lia)) as (m1 & e1 & E1 & B1 & Be1 & V1).
    destruct (fmul_100_value m1 e1 B1 ltac:(lia)) as (m2 & e2 & E2 & V2).
    rewrite E1, E2. cbn [float_round2].
    exists (hundredths m2 e2). split; [reflexivity|].
    pose proof (hundredths_near m2 e2) as Hh.
    set (x := inject_Z (Zpos c) / inject_Z (Zpos t)) in *.
    set (v1 := inject_Z (Zpos m1) * pow2 e1) in *.
    set (v2 := inject_Z (Zpos m2) * pow2 e2) in *.
    set (h := inject_Z (hundredths m2 e2)) in *.
    unfold u53 in *. split; lra.
Qed.

Lemma ratio_complement (c t : Z) :
  (0 < t)%Z ->
  inject_Z c / inject_Z t + inject_Z (t - c) / inject_Z t == 1.
Proof.
  intros Ht. pose proof (inject_Z_pos t Ht).
  unfold Z.sub. rewrite inject_Z_plus, inject_Z_opp. field. lra.
Qed.

Lemma complementary_cents (c t hc hi : Z) :
  (0 < t)%Z ->
  10000 * (inject_Z c / inject_Z t) - (1 # 2) - (1 # 1000000)
  <= inject_Z hc
  <= 10000 * (inject_Z c / inject_Z t) + (1 # 2) + (1 # 1000000) ->
  10000 * (inject_Z (t - c) / inject_Z t) - (1 # 2) - (1 # 1000000)
  <= inject_Z hi
  <= 10000 * (inject_Z (t - c) / inject_Z t) + (1 # 2) + (1 # 1000000) ->
  (9999 <= hc + hi <= 10001)%Z.
Proof.
  intros Ht Hc Hi. pose proof (ratio_complement c t Ht) as E.
  set (x := inject_Z c / inject_Z t) in *.
  set (y := inject_Z (t - c) / inject_Z t) in *.
  assert (L : inject_Z 9998 < inject_Z (hc + hi))
    by (rewrite inject_Z_plus; change (inject_Z 9998) with 9998; lra).
  assert (R : inject_Z (hc + hi) < inject_Z 10002)
    by (rewrite inject_Z_plus; change (inject_Z 10002) with 10002; lra).
  rewrite <- Zlt_Qlt in L, R. lia.
Qed.

(** The hundredths of a percentage lie between 0 and 10000. *)
Lemma cents_bounds (c t h : Z) :
  (0 <= c <= t)%Z -> (0 < t)%Z ->
  10000 * (inject_Z c / inject_Z t) - (1 # 2) - (1 # 1000000)
  <= inject_Z h
  <= 10000 * (inject_Z c / inject_Z t) + (1 # 2) + (1 # 1000000) ->
  (0 <= h <= 10000)%Z.
Proof.
  intros Hc Ht B. pose proof (ratio_unit c t Hc Ht) as U.
  set (x := inject_Z c / inject_Z t) in *.
  assert (L : inject_Z (-1) < inject_Z h)
    by (change (inject_Z (-1)) with (-1); lra).
  assert (R : inject_Z h < inject_Z 10001)
    by (change (inject_Z 10001) with 10001; lra).
  rewrite <- Zlt_Qlt in L, R. lia.
Qed.

Local Open Scope Z_scope.

(** ** The two complementary percentages *)

(** C7, as stated, fails: with 23 of 160 tasks completed the percentages
    are 14.37 and 85.62, and their sum is not 100. *)
Lemma percentages_23_of_160_miss_100 : ~ claims_percentages_complementary.
Proof.
  intros C.
  pose (r := mk_user_stat 160 23 0
               (PFloat (S754_finite false 7036874417766400 (-46)))
               (PFloat (S754_finite false 8089590830664253 (-49)))
               (PFloat (S754_finite false 6024971876491592 (-46)))
               (PFloat (S754_zero false))).
  assert (E : calculate_user_stats (midnight 2025 1 1) tasks_23_of_160
                [("u", "pw")]
              = Ok (mk_user_report 1 160 [("u", r)]))
    by (vm_compute; reflexivity).
  pose proof (C (midnight 2025 1 1) tasks_23_of_160 [("u", "pw")]
                (mk_user_report 1 160 [("u", r)]) "u" r E) as C'.
  assert (H1 : dict_get "u" (user_stats (mk_user_report 1 160 [("u", r)]))
               = Some r) by reflexivity.
  assert (H2 : 0 < us_tasks r) by reflexivity.
  specialize (C' H1 H2). vm_compute in C'. discriminate.
Qed.

(** C7, amended.  For fewer than 2^63 tasks and every user with tasks,
    [percent_completed] and [percent_incomplete] are the floats nearest to
    [hc / 100] and [hi / 100] for two integers [hc] and [hi] between 0 and
    10000 with [9999 <= hc + hi <= 10001]: each rounded percentage lies
    between 0.00 and 100.00, and the two sum to 100 up to one hundredth. *)
Theorem percentages_sum_within_one_cent {V : Type} (now : datetime)
    (tasks : list task) (users : dict V) (HL : len tasks < 2 ^ 63) :
  exists rep,
    calculate_user_stats now tasks users = Ok rep
    /\ forall u r,
        dict_get u (user_stats rep) = Some r ->
        0 < us_tasks r ->
        exists hc hi : Z,
          percent_completed r = PFloat (cents_float false hc)
          /\ percent_incomplete r = PFloat (cents_float false hi)
          /\ 0 <= hc <= 10000
          /\ 0 <= hi <= 10000
          /\ 9999 <= hc + hi <= 10001.
Proof.
  destruct (calculate_user_stats_lookup now tasks users)
    as (rep & R & _ & _ & G).
  exists rep. split; [exact R|]. intros u r L T. rewrite G in L.
  destruct (dict_mem u users); [|discriminate]. injection L as <-.
  cbn [with_percentages user_counts us_tasks percent_completed
       percent_incomplete c_tasks c_completed c_overdue] in *.
  set (t := count (mine u) tasks) in *.
  set (c := count (fun x => mine u x && is_done x) tasks).
  assert (Hc : 0 <= c <= t).
  { split; [apply count_bounds|].
    apply count_le. intros x. now destruct (mine u x). }
  assert (Ht : 0 < t < 2 ^ 64).
  { split; [exact T|]. pose proof (count_bounds (mine u) tasks).
    fold t in H. change (2 ^ 63) with 9223372036854775808 in HL.
    change (2 ^ 64) with 18446744073709551616. lia. }
  destruct (percent_cents c t Hc Ht) as (hc & Ec & Bc).
  destruct (percent_cents (t - c) t ltac:(lia) Ht) as (hi & Ei & Bi).
  exists hc, hi. split; [exact Ec|]. split; [exact Ei|].
  split; [exact (cents_bounds c t hc Hc (proj1 Ht) Bc)|].
  split; [exact (cents_bounds (t - c) t hi ltac:(lia) (proj1 Ht) Bi)|].
  exact (complementary_cents c t hc hi (proj1 Ht) Bc Bi).
Qed.

Lemma percentages_sum_within_one_cent_witness :
  exists rep,
    calculate_user_stats (midnight 2025 1 1) tasks_23_of_160 [("u", "pw")]
    = Ok rep
    /\ forall u r,
        dict_get u (user_stats rep) = Some r ->
        0 < us_tasks r ->
        exists hc hi : Z,
          percent_completed r = PFloat (cents_float false hc)
          /\ percent_incomplete r = PFloat (cents_float false hi)
          /\ 0 <= hc <= 10000
          /\ 0 <= hi <= 10000
          /\ 9999 <= hc + hi <= 10001.
Proof.
  apply (percentages_sum_within_one_cent (midnight 2025 1 1)
           tasks_23_of_160 [("u", "pw")]).
  reflexivity.
Defined.

(** ** Loading, appending and the terminal *)

Lemma ends_comma_app (a b : string) :
  ends_comma (a ++ b) = if is_empty b then ends_comma a else ends_comma b.
Proof.
  induction a as [|c a IH].
  - cbn. now destruct b.
  - change (String c a ++ b) with (String c (a ++ b)). cbn [ends_comma].
    destruct a as [|c2 a'].
    + cbn [append]. destruct b; reflexivity.
    + change (String c2 a' ++ b) with (String c2 (a' ++ b)) in *. exact IH.
Qed.

Lemma has_delim_app (a b : string) :
  has_delim (a ++ b)
  = has_delim a || has_delim b || (ends_comma a && starts_with is_blank b).
Proof.
  induction a as [|c a IH].
  - cbn. now rewrite orb_false_r.
  - change (String c a ++ b) with (String c (a ++ b)).
    cbn [has_delim]. rewrite IH. destruct a as [|c2 a'].
    + cbn. destruct (is_comma c), (starts_with is_blank b), (has_delim b);
        reflexivity.
    + change (String c2 a' ++ b) with (String c2 (a' ++ b)).
      cbn [starts_with ends_comma].
      destruct (is_comma c && is_blank c2), (has_delim (String c2 a')),
        (has_delim b), (ends_comma (String c2 a') && starts_with is_blank b);
        reflexivity.
Qed.

(** The pieces of a split never contain the separator. *)
Lemma split_from_no_delim (n : nat) :
  forall s cur,
    (String.length s <= n)%nat ->
    has_delim cur = false ->
    ends_comma cur && starts_with is_blank s = false ->
    Forall (fun p => has_delim p = false) (split_from cur s).
Proof.
  induction n as [|n IH]; intros s cur L H1 H2.
  - destruct s; [|cbn in L; lia]. repeat constructor. exact H1.
  - destruct s as [|c s]; [repeat constructor; exact H1|].
    assert (K : has_delim (cur ++ String c EmptyString) = false).
    { rewrite has_delim_app, H1. cbn [has_delim starts_with] in *.
      now rewrite H2, andb_false_r. }
    cbn [split_from]. cbn [String.length] in L.
    destruct s as [|c2 rest]; [repeat constructor; exact K|].
    destruct (is_comma c && is_blank c2) eqn:E.
    + constructor; [exact H1|].
      apply IH; [cbn [String.length] in L; lia|reflexivity|reflexivity].
    + apply IH; [lia|exact K|].
      rewrite ends_comma_app. cbn [is_empty ends_comma starts_with].
      exact E.
Qed.

Lemma split_comma_no_delim (s : string) :
  Forall (fun p => has_delim p = false) (split_comma s).
Proof.
  apply (split_from_no_delim (String.length s)); [lia|reflexivity|reflexivity].
Qed.

(** The pieces of a split only hold characters of the text. *)
Lemma split_from_chars (p : ascii -> bool) (n : nat) :
  forall s cur,
    (String.length s <= n)%nat ->
    has_char p cur = false -> has_char p s = false ->
    Forall (fun x => has_char p x = false) (split_from cur s).
Proof.
  induction n as [|n IH]; intros s cur L H1 H2.
  - destruct s; [|cbn in L; lia]. repeat constructor. exact H1.
  - destruct s as [|c s]; [repeat constructor; exact H1|].
    cbn [has_char] in H2. apply orb_false_iff in H2. destruct H2 as [Hc Hs].
    assert (K : has_char p (cur ++ String c EmptyString) = false).
    { rewrite has_char_app, H1. cbn. now rewrite Hc. }
    cbn [split_from]. cbn [String.length] in L.
    destruct s as [|c2 rest]; [repeat constructor; exact K|].
    destruct (is_comma c && is_blank c2).
    + constructor; [exact H1|].
      cbn [has_char] in Hs. apply orb_false_iff in Hs.
      apply IH; [cbn [String.length] in L; lia|reflexivity|tauto].
    + apply IH; [lia|exact K|exact Hs].
Qed.

Lemma split_comma_chars (p : ascii -> bool) (s : string) :
  has_char p s = false ->
  Forall (fun x => has_char p x = false) (split_comma s).
Proof.
  intros H.
  apply (split_from_chars p (String.length s)); [lia|reflexivity|exact H].
Qed.

(** The first piece starts as the text does. *)
Lemma split_from_head (q : ascii -> bool) (n : nat) :
  forall s cur,
    (String.length s <= n)%nat ->
    starts_with q (hd EmptyString (split_from cur s)) = true ->
    starts_with q (cur ++ s) = true.
Proof.
  induction n as [|n IH]; intros s cur L H.
  - destruct s; [|cbn in L; lia]. cbn in H. now rewrite append_nil_r.
  - destruct s as [|c s]; [cbn in H; now rewrite append_nil_r|].
    cbn [split_from] in H. cbn [String.length] in L.
    assert (A : cur ++ String c s = (cur ++ String c EmptyString) ++ s)
      by now rewrite append_assoc.
    destruct s as [|c2 rest]; [exact H|].
    destruct (is_comma c && is_blank c2).
    + cbn [hd] in H. destruct cur; [discriminate|exact H].
    + rewrite A. apply IH; [lia|exact H].
Qed.

Lemma split_from_nonempty (s cur : string) : split_from cur s <> [].
Proof.
  destruct s as [|c [|c2 rest]]; cbn [split_from]; try discriminate.
  destruct (is_comma c && is_blank c2); [discriminate|].
  revert cur c c2. induction rest as [|c3 rest IH]; intros cur c c2.
  - cbn [split_from]. discriminate.
  - cbn [split_from]. destruct (is_comma c2 && is_blank c3);
      [discriminate|apply IH].
Qed.

(** The last piece ends as the text does. *)
Lemma split_from_last_solid (n : nat) :
  forall s cur,
    (String.length s <= n)%nat ->
    ends_solid (cur ++ s) = true ->
    ends_solid (last (split_from cur s) EmptyString) = true.
Proof.
  induction n as [|n IH]; intros s cur L H.
  - destruct s; [|cbn in L; lia]. cbn. now rewrite append_nil_r in H.
  - destruct s as [|c s]; [cbn; now rewrite append_nil_r in H|].
    cbn [split_from]. cbn [String.length] in L.
    assert (A : cur ++ String c s = (cur ++ String c EmptyString) ++ s)
      by now rewrite append_assoc.
    destruct s as [|c2 rest]; [exact H|].
    destruct (is_comma c && is_blank c2) eqn:E.
    + pose proof (split_from_nonempty rest EmptyString) as N.
      destruct (split_from EmptyString rest) as [|x l] eqn:Sp;
        [contradiction|].
      change (last (cur :: x :: l) EmptyString) with (last (x :: l) EmptyString).
      rewrite <- Sp.
      apply IH; [cbn [String.length] in L; lia|].
      apply andb_true_iff in E. destruct E as [_ E2].
      rewrite ends_solid_app in H. cbn [is_empty] in H.
      cbn [ends_solid] in H. destruct rest as [|r1 r].
      * unfold is_blank in E2. apply Ascii.eqb_eq in E2. subst c2.
        discriminate.
      * exact H.
    + rewrite A in H. apply IH; [lia|exact H].
Qed.

Lemma lstrip_start (s : string) : starts_with is_space (lstrip s) = false.
Proof.
  induction s as [|c s IH]; [reflexivity|]. cbn [lstrip].
  destruct (is_space c) eqn:E; [exact IH|exact E].
Qed.

Lemma rstrip_start (p : ascii -> bool) (s : string) :
  starts_with p (rstrip s) = true -> starts_with p s = true.
Proof.
  destruct s as [|c s]; [discriminate|]. cbn [rstrip].
  destruct (is_space c && is_empty (rstrip s)); [discriminate|easy].
Qed.

Lemma has_char_lstrip (p : ascii -> bool) (s : string) :
  has_char p s = false -> has_char p (lstrip s) = false.
Proof.
  induction s as [|c s IH]; [reflexivity|]. cbn [lstrip has_char].
  intros H. apply orb_false_iff in H. destruct H as [H1 H2].
  destruct (is_space c); [now apply IH|]. cbn. now rewrite H1, H2.
Qed.

Lemma has_char_rstrip (p : ascii -> bool) (s : string) :
  has_char p s = false -> has_char p (rstrip s) = false.
Proof.
  induction s as [|c s IH]; [reflexivity|]. cbn [rstrip has_char].
  intros H. apply orb_false_iff in H. destruct H as [H1 H2].
  destruct (is_space c && is_empty (rstrip s)); [reflexivity|].
  cbn. now rewrite H1, IH.
Qed.

Lemma rstrip_solid (s : string) :
  is_empty (rstrip s) = false -> ends_solid (rstrip s) = true.
Proof.
  induction s as [|c s IH]; [discriminate|]. cbn [rstrip].
  destruct (is_space c) eqn:Sp; destruct (is_empty (rstrip s)) eqn:E;
    cbn [andb]; try discriminate; intros _.
  - cbn [ends_solid]. destruct (rstrip s); [discriminate|]. now apply IH.
  - destruct (rstrip s); [cbn; now rewrite Sp|discriminate].
  - cbn [ends_solid]. destruct (rstrip s); [discriminate|]. now apply IH.
Qed.

Lemma rstrip_app_space (x : string) (c : ascii) :
  is_space c = true -> rstrip (x ++ String c EmptyString) = rstrip x.
Proof.
  intros Sp. induction x as [|d x IH].
  - cbn. now rewrite Sp.
  - change (String d x ++ String c EmptyString)
      with (String d (x ++ String c EmptyString)).
    cbn [rstrip]. now rewrite IH.
Qed.

Lemma lstrip_app_space (x : string) (c : ascii) :
  is_space c = true ->
  lstrip (x ++ String c EmptyString)
  = if is_empty (lstrip x) then EmptyString
    else lstrip x ++ String c EmptyString.
Proof.
  intros Sp. induction x as [|d x IH].
  - cbn. now rewrite Sp.
  - change (String d x ++ String c EmptyString)
      with (String d (x ++ String c EmptyString)).
    cbn [lstrip]. destruct (is_space d); [exact IH|reflexivity].
Qed.

(** Whitespace at the end of a line, its line feed first, does not
    survive [strip]. *)
Lemma strip_app_space (x : string) (c : ascii) :
  is_space c = true -> strip (x ++ String c EmptyString) = strip x.
Proof.
  intros Sp. unfold strip. rewrite lstrip_app_space by exact Sp.
  destruct (lstrip x) eqn:E; [reflexivity|].
  cbn [is_empty]. now apply rstrip_app_space.
Qed.

Lemma strip_chars (p : ascii -> bool) (s : string) :
  has_char p s = false -> has_char p (strip s) = false.
Proof. intros H. now apply has_char_rstrip, has_char_lstrip. Qed.

Lemma strip_start (s : string) : starts_with is_space (strip s) = false.
Proof.
  unfold strip. destruct (starts_with is_space (rstrip (lstrip s))) eqn:E;
    [|reflexivity].
  apply rstrip_start in E. now rewrite lstrip_start in E.
Qed.

Lemma universal_newlines_cr (n : nat) :
  forall s, (String.length s <= n)%nat ->
            has_char is_cr (universal_newlines s) = false.
Proof.
  induction n as [|n IH]; intros s L.
  - destruct s; [reflexivity|cbn in L; lia].
  - destruct s as [|c s]; [reflexivity|]. cbn [String.length] in L.
    cbn [universal_newlines]. destruct (is_cr c) eqn:E.
    + cbn [has_char]. change (is_cr (ascii_of_nat 10)) with false.
      cbn [orb]. destruct s as [|c2 s']; [reflexivity|].
      cbn [String.length] in L.
      destruct (is_lf c2); apply IH; cbn [String.length]; lia.
    + cbn [has_char]. rewrite E. apply IH. lia.
Qed.

Lemma has_newline_parts (s : string) :
  has_char is_lf s = false -> has_char is_cr s = false ->
  has_char is_newline s = false.
Proof.
  induction s as [|c s IH]; [reflexivity|]. cbn [has_char].
  rewrite !orb_false_iff. intros [A B] [C D]. rewrite IH by assumption.
  unfold is_newline. now rewrite A, C.
Qed.

Lemma lines_from_shape (s : string) :
  forall cur,
    has_char is_newline cur = false -> has_char is_cr s = false ->
    Forall line_shape (lines_from cur s).
Proof.
  induction s as [|c s IH]; intros cur H1 H2.
  - cbn. destruct (is_empty cur); constructor; [|constructor].
    exists cur. auto.
  - cbn [has_char] in H2. apply orb_false_iff in H2. destruct H2 as [Hc Hs].
    cbn [lines_from]. destruct (is_lf c) eqn:E.
    + constructor; [exists cur; auto|]. now apply IH.
    + apply IH; [|exact Hs]. rewrite has_char_app, H1.
      cbn [has_char orb]. unfold is_newline. now rewrite E, Hc.
Qed.

Lemma file_lines_shape (text : string) : Forall line_shape (file_lines text).
Proof.
  apply lines_from_shape; [reflexivity|].
  now apply (universal_newlines_cr (String.length text)).
Qed.

Lemma strip_line_shape (l : string) :
  line_shape l -> has_char is_newline (strip l) = false.
Proof.
  intros (body & H & [->| ->]).
  - unfold LF. rewrite strip_app_space by reflexivity. now apply strip_chars.
  - now apply strip_chars.
Qed.

(** Six pieces of a stripped line make a record that the file format
    holds. *)
Lemma split_strip_storable (l f0 f1 f2 f3 f4 f5 : string) :
  line_shape l ->
  split_comma (strip l) = [f0; f1; f2; f3; f4; f5] ->
  storable (mk_task f0 f1 f2 f3 f4 f5) = true.
Proof.
  intros Sh E.
  pose proof (split_comma_no_delim (strip l)) as D.
  pose proof (split_comma_chars is_newline (strip l) (strip_line_shape l Sh))
    as N.
  rewrite E in D, N.
  repeat match goal with H : Forall _ (_ :: _) |- _ => inversion_clear H end.
  unfold storable, plain. cbn [username title description assigned_date
                               due_date completed].
  repeat match goal with H : has_delim _ = false |- _ => rewrite H; clear H end.
  repeat match goal with
         | H : has_char is_newline _ = false |- _ => rewrite H; clear H
         end.
  cbn [negb andb].
  assert (S0 : starts_with is_space f0 = false).
  { destruct (starts_with is_space f0) eqn:S0; [|reflexivity].
    pose proof (split_from_head is_space (String.length (strip l)) (strip l)
                  EmptyString (le_n _)) as Hd.
    fold (split_comma (strip l)) in Hd. rewrite E in Hd.
    specialize (Hd S0). cbn [append] in Hd. now rewrite strip_start in Hd. }
  rewrite S0. cbn [negb].
  pose proof (split_from_last_solid (String.length (strip l)) (strip l)
                EmptyString (le_n _)) as La.
  fold (split_comma (strip l)) in La. rewrite E in La. apply La.
  cbn [append]. unfold strip. apply rstrip_solid.
  destruct (rstrip (lstrip l)) eqn:R; [|reflexivity].
  unfold strip in E. rewrite R in E. discriminate.
Qed.

Lemma forallb_app_one {A : Type} (p : A -> bool) (l : list A) (x : A) :
  forallb p l = true -> p x = true -> forallb p (l ++ [x]) = true.
Proof. intros H1 H2. rewrite forallb_app, H1. cbn. now rewrite H2. Qed.

(** One line of [tasks.txt]: a record that the format holds, or a
    warning; nothing else changes. *)
Lemma read_task_line_cases (acc : list task) (l : string) (w : world) :
  line_shape l ->
  (exists t,
      storable t = true
      /\ read_task_line acc l w = (Ok (acc ++ [t])%list, w))
  \/ read_task_line acc l w
     = (Ok acc, mk_world (files w) (stdout w ++ [skip_warning l])%list
                  (opened_w w)).
Proof.
  intros Sh. unfold read_task_line.
  destruct (split_comma (strip l))
    as [|f0 [|f1 [|f2 [|f3 [|f4 [|f5 [|f6 r]]]]]]] eqn:E;
    try (right; reflexivity).
  left. exists (mk_task f0 f1 f2 f3 f4 f5). split; [|reflexivity].
  now apply (split_strip_storable l).
Qed.

Lemma read_task_lines (lines : list string) :
  forall acc w,
    Forall line_shape lines ->
    forallb storable acc = true ->
    exists tasks warnings,
      io_for_each read_task_line lines acc w
      = (Ok tasks, mk_world (files w) (stdout w ++ warnings)%list (opened_w w))
      /\ forallb storable tasks = true
      /\ (List.length tasks + List.length warnings
          = List.length acc + List.length lines)%nat.
Proof.
  induction lines as [|l lines IH]; intros acc w Sh St.
  - exists acc, []. cbn. rewrite app_nil_r. destruct w. repeat split; auto.
  - inversion_clear Sh as [|? ? Hl Hr]. cbn [io_for_each]. unfold io_bind.
    destruct (read_task_line_cases acc l w Hl) as [(t & Ht & ->)| ->].
    + destruct (IH (acc ++ [t])%list w Hr (forallb_app_one _ _ _ St Ht))
        as (tasks & warnings & E & S' & C).
      exists tasks, warnings. split; [exact E|]. split; [exact S'|].
      rewrite length_app in C. cbn [List.length] in *. lia.
    + match goal with |- context [io_for_each _ _ _ ?w1] =>
        destruct (IH acc w1 Hr St) as (tasks & warnings & E & S' & C) end.
      exists tasks, (skip_warning l :: warnings). cbn [files stdout opened_w] in E.
      rewrite <- app_assoc in E. split; [exact E|]. split; [exact S'|].
      cbn [List.length] in *. lia.
Qed.

(** [load_tasks] on a file that is there: it only reads. *)
Lemma load_tasks_present (faults : string -> option nat) (w : world)
    (text : string) :
  dict_get "tasks.txt" (files w) = Some text ->
  exists tasks warnings,
    load_tasks faults w
    = (Ok tasks, mk_world (files w) (stdout w ++ warnings)%list (opened_w w))
    /\ forallb storable tasks = true
    /\ (List.length tasks + List.length warnings
        = List.length (file_lines text))%nat.
Proof.
  intros F. unfold load_tasks, try_except, io_bind, read_lines. rewrite F.
  destruct (read_task_lines (file_lines text) [] w (file_lines_shape text)
              eq_refl) as (tasks & warnings & E & S' & C).
  rewrite E. exists tasks, warnings. auto.
Qed.

(** [load_tasks] on a missing file. *)
Lemma load_tasks_missing (faults : string -> option nat) (w : world) :
  dict_get "tasks.txt" (files w) = None ->
  match faults "tasks.txt" with
  | None =>
      load_tasks faults w
      = (Ok [],
         mk_world (dict_set "tasks.txt" EmptyString (files w))
           (stdout w ++ ["Error: tasks.txt not found. Creating empty file."])
           (opened_w w ++ ["tasks.txt"]))
  | Some _ => exists w', load_tasks faults w = (Raise OSError, w')
  end.
Proof.
  intros F. unfold load_tasks, try_except, io_bind, read_lines. rewrite F.
  cbn [is_a print]. destruct (faults "tasks.txt") as [k|] eqn:Fa.
  - match goal with |- context [write_file faults ?n ?c ?x] =>
      destruct (write_file_fails faults n c x k Fa) as (w' & E & _) end.
    rewrite E. eauto.
  - rewrite write_file_ok by exact Fa. reflexivity.
Qed.

(** X1. Every record [load_tasks] returns fits the line format: its fields
    hold neither the separator nor a line break, its username does not
    start with whitespace and its completion flag is not empty and does not
    end with whitespace. *)
Theorem load_tasks_gives_storable_records
    (faults : string -> option nat) (w w' : world) (tasks : list task)
    (H : load_tasks faults w = (Ok tasks, w')) :
  forallb storable tasks = true.
Proof.
  destruct (dict_get "tasks.txt" (files w)) as [text|] eqn:F.
  - destruct (load_tasks_present faults w text F)
      as (tasks' & warnings & E & S' & _).
    rewrite E in H. now injection H as <- _.
  - pose proof (load_tasks_missing faults w F) as M.
    destruct (faults "tasks.txt").
    + destruct M as [w2 M]. rewrite M in H. discriminate.
    + rewrite M in H. now injection H as <- _.
Qed.

Lemma load_tasks_gives_storable_records_witness :
  forallb storable
    [mk_task "alice" "t1" "d ,x" "2025-01-01" "2025-02-01" "No"] = true.
Proof.
  apply (load_tasks_gives_storable_records (fun _ => None)
           (mk_world [("tasks.txt",
                       "  alice, t1, d ,x, 2025-01-01, 2025-02-01, No  "
                       ++ LF ++ "not a record" ++ LF)] [] [])
           (mk_world [("tasks.txt",
                       "  alice, t1, d ,x, 2025-01-01, 2025-02-01, No  "
                       ++ LF ++ "not a record" ++ LF)]
              ["Warning: Skipping invalid line: 'not a record'"] [])).
  reflexivity.
Defined.

(** What was saved is read back, for records that the format holds. *)
Lemma stored_tasks_reload (faults : string -> option nat) (w : world)
    (tasks : list task) :
  faults "tasks.txt" = None ->
  forallb storable tasks = true ->
  exists w1,
    save_tasks faults tasks w = (Ok tt, w1)
    /\ load_tasks faults w1 = (Ok tasks, w1)
    /\ stdout w1 = stdout w
    /\ dict_get "tasks.txt" (files w1) = Some (join (map task_line tasks))
    /\ forall other, other <> "tasks.txt" ->
         dict_get other (files w1) = dict_get other (files w).
Proof.
  intros HF HS. eexists. split; [unfold save_tasks; now apply write_file_ok|].
  split.
  - unfold load_tasks, try_except, io_bind, read_lines.
    cbn [files]. rewrite dict_get_set_same.
    rewrite tasks_text_lines by exact HS.
    now rewrite read_stored_lines by exact HS.
  - cbn [stdout files]. split; [reflexivity|].
    split; [apply dict_get_set_same|].
    intros other N. now apply dict_get_set_other.
Qed.

(** X2. Writing back what [load_tasks] returned loses nothing: after
    [save_tasks], [load_tasks] returns the same records and prints no
    warning. *)
Theorem load_save_load
    (faults : string -> option nat) (w w1 : world) (tasks : list task)
    (HL : load_tasks faults w = (Ok tasks, w1))
    (HF : faults "tasks.txt" = None) :
  exists w2,
    save_tasks faults tasks w1 = (Ok tt, w2)
    /\ load_tasks faults w2 = (Ok tasks, w2).
Proof.
  assert (HS : forallb storable tasks = true).
  { destruct (dict_get "tasks.txt" (files w)) as [text|] eqn:F.
    - destruct (load_tasks_present faults w text F)
        as (tasks' & warnings & E & S' & _).
      rewrite E in HL. now injection HL as <- _.
    - pose proof (load_tasks_missing faults w F) as M. rewrite HF in M.
      rewrite M in HL. now injection HL as <- _. }
  destruct (stored_tasks_reload faults w1 tasks HF HS) as (w2 & A & B & _).
  now exists w2.
Qed.

Lemma load_save_load_witness :
  exists w2,
    save_tasks (fun _ => None)
      [mk_task "alice" "t1" "d ,x" "2025-01-01" "2025-02-01" "No"]
      (mk_world [("tasks.txt",
                  "  alice, t1, d ,x, 2025-01-01, 2025-02-01, No  "
                  ++ LF ++ "not a record" ++ LF)]
         ["Warning: Skipping invalid line: 'not a record'"] [])
    = (Ok tt, w2)
    /\ load_tasks (fun _ => None) w2
       = (Ok [mk_task "alice" "t1" "d ,x" "2025-01-01" "2025-02-01" "No"],
          w2).
Proof.
  apply (load_save_load (fun _ => None)
           (mk_world [("tasks.txt",
                       "  alice, t1, d ,x, 2025-01-01, 2025-02-01, No  "
                       ++ LF ++ "not a record" ++ LF)] [] []));
    reflexivity.
Defined.

(** X3. When [tasks.txt] is there, [load_tasks] only reads: no file
    changes, none is opened for writing, and every line of the file gives
    one record or one printed warning. *)
Theorem load_tasks_reads_only
    (faults : string -> option nat) (w : world) (text : string)
    (H : dict_get "tasks.txt" (files w) = Some text) :
  exists tasks warnings,
    load_tasks faults w
    = (Ok tasks, mk_world (files w) (stdout w ++ warnings)%list (opened_w w))
    /\ (List.length tasks + List.length warnings
        = List.length (file_lines text))%nat.
Proof.
  destruct (load_tasks_present faults w text H)
    as (tasks & warnings & E & _ & C).
  now exists tasks, warnings.
Qed.

Lemma load_tasks_reads_only_witness :
  exists tasks warnings,
    load_tasks (fun _ => None)
      (mk_world [("tasks.txt", "a, b, c, d, e, f" ++ LF ++ LF ++ "x")] [] [])
    = (Ok tasks,
       mk_world [("tasks.txt", "a, b, c, d, e, f" ++ LF ++ LF ++ "x")]
         ([] ++ warnings) [])
    /\ (List.length tasks + List.length warnings = 3)%nat.
Proof.
  exact (load_tasks_reads_only (fun _ => None)
           (mk_world [("tasks.txt", "a, b, c, d, e, f" ++ LF ++ LF ++ "x")]
              [] [])
           ("a, b, c, d, e, f" ++ LF ++ LF ++ "x") eq_refl).
Defined.

Lemma dict_keys_set {V : Type} (k : string) (v : V) (d : dict V) :
  dict_keys (dict_set k v d)
  = if dict_mem k d then dict_keys d else (dict_keys d ++ [k])%list.
Proof.
  unfold dict_mem. induction d as [|[k' v'] d IH]; [reflexivity|].
  cbn [dict_set dict_get]. destruct (k' =? k)%string eqn:E; [reflexivity|].
  unfold dict_keys in *. cbn [map fst]. rewrite IH.
  now destruct (dict_get k d).
Qed.

Lemma dict_set_keeps_nodup {V : Type} (k : string) (v : V) (d : dict V) :
  NoDup (dict_keys d) -> NoDup (dict_keys (dict_set k v d)).
Proof.
  intros N. rewrite dict_keys_set. destruct (dict_mem k d) eqn:M; [exact N|].
  apply NoDup_app; [exact N|repeat constructor; intros []|].
  intros x Hx [<-|[]]. apply dict_mem_keys in Hx. congruence.
Qed.

Lemma read_user_lines (lines : list string) :
  forall acc w,
    NoDup (dict_keys acc) ->
    exists users warnings,
      io_for_each read_user_line lines acc w
      = (Ok users, mk_world (files w) (stdout w ++ warnings)%list (opened_w w))
      /\ NoDup (dict_keys users)
      /\ forall u,
          dict_get u users
          = match last_password u lines with
            | Some p => Some p
            | None => dict_get u acc
            end.
Proof.
  induction lines as [|l lines IH]; intros acc w N.
  - exists acc, []. cbn. rewrite app_nil_r. destruct w. auto.
  - cbn [io_for_each last_password]. unfold io_bind, read_user_line.
    destruct (split_comma (strip l)) as [|n [|p [|x r]]] eqn:E;
      cbn [ret print io_bind];
      try (match goal with |- context [io_for_each _ _ _ ?w1] =>
             destruct (IH acc w1 N) as (users & warnings & R & N' & G) end;
           exists users, (skip_warning l :: warnings);
           cbn [files stdout opened_w] in R; rewrite <- app_assoc in R;
           split; [exact R|]; split; [exact N'|];
           intros u; rewrite G; now destruct (last_password u lines)).
    destruct (IH (dict_set n p acc) w (dict_set_keeps_nodup n p acc N))
      as (users & warnings & R & N' & G).
    exists users, warnings. split; [exact R|]. split; [exact N'|].
    intros u. rewrite G. destruct (last_password u lines); [reflexivity|].
    destruct (n =? u)%string eqn:Q.
    + apply String.eqb_eq in Q. subst u. apply dict_get_set_same.
    + apply String.eqb_neq in Q. apply dict_get_set_other. congruence.
Qed.

(** X4. [load_users] on an existing [user.txt] only reads; it returns a
    mapping with one entry per username, and for a username on several
    well-formed lines the password of the last of them. *)
Theorem load_users_last_line_wins
    (faults : string -> option nat) (w : world) (text : string)
    (H : dict_get "user.txt" (files w) = Some text) :
  exists users warnings,
    load_users faults w
    = (Ok users, mk_world (files w) (stdout w ++ warnings)%list (opened_w w))
    /\ NoDup (dict_keys users)
    /\ forall u, dict_get u users = last_password u (file_lines text).
Proof.
  unfold load_users, try_except, io_bind, read_lines. rewrite H.
  destruct (read_user_lines (file_lines text) [] w (NoDup_nil _))
    as (users & warnings & R & N & G).
  rewrite R. exists users, warnings. split; [reflexivity|]. split; [exact N|].
  intros u. rewrite G. now destruct (last_password u (file_lines text)).
Qed.

Lemma load_users_last_line_wins_witness :
  exists users warnings,
    load_users (fun _ => None)
      (mk_world [("user.txt", "a, 1" ++ LF ++ "b, 2" ++ LF ++ "a, 3")] [] [])
    = (Ok users,
       mk_world [("user.txt", "a, 1" ++ LF ++ "b, 2" ++ LF ++ "a, 3")]
         ([] ++ warnings) [])
    /\ NoDup (dict_keys users)
    /\ forall u,
        dict_get u users
        = last_password u ["a, 1" ++ LF; "b, 2" ++ LF; "a, 3"].
Proof.
  exact (load_users_last_line_wins (fun _ => None)
           (mk_world [("user.txt", "a, 1" ++ LF ++ "b, 2" ++ LF ++ "a, 3")]
              [] [])
           ("a, 1" ++ LF ++ "b, 2" ++ LF ++ "a, 3") eq_refl).
Defined.

(** X5. On a missing [user.txt], [load_users] writes the line of the
    default administrator and returns that one account, and loading again
    gives the same account without a message; when the file cannot be
    written the [OSError] is not caught. *)
Theorem load_users_seeds_admin
    (faults : string -> option nat) (w : world)
    (H : dict_get "user.txt" (files w) = None) :
  match faults "user.txt" with
  | None =>
      exists w1,
        load_users faults w = (Ok [("admin", "adm1n")], w1)
        /\ dict_get "user.txt" (files w1) = Some ("admin, adm1n" ++ LF)
        /\ load_users faults w1 = (Ok [("admin", "adm1n")], w1)
  | Some _ => exists w', load_users faults w = (Raise OSError, w')
  end.
Proof.
  destruct (faults "user.txt") as [k|] eqn:Fa.
  - unfold load_users, try_except, io_bind, read_lines. rewrite H.
    cbn [is_a print].
    match goal with |- context [write_file faults ?n ?c ?x] =>
      destruct (write_file_fails faults n c x k Fa) as (w' & E & _) end.
    rewrite E. eauto.
  - assert (E : load_users faults w
                = (Ok [("admin", "adm1n")],
                   mk_world
                     (dict_set "user.txt" ("admin, adm1n" ++ LF) (files w))
                     (stdout w
                      ++ ["Error: user.txt not found. Creating new file with admin."])
                     (opened_w w ++ ["user.txt"]))).
    { unfold load_users, try_except, io_bind, read_lines. rewrite H.
      cbn [is_a print]. rewrite write_file_ok by exact Fa. reflexivity. }
    eexists. split; [exact E|].
    split; [cbn [files]; apply dict_get_set_same|].
    unfold load_users, try_except, io_bind, read_lines. cbn [files].
    rewrite dict_get_set_same. reflexivity.
Qed.

Lemma load_users_seeds_admin_witness :
  exists w1,
    load_users (fun _ => None) (mk_world [] [] [])
    = (Ok [("admin", "adm1n")], w1)
    /\ dict_get "user.txt" (files w1) = Some ("admin, adm1n" ++ LF)
    /\ load_users (fun _ => None) w1 = (Ok [("admin", "adm1n")], w1).
Proof.
  exact (load_users_seeds_admin (fun _ => None) (mk_world [] [] []) eq_refl).
Defined.

Lemma percent_range (c t : Z) :
  0 <= c <= t -> 0 < t < 2 ^ 64 ->
  exists h,
    round2 (ratio100 c t) = PFloat (cents_float false h)
    /\ 0 <= h <= 10000
    /\ (c = 0 -> h = 0) /\ (c = t -> h = 10000).
Proof.
  intros Hc Ht. destruct (percent_cents c t Hc Ht) as (h & E & B).
  pose proof (ratio_unit c t Hc (proj1 Ht)) as U.
  exists h. split; [exact E|].
  set (x := (inject_Z c / inject_Z t)%Q) in *.
  assert (L : (inject_Z (-1) < inject_Z h)%Q)
    by (change (inject_Z (-1)) with (-1)%Q; lra).
  assert (R : (inject_Z h < inject_Z 10001)%Q)
    by (change (inject_Z 10001) with 10001%Q; lra).
  rewrite <- Zlt_Qlt in L, R. split; [lia|]. split.
  - intros ->. assert (X : (x == 0)%Q) by (unfold x; reflexivity).
    rewrite X in B.
    assert (R0 : (inject_Z h < inject_Z 1)%Q)
      by (change (inject_Z 1) with 1%Q; lra).
    rewrite <- Zlt_Qlt in R0. lia.
  - intros ->.
    assert (X : (x == 1)%Q).
    { unfold x. pose proof (inject_Z_pos t (proj1 Ht)).
      field. lra. }
    rewrite X in B.
    assert (L0 : (inject_Z 9999 < inject_Z h)%Q)
      by (change (inject_Z 9999) with 9999%Q; lra).
    rewrite <- Zlt_Qlt in L0. lia.
Qed.

Lemma percent_is_percentage (c t : Z) :
  0 <= c <= t -> t < 2 ^ 64 -> is_percentage (round2 (ratio100 c t)).
Proof.
  intros Hc Ht. destruct (Z.eqb_spec t 0) as [->|N].
  - left. reflexivity.
  - right. destruct (percent_range c t Hc ltac:(lia)) as (h & E & B & _).
    now exists h.
Qed.

(** X6. For fewer than 2^63 tasks the two percentages of
    [calculate_task_stats] lie between 0 and 100; [incomplete_percent] is
    exactly 0.0 when every task is completed and exactly 100.0 when none
    is. *)
Theorem task_percentages_in_range (now : datetime) (tasks : list task)
    (HL : len tasks < 2 ^ 63) :
  exists st,
    calculate_task_stats now tasks = Ok st
    /\ is_percentage (incomplete_percent st)
    /\ is_percentage (overdue_percent st)
    /\ (0 < total st -> uncompleted st = 0 ->
        incomplete_percent st = PFloat (S754_zero false))
    /\ (0 < total st -> completed_count st = 0 ->
        incomplete_percent st = PFloat (float_of_int 100)).
Proof.
  eexists. split; [apply calculate_task_stats_eq|].
  cbn [incomplete_percent overdue_percent total uncompleted completed_count].
  pose proof (count_bounds is_done tasks) as B1.
  pose proof (count_bounds (is_late now) tasks) as B2.
  change (2 ^ 63) with 9223372036854775808 in HL.
  assert (T64 : len tasks < 2 ^ 64)
    by (change (2 ^ 64) with 18446744073709551616; lia).
  split; [apply percent_is_percentage; lia|].
  split; [apply percent_is_percentage; lia|].
  split.
  - intros P Z0.
    destruct (percent_range (len tasks - count is_done tasks) (len tasks))
      as (h & E & _ & H0 & _); try lia.
    rewrite E, (H0 Z0). reflexivity.
  - intros P Z0.
    destruct (percent_range (len tasks - count is_done tasks) (len tasks))
      as (h & E & _ & _ & H1); try lia.
    rewrite E, H1 by lia. reflexivity.
Qed.

Lemma task_percentages_in_range_witness :
  exists st,
    calculate_task_stats scenario_now scenario_tasks = Ok st
    /\ is_percentage (incomplete_percent st)
    /\ is_percentage (overdue_percent st).
Proof.
  destruct (task_percentages_in_range scenario_now scenario_tasks eq_refl)
    as (st & E & A & B & _).
  exists st. auto.
Defined.

(** X7. For fewer than 2^63 tasks the four percentages of every user
    record lie between 0 and 100; a user all of whose tasks are completed
    has [percent_completed] exactly 100.0 and [percent_incomplete] exactly
    0.0. *)
Theorem user_percentages_in_range {V : Type} (now : datetime)
    (tasks : list task) (users : dict V) (HL : len tasks < 2 ^ 63) :
  exists rep,
    calculate_user_stats now tasks users = Ok rep
    /\ forall u r,
        dict_get u (user_stats rep) = Some r ->
        is_percentage (percent_total r)
        /\ is_percentage (percent_completed r)
        /\ is_percentage (percent_incomplete r)
        /\ is_percentage (percent_overdue r)
        /\ (0 < us_tasks r -> us_completed r = us_tasks r ->
            percent_completed r = PFloat (float_of_int 100)
            /\ percent_incomplete r = PFloat (S754_zero false)).
Proof.
  destruct (calculate_user_stats_lookup now tasks users)
    as (rep & R & _ & _ & G).
  exists rep. split; [exact R|]. intros u r L. rewrite G in L.
  destruct (dict_mem u users); [|discriminate]. injection L as <-.
  cbn [with_percentages user_counts us_tasks us_completed percent_total
       percent_completed percent_incomplete percent_overdue
       c_tasks c_completed c_overdue].
  set (t := count (mine u) tasks).
  set (c := count (fun x => mine u x && is_done x) tasks).
  set (o := count (fun x => mine u x && negb (is_done x)
                            && overdue_holds now (due_date x)) tasks).
  pose proof (count_bounds (mine u) tasks) as Bt. fold t in Bt.
  assert (Bc : 0 <= c <= t).
  { split; [apply count_bounds|]. apply count_le. intros x.
    now destruct (mine u x). }
  assert (Bo : 0 <= o <= t).
  { split; [apply count_bounds|]. apply count_le. intros x.
    now destruct (mine u x). }
  change (2 ^ 63) with 9223372036854775808 in HL.
  assert (T64 : len tasks < 2 ^ 64)
    by (change (2 ^ 64) with 18446744073709551616; lia).
  assert (t64 : t < 2 ^ 64) by lia.
  split; [apply percent_is_percentage; lia|].
  split; [apply percent_is_percentage; lia|].
  split; [apply percent_is_percentage; lia|].
  split; [apply percent_is_percentage; lia|].
  intros P E.
  destruct (percent_range c t Bc ltac:(lia)) as (h & Eh & _ & _ & H1).
  destruct (percent_range (t - c) t ltac:(lia) ltac:(lia))
    as (h' & Eh' & _ & H0 & _).
  rewrite Eh, Eh', H1, H0 by lia. split; reflexivity.
Qed.

Lemma user_percentages_in_range_witness :
  exists rep,
    calculate_user_stats scenario_now scenario_tasks scenario_users = Ok rep
    /\ forall u r,
        dict_get u (user_stats rep) = Some r ->
        is_percentage (percent_completed r).
Proof.
  destruct (user_percentages_in_range scenario_now scenario_tasks
              scenario_users eq_refl) as (rep & E & A).
  exists rep. split; [exact E|]. intros u r L. now destruct (A u r L) as (_ & B & _).
Defined.

Lemma dict_mem_false_keys {V : Type} (k : string) (d : dict V) :
  ~ In k (dict_keys d) -> dict_mem k d = false.
Proof.
  intros N. destruct (dict_mem k d) eqn:M; [|reflexivity].
  apply dict_mem_keys in M. contradiction.
Qed.

Lemma fold_set_keys {V : Type} (z : V) (ks : list string) :
  forall d : dict V,
    NoDup (dict_keys d ++ ks) ->
    dict_keys (fold_left (fun d k => dict_set k z d) ks d)
    = (dict_keys d ++ ks)%list.
Proof.
  induction ks as [|k ks IH]; intros d N; cbn [fold_left].
  - now rewrite app_nil_r.
  - assert (M : dict_mem k d = false).
    { apply dict_mem_false_keys. intros I.
      apply NoDup_remove_2 in N. apply N. apply in_or_app. now left. }
    rewrite IH; rewrite dict_keys_set, M.
    + now rewrite <- app_assoc.
    + now rewrite <- app_assoc.
Qed.

Lemma init_stats_keys {V : Type} (users : dict V) :
  NoDup (dict_keys users) -> dict_keys (init_stats users) = dict_keys users.
Proof.
  intros N. unfold init_stats. now rewrite fold_set_keys.
Qed.

Lemma map_values_keys {V W : Type} (g : V -> W) (d : dict V) :
  dict_keys (map_values g d) = dict_keys d.
Proof.
  unfold dict_keys, map_values. rewrite map_map. now apply map_ext.
Qed.

Lemma calculate_user_stats_keys {V : Type} (now : datetime)
    (tasks : list task) (users : dict V) :
  exists rep,
    calculate_user_stats now tasks users = Ok rep
    /\ dict_keys (user_stats rep) = dict_keys (init_stats users).
Proof.
  unfold calculate_user_stats.
  destruct (for_each_tally now tasks (init_stats users)) as (st & R & K & _).
  rewrite R. cbn [res_bind].
  rewrite (dict_mapM_total _ (with_percentages (len tasks)))
    by apply add_percentages_ok.
  cbn [res_bind]. eexists. split; [reflexivity|].
  cbn [user_stats]. now rewrite map_values_keys.
Qed.

Lemma dict_get_in {V : Type} (k : string) (v : V) (d : dict V) :
  NoDup (dict_keys d) -> In (k, v) d -> dict_get k d = Some v.
Proof.
  induction d as [|[k' v'] d IH]; intros N I; [destruct I|].
  cbn [dict_keys map fst] in N. inversion_clear N as [|? ? N1 N2].
  cbn [dict_get]. destruct I as [[= -> ->]|I].
  - now rewrite String.eqb_refl.
  - destruct (String.eqb_spec k' k) as [->|_]; [|now apply IH].
    exfalso. apply N1. change (In k (dict_keys d)).
    unfold dict_keys. now apply (in_map fst) in I.
Qed.

Lemma sum_tasks_by_key (f : string -> Z) (d : dict user_stat) :
  NoDup (dict_keys d) ->
  (forall k r, dict_get k d = Some r -> us_tasks r = f k) ->
  sum_tasks d = fold_right (fun k acc => f k + acc) 0 (dict_keys d).
Proof.
  induction d as [|[k r] d IH]; intros N G; [reflexivity|].
  cbn [sum_tasks dict_keys map fst snd fold_right].
  rewrite (G k r) by (cbn; now rewrite String.eqb_refl).
  f_equal. pose proof N as N'.
  cbn [dict_keys map fst] in N. inversion_clear N as [|? ? N1 N2].
  apply IH; [exact N2|]. intros k' r' L. apply G.
  apply (dict_get_in k' r' ((k, r) :: d) N').
  right. clear - L. induction d as [|[a b] d IH]; [discriminate|].
  cbn in L. destruct (String.eqb_spec a k') as [->|_].
  - injection L as ->. now left.
  - right. now apply IH.
Qed.

Lemma count_by_key (ks : list string) (tasks : list task) :
  NoDup ks ->
  fold_right (fun k acc => count (mine k) tasks + acc) 0 ks
  = count (fun t => existsb (fun k => (k =? username t)%string) ks) tasks.
Proof.
  intros N. induction tasks as [|t l IH].
  - induction ks as [|k ks IHk]; [reflexivity|].
    inversion_clear N. cbn [fold_right]. rewrite IHk by assumption.
    reflexivity.
  - rewrite count_cons, <- IH.
    clear IH. induction ks as [|k ks IHk]; [reflexivity|].
    inversion_clear N as [|? ? N1 N2]. cbn [fold_right existsb].
    rewrite count_cons. specialize (IHk N2). unfold mine at 1.
    rewrite (String.eqb_sym (username t) k).
    destruct (String.eqb_spec k (username t)) as [->|_].
    + assert (E : existsb (fun k => (k =? username t)%string) ks = false).
      { destruct (existsb _ ks) eqn:X; [|reflexivity].
        apply existsb_exists in X. destruct X as (x & I & Q).
        apply String.eqb_eq in Q. subst x. contradiction. }
      rewrite E in IHk. cbn [orb]. lia.
    + cbn [orb]. lia.
Qed.

(** X8. For a mapping of users with one entry per username, as
    [load_users] returns it, the report of [calculate_user_stats] lists
    the users in the order of the mapping, and the [tasks] counters of
    all records add up to the number of tasks that belong to a
    registered user. *)
Theorem user_stats_follow_users {V : Type} (now : datetime)
    (tasks : list task) (users : dict V)
    (HN : NoDup (dict_keys users)) :
  exists rep,
    calculate_user_stats now tasks users = Ok rep
    /\ dict_keys (user_stats rep) = dict_keys users
    /\ total_users rep = len users
    /\ sum_tasks (user_stats rep)
       = count (fun t => dict_mem (username t) users) tasks
    /\ sum_tasks (user_stats rep) <= total_tasks rep.
Proof.
  destruct (calculate_user_stats_lookup now tasks users)
    as (rep & R & TU & TT & G).
  destruct (calculate_user_stats_keys now tasks users) as (rep' & R' & K).
  rewrite R in R'. injection R' as <-.
  rewrite init_stats_keys in K by exact HN.
  exists rep. split; [exact R|]. split; [exact K|]. split; [exact TU|].
  assert (S1 : sum_tasks (user_stats rep)
               = count (fun t => dict_mem (username t) users) tasks).
  { rewrite (sum_tasks_by_key (fun k => count (mine k) tasks)).
    - rewrite K, count_by_key by exact HN. unfold count. f_equal.
      apply filter_ext. intros t. apply existsb_keys.
    - now rewrite K.
    - intros k r L. rewrite G in L.
      destruct (dict_mem k users); [|discriminate]. now injection L as <-. }
  split; [exact S1|]. rewrite S1, TT. apply count_bounds.
Qed.

Lemma user_stats_follow_users_witness :
  exists rep,
    calculate_user_stats scenario_now scenario_tasks scenario_users = Ok rep
    /\ dict_keys (user_stats rep) = ["alice"; "bob"; "admin"]
    /\ sum_tasks (user_stats rep) = 3.
Proof.
  destruct (user_stats_follow_users scenario_now scenario_tasks
              scenario_users) as (rep & E & K & _ & S & _).
  - repeat constructor; cbn; intuition discriminate.
  - exists rep. split; [exact E|]. split; [exact K|]. rewrite S. reflexivity.
Defined.

(** Writing a file returns or raises [OSError], prints nothing and leaves
    the other files alone. *)
Lemma write_file_frame (faults : string -> option nat) (name : string)
    (chunks : list string) (w : world) :
  exists r w',
    write_file faults name chunks w = (r, w')
    /\ (r = Ok tt \/ r = Raise OSError)
    /\ stdout w' = stdout w
    /\ forall other, other <> name ->
         dict_get other (files w') = dict_get other (files w).
Proof.
  destruct (faults name) as [k|] eqn:F.
  - destruct (write_file_fails faults name chunks w k F)
      as (w' & E & O & _ & Q).
    exists (Raise OSError), w'. auto.
  - rewrite (write_file_ok faults name chunks w F).
    do 2 eexists. split; [reflexivity|]. split; [now left|].
    split; [reflexivity|]. intros other N. now apply dict_get_set_other.
Qed.

Lemma write_reports_frame (faults : string -> option nat)
    (ts : task_stats) (us : user_report) (w : world) :
  exists w',
    write_reports faults ts us w = (Ok tt, w')
    /\ forall name,
        name <> "task_overview.txt" -> name <> "user_overview.txt" ->
        dict_get name (files w') = dict_get name (files w).
Proof.
  unfold write_reports, io_bind, try_except.
  destruct (write_file_frame faults "task_overview.txt"
              (task_overview_lines ts) w) as (r1 & w1 & E1 & [-> | ->] & _ & Q1);
    rewrite E1; cbn [ret is_a print].
  - destruct (write_file_frame faults "user_overview.txt"
                (user_overview_lines us) w1)
      as (r2 & w2 & E2 & [-> | ->] & _ & Q2);
      rewrite E2; cbn [ret is_a print]; eexists; (split; [reflexivity|]);
      intros name N1 N2; cbn [files]; now rewrite Q2, Q1.
  - eexists. split; [reflexivity|]. intros name N1 N2. cbn [files].
    now apply Q1.
Qed.

(** X9. Once tasks and users are loaded, [generate_reports] returns
    whatever happens to the two report files, and it changes no file but
    these two. *)
Theorem generate_reports_returns_after_loading
    (faults : string -> option nat) (now : datetime) (w w0 w1 : world)
    (tasks : list task) (users : dict string)
    (HT : load_tasks faults w = (Ok tasks, w0))
    (HU : load_users faults w0 = (Ok users, w1)) :
  exists w',
    generate_reports faults now w = (Ok tt, w')
    /\ forall name,
        name <> "task_overview.txt" -> name <> "user_overview.txt" ->
        dict_get name (files w') = dict_get name (files w1).
Proof.
  destruct (calculate_user_stats_lookup now tasks users) as (us & RU & _).
  unfold generate_reports, io_bind, lift.
  rewrite HT, HU, calculate_task_stats_eq, RU.
  apply write_reports_frame.
Qed.

Lemma generate_reports_returns_after_loading_witness :
  exists w',
    generate_reports
      (fun name => if (name =? "user_overview.txt")%string then Some 2%nat
                   else None)
      scenario_now (mk_world [("tasks.txt", ""); ("user.txt", "")] [] [])
    = (Ok tt, w')
    /\ forall name,
        name <> "task_overview.txt" -> name <> "user_overview.txt" ->
        dict_get name (files w')
        = dict_get name [("tasks.txt", ""); ("user.txt", "")].
Proof.
  exact (generate_reports_returns_after_loading
           (fun name => if (name =? "user_overview.txt")%string
                        then Some 2%nat else None)
           scenario_now
           (mk_world [("tasks.txt", ""); ("user.txt", "")] [] [])
           (mk_world [("tasks.txt", ""); ("user.txt", "")] [] [])
           (mk_world [("tasks.txt", ""); ("user.txt", "")] [] [])
           [] [] eq_refl eq_refl).
Defined.

(** X10. When both report files can be written, [generate_reports] leaves
    in them the text of the two statistics, one line per [file.write], and
    prints that the reports were generated. *)
Theorem generate_reports_writes_both
    (faults : string -> option nat) (now : datetime) (w w0 w1 : world)
    (tasks : list task) (users : dict string)
    (HT : load_tasks faults w = (Ok tasks, w0))
    (HU : load_users faults w0 = (Ok users, w1))
    (F1 : faults "task_overview.txt" = None)
    (F2 : faults "user_overview.txt" = None) :
  exists ts us w',
    generate_reports faults now w = (Ok tt, w')
    /\ calculate_task_stats now tasks = Ok ts
    /\ calculate_user_stats now tasks users = Ok us
    /\ dict_get "task_overview.txt" (files w')
       = Some (join (task_overview_lines ts))
    /\ dict_get "user_overview.txt" (files w')
       = Some (join (user_overview_lines us))
    /\ stdout w'
       = (stdout w1
          ++ ["Reports generated: task_overview.txt, user_overview.txt"])%list
    /\ opened_w w'
       = (opened_w w1 ++ ["task_overview.txt"; "user_overview.txt"])%list.
Proof.
  destruct (calculate_user_stats_lookup now tasks users) as (us & RU & _).
  do 3 eexists.
  split.
  - unfold generate_reports, io_bind, lift.
    rewrite HT, HU, calculate_task_stats_eq, RU.
    unfold write_reports, io_bind, try_except.
    rewrite (write_file_ok faults _ _ _ F1). cbn [ret].
    rewrite (write_file_ok faults _ _ _ F2). cbn [ret]. reflexivity.
  - split; [apply calculate_task_stats_eq|]. split; [exact RU|].
    cbn [files stdout opened_w]. split.
    + rewrite dict_get_set_other by discriminate. apply dict_get_set_same.
    + split; [apply dict_get_set_same|]. split; [reflexivity|].
      now rewrite <- app_assoc.
Qed.

Lemma generate_reports_writes_both_witness :
  exists ts us w',
    generate_reports (fun _ => None) scenario_now
      (mk_world [("tasks.txt", ""); ("user.txt", "")] [] [])
    = (Ok tt, w')
    /\ calculate_task_stats scenario_now [] = Ok ts
    /\ calculate_user_stats scenario_now [] ([] : dict string) = Ok us
    /\ dict_get "task_overview.txt" (files w')
       = Some (join (task_overview_lines ts))
    /\ dict_get "user_overview.txt" (files w')
       = Some (join (user_overview_lines us))
    /\ stdout w'
       = ["Reports generated: task_overview.txt, user_overview.txt"]
    /\ opened_w w' = ["task_overview.txt"; "user_overview.txt"].
Proof.
  exact (generate_reports_writes_both (fun _ => None) scenario_now
           (mk_world [("tasks.txt", ""); ("user.txt", "")] [] [])
           (mk_world [("tasks.txt", ""); ("user.txt", "")] [] [])
           (mk_world [("tasks.txt", ""); ("user.txt", "")] [] [])
           [] [] eq_refl eq_refl eq_refl eq_refl).
Defined.

Lemma length_append (a b : string) :
  String.length (a ++ b) = (String.length a + String.length b)%nat.
Proof. induction a as [|c a IH]; cbn; [reflexivity|now rewrite IH]. Qed.

Lemma length_repeat_char (c : ascii) (n : nat) :
  String.length (repeat_char c n) = n.
Proof. induction n as [|n IH]; cbn; [reflexivity|now rewrite IH]. Qed.

Lemma length_pad_right (s : string) (n : nat) :
  String.length (pad_right s n) = Nat.max (String.length s) n.
Proof.
  unfold pad_right. rewrite length_append, length_repeat_char. lia.
Qed.

Lemma max_len_bound (lines : list string) (l : string) :
  In l lines -> (String.length l <= max_len lines)%nat.
Proof.
  unfold max_len. induction lines as [|x lines IH]; intros []; cbn.
  - subst x. lia.
  - specialize (IH H). lia.
Qed.

Lemma print_rows (rows : list string) (width : nat) :
  forall w,
    io_for_each (fun (_ : unit) line => print (box_row width line)) rows tt w
    = (Ok tt,
       mk_world (files w) (stdout w ++ map (box_row width) rows)%list
         (opened_w w)).
Proof.
  induction rows as [|r rows IH]; intros w.
  - cbn. rewrite app_nil_r. now destruct w.
  - cbn [io_for_each map]. unfold io_bind at 1. cbn [print].
    rewrite IH. cbn [files stdout opened_w]. now rewrite <- app_assoc.
Qed.

(** X11. [display_task] prints a rectangle: two borders and six rows that
    all have the returned width, which is 22 more than the longest of the
    six fields, then an empty line; it touches no file. *)
Theorem display_task_prints_a_box (t : task) (w : world) :
  exists box,
    display_task t w
    = (Ok (Z.of_nat (max_len (task_lines t) + 4)),
       mk_world (files w) (stdout w ++ box ++ [""])%list (opened_w w))
    /\ List.length box = 8%nat
    /\ Forall (fun row => String.length row = (max_len (task_lines t) + 4)%nat)
         box
    /\ max_len (task_lines t)
       = (18 + max_len [title t; username t; description t; assigned_date t;
                        due_date t; completed t])%nat.
Proof.
  set (m := max_len (task_lines t)).
  exists (box_border (m + 4)
          :: map (box_row m) (task_lines t) ++ [box_border (m + 4)])%list.
  split; [|split; [|split]].
  - unfold display_task, io_bind. fold m. cbn [print].
    rewrite print_rows. cbn [files stdout opened_w ret].
    rewrite <- !app_assoc. reflexivity.
  - reflexivity.
  - assert (B : String.length (box_border (m + 4)) = (m + 4)%nat).
    { unfold box_border. rewrite !length_append, length_repeat_char. cbn. lia. }
    constructor; [exact B|]. apply Forall_app. split; [|now repeat constructor].
    apply Forall_map, Forall_forall. intros l I.
    unfold box_row. rewrite !length_append, length_pad_right.
    pose proof (max_len_bound _ _ I) as Hm. fold m in Hm.
    cbn [String.length]. lia.
  - unfold m, task_lines, max_len. cbn [map fold_right].
    rewrite !length_append. cbn [pad_right String.length Nat.sub repeat_char append].
    lia.
Qed.

Lemma universal_newlines_app (n : nat) :
  forall a b,
    (String.length a <= n)%nat -> starts_with is_lf b = false ->
    universal_newlines (a ++ b) = universal_newlines a ++ universal_newlines b.
Proof.
  induction n as [|n IH]; intros a b L H.
  - destruct a; [reflexivity|cbn in L; lia].
  - destruct a as [|c a]; [reflexivity|]. cbn [String.length] in L.
    change (String c a ++ b) with (String c (a ++ b)).
    cbn [universal_newlines]. destruct (is_cr c).
    + destruct a as [|c2 a].
      * cbn [append]. destruct b as [|c3 b]; [reflexivity|].
        cbn [starts_with] in H. now rewrite H.
      * cbn [String.length] in L.
        change (String c2 a ++ b) with (String c2 (a ++ b)).
        cbv beta iota. destruct (is_lf c2).
        -- rewrite (IH a b) by (assumption || lia). reflexivity.
        -- change (String c2 (a ++ b)) with (String c2 a ++ b).
           rewrite (IH (String c2 a) b) by (assumption || cbn; lia).
           reflexivity.
    + rewrite (IH a b) by (assumption || lia). reflexivity.
Qed.

Lemma lines_from_app (a : string) :
  forall cur b,
    ends_lf a = true ->
    lines_from cur (a ++ b)
    = (lines_from cur a ++ lines_from EmptyString b)%list.
Proof.
  induction a as [|c a IH]; intros cur b H; [discriminate|].
  change (String c a ++ b) with (String c (a ++ b)).
  cbn [lines_from]. destruct a as [|c2 a].
  - cbn [ends_lf] in H. rewrite H. reflexivity.
  - assert (H' : ends_lf (String c2 a) = true) by exact H.
    destruct (is_lf c).
    + now rewrite (IH EmptyString b H').
    + now rewrite (IH _ b H').
Qed.

Lemma file_lines_append (raw body : string) :
  tidy raw = true ->
  is_empty body = false ->
  has_char is_newline body = false ->
  file_lines (raw ++ body ++ LF)
  = (file_lines raw ++ [(body ++ LF)%string])%list.
Proof.
  intros T E N. destruct (is_newline_parts _ N) as [Nl Nc].
  unfold file_lines.
  rewrite (universal_newlines_app (String.length raw)); [|lia|].
  2:{ destruct body as [|c body]; [discriminate|].
      cbn [has_char] in Nl. apply orb_false_iff in Nl. now destruct Nl. }
  assert (U : universal_newlines (body ++ LF) = body ++ LF).
  { apply universal_newlines_no_cr. rewrite has_char_app, Nc. reflexivity. }
  rewrite U.
  assert (L : lines_from EmptyString (body ++ LF) = [body ++ LF]).
  { rewrite <- (append_nil_r LF) at 1. now rewrite lines_from_line. }
  unfold tidy in T. apply orb_true_iff in T. destruct T as [T|T].
  - destruct (universal_newlines raw); [|discriminate]. exact L.
  - now rewrite lines_from_app, L.
Qed.

Lemma io_for_each_app {A S : Type} (body : S -> A -> io S) (xs ys : list A) :
  forall st w,
    io_for_each body (xs ++ ys)%list st w
    = io_bind (io_for_each body xs st) (io_for_each body ys) w.
Proof.
  induction xs as [|x xs IH]; intros st w; [reflexivity|].
  cbn [app io_for_each]. unfold io_bind.
  destruct (body st x w) as [[st'|e] w']; [|reflexivity].
  rewrite IH. reflexivity.
Qed.

Lemma end_with_newline_tidy (faults : string -> option nat) (bom : string)
    (name raw : string) (w : world) :
  dict_get name (files w) = Some raw ->
  tidy raw = true ->
  faults name = None ->
  end_with_newline faults bom name w
  = (Ok tt, set_file name raw (log_open name w)).
Proof.
  intros F T N. unfold end_with_newline, try_except, amend_file.
  rewrite F, N. unfold tidy in T.
  destruct (is_empty (universal_newlines raw)); [reflexivity|].
  cbn [orb] in T. rewrite T. reflexivity.
Qed.

Lemma end_with_newline_missing (faults : string -> option nat) (bom : string)
    (name : string) (w : world) :
  dict_get name (files w) = None ->
  end_with_newline faults bom name w = (Ok tt, log_open name w).
Proof.
  intros F. unfold end_with_newline, try_except, amend_file.
  now rewrite F.
Qed.

Lemma dict_set_same {V : Type} (k : string) (v : V) (d : dict V) :
  dict_get k d = Some v -> dict_set k v d = d.
Proof.
  induction d as [|[k' v'] d IH]; [discriminate|].
  cbn [dict_get dict_set]. destruct (k' =? k)%string eqn:E.
  - intros [= ->]. apply String.eqb_eq in E. now subst.
  - intros H. now rewrite IH.
Qed.

Lemma read_task_line_shape (acc : list task) (l : string) :
  (exists t, forall w, read_task_line acc l w = (Ok (acc ++ [t])%list, w))
  \/ (forall w,
        read_task_line acc l w
        = (Ok acc, mk_world (files w) (stdout w ++ [skip_warning l])%list
                     (opened_w w))).
Proof.
  unfold read_task_line.
  destruct (split_comma (strip l))
    as [|f0 [|f1 [|f2 [|f3 [|f4 [|f5 [|f6 r]]]]]]];
    try (right; reflexivity).
  left. now exists (mk_task f0 f1 f2 f3 f4 f5).
Qed.

Lemma read_task_lines_uniform (lines : list string) :
  forall acc,
    exists tasks warnings,
      forall w,
        io_for_each read_task_line lines acc w
        = (Ok tasks,
           mk_world (files w) (stdout w ++ warnings)%list (opened_w w)).
Proof.
  induction lines as [|l lines IH]; intros acc.
  - exists acc, []. intros [f s o]. cbn. now rewrite app_nil_r.
  - cbn [io_for_each]. unfold io_bind.
    destruct (read_task_line_shape acc l) as [[t R]|R].
    + destruct (IH (acc ++ [t])%list) as (tasks & warnings & E).
      exists tasks, warnings. intros w. rewrite R. apply E.
    + destruct (IH acc) as (tasks & warnings & E).
      exists tasks, (skip_warning l :: warnings). intros w.
      rewrite R, E. cbn [files stdout opened_w]. now rewrite <- app_assoc.
Qed.

Lemma read_user_line_shape (acc : dict string) (l : string) :
  (exists u p, forall w, read_user_line acc l w = (Ok (dict_set u p acc), w))
  \/ (forall w,
        read_user_line acc l w
        = (Ok acc, mk_world (files w) (stdout w ++ [skip_warning l])%list
                     (opened_w w))).
Proof.
  unfold read_user_line.
  destruct (split_comma (strip l)) as [|f0 [|f1 [|f2 r]]];
    try (right; reflexivity).
  left. now exists f0, f1.
Qed.

Lemma read_user_lines_uniform (lines : list string) :
  forall acc,
    exists users warnings,
      forall w,
        io_for_each read_user_line lines acc w
        = (Ok users,
           mk_world (files w) (stdout w ++ warnings)%list (opened_w w)).
Proof.
  induction lines as [|l lines IH]; intros acc.
  - exists acc, []. intros [f s o]. cbn. now rewrite app_nil_r.
  - cbn [io_for_each]. unfold io_bind.
    destruct (read_user_line_shape acc l) as [(u & p & R)|R].
    + destruct (IH (dict_set u p acc)) as (users & warnings & E).
      exists users, warnings. intros w. rewrite R. apply E.
    + destruct (IH acc) as (users & warnings & E).
      exists users, (skip_warning l :: warnings). intros w.
      rewrite R, E. cbn [files stdout opened_w]. now rewrite <- app_assoc.
Qed.

Lemma read_user_line_stored (acc : dict string) (u p : string) (w : world) :
  storable_user u p = true ->
  read_user_line acc (u ++ ", " ++ p ++ LF) w = (Ok (dict_set u p acc), w).
Proof.
  unfold storable_user. rewrite !andb_true_iff, negb_true_iff.
  intros [[[U P] B] E]. apply plain_parts in U, P.
  assert (S : strip (u ++ ", " ++ p ++ LF) = u ++ ", " ++ p).
  { change (u ++ ", " ++ p ++ LF) with (u ++ (", " ++ p) ++ LF).
    rewrite <- append_assoc. unfold strip.
    rewrite lstrip_solid_start.
    - apply rstrip_solid_end. rewrite ends_solid_sep; [exact E|].
      now destruct p.
    - rewrite append_assoc. destruct u; [reflexivity|exact B]. }
  unfold read_user_line. rewrite S. unfold split_comma.
  rewrite split_from_field by tauto. rewrite split_from_last by tauto.
  reflexivity.
Qed.

Lemma user_line_no_newline (u p : string) :
  storable_user u p = true ->
  has_char is_newline (u ++ ", " ++ p) = false.
Proof.
  unfold storable_user. rewrite !andb_true_iff.
  intros [[[U P] _] _]. apply plain_parts in U, P.
  rewrite !has_char_app. destruct U as [_ ->], P as [_ ->]. reflexivity.
Qed.

Lemma append_file_ok (faults : string -> option nat) (name raw line : string)
    (w : world) :
  faults name = None ->
  dict_get name (files w) = Some raw ->
  append_file faults name [line] w
  = (Ok tt, set_file name (raw ++ line) (log_open name w)).
Proof.
  intros N F. unfold append_file. rewrite N, F. reflexivity.
Qed.

(** Appending one line to a file that is there and tidy. *)
Lemma append_line_tidy (faults : string -> option nat) (bom : string)
    (name raw line : string) (w : world) :
  faults name = None ->
  dict_get name (files w) = Some raw ->
  tidy raw = true ->
  io_bind (end_with_newline faults bom name)
    (fun _ => append_file faults name [line]) w
  = (Ok tt,
     mk_world (dict_set name (raw ++ line) (files w)) (stdout w)
       (opened_w w ++ [name; name])%list).
Proof.
  intros N F T. unfold io_bind.
  rewrite (end_with_newline_tidy faults bom name raw w F T N).
  rewrite (append_file_ok faults name raw line); [| exact N |].
  2:{ cbn [set_file log_open files]. apply dict_get_set_same. }
  unfold set_file, log_open. cbn [files stdout opened_w].
  rewrite (dict_set_same name raw (files w) F).
  now rewrite <- app_assoc.
Qed.

(** Appending a task and loading again. *)
Lemma save_new_task_reload
    (faults : string -> option nat) (bom : string) (w w0 : world)
    (raw : string) (t : task) (old : list task)
    (F : dict_get "tasks.txt" (files w) = Some raw)
    (T : tidy raw = true)
    (N : faults "tasks.txt" = None)
    (S : storable t = true)
    (L : load_tasks faults w = (Ok old, w0)) :
  exists w1 w2,
    save_new_task faults bom (username t) (title t) (description t)
      (assigned_date t) (due_date t) (completed t) w = (Ok tt, w1)
    /\ dict_get "tasks.txt" (files w1) = Some (raw ++ task_line t)
    /\ stdout w1 = stdout w
    /\ load_tasks faults w1 = (Ok (old ++ [t])%list, w2)
    /\ files w2 = files w1
    /\ stdout w2 = stdout w0.
Proof.
  unfold save_new_task. fold (task_line t).
  rewrite (append_line_tidy faults bom "tasks.txt" raw (task_line t) w N F T).
  destruct (read_task_lines_uniform (file_lines raw) [])
    as (tasks & warnings & E).
  eexists. eexists. split; [reflexivity|].
  cbn [files stdout opened_w].
  split; [apply dict_get_set_same|]. split; [reflexivity|].
  unfold load_tasks, try_except, io_bind, read_lines in L |- *.
  rewrite F, E in L. injection L as <- <-.
  cbn [files]. rewrite dict_get_set_same.
  rewrite task_line_body, file_lines_append; [|exact T| |].
  2:{ unfold line_body. apply is_empty_sep. }
  2:{ now apply line_body_no_newline. }
  rewrite io_for_each_app. unfold io_bind. rewrite E.
  cbn [io_for_each]. unfold io_bind.
  rewrite <- task_line_body, read_task_line_stored by exact S.
  cbn [ret]. split; [reflexivity|]. split; reflexivity.
Qed.

(** X12. On a [tasks.txt] that is empty or ends with a line break and
    can be written, [save_new_task] with six fields of Latin-1 text that
    fit the line format adds exactly the line of the new task, prints
    nothing, and [load_tasks] then returns the tasks it returned before
    followed by the new one, with the same warnings. *)
Theorem save_new_task_then_load
    (faults : string -> option nat) (bom : string) (w w0 : world)
    (raw : string) (t : task) (old : list task)
    (F : dict_get "tasks.txt" (files w) = Some raw)
    (T : tidy raw = true)
    (N : faults "tasks.txt" = None)
    (S : storable t = true)
    (L : load_tasks faults w = (Ok old, w0)) :
  exists w1 w2,
    save_new_task faults bom (username t) (title t) (description t)
      (assigned_date t) (due_date t) (completed t) w = (Ok tt, w1)
    /\ dict_get "tasks.txt" (files w1) = Some (raw ++ task_line t)
    /\ stdout w1 = stdout w
    /\ load_tasks faults w1 = (Ok (old ++ [t])%list, w2)
    /\ files w2 = files w1
    /\ stdout w2 = stdout w0.
Proof.
  exact (save_new_task_reload faults bom w w0 raw t old F T N S L).
Qed.

Lemma save_new_task_then_load_witness :
  exists w1 w2,
    save_new_task (fun _ => None) "?" "bob" "review" "read it"
      "2025-01-01" "2025-02-01" "No"
      (mk_world [("tasks.txt",
                  "alice, plan, d, 2025-01-01, 2025-02-01, Yes" ++ LF
                  ++ "junk" ++ LF)] [] [])
    = (Ok tt, w1)
    /\ dict_get "tasks.txt" (files w1)
       = Some (("alice, plan, d, 2025-01-01, 2025-02-01, Yes" ++ LF
                ++ "junk" ++ LF)
               ++ "bob, review, read it, 2025-01-01, 2025-02-01, No" ++ LF)
    /\ stdout w1 = []
    /\ load_tasks (fun _ => None) w1
       = (Ok [mk_task "alice" "plan" "d" "2025-01-01" "2025-02-01" "Yes";
              mk_task "bob" "review" "read it" "2025-01-01" "2025-02-01"
                "No"], w2)
    /\ files w2 = files w1
    /\ stdout w2 = ["Warning: Skipping invalid line: 'junk'"].
Proof.
  apply (save_new_task_then_load (fun _ => None) "?"
           (mk_world [("tasks.txt",
                       "alice, plan, d, 2025-01-01, 2025-02-01, Yes" ++ LF
                       ++ "junk" ++ LF)] [] [])
           (mk_world [("tasks.txt",
                       "alice, plan, d, 2025-01-01, 2025-02-01, Yes" ++ LF
                       ++ "junk" ++ LF)]
              ["Warning: Skipping invalid line: 'junk'"] [])
           ("alice, plan, d, 2025-01-01, 2025-02-01, Yes" ++ LF
            ++ "junk" ++ LF)
           (mk_task "bob" "review" "read it" "2025-01-01" "2025-02-01" "No")
           [mk_task "alice" "plan" "d" "2025-01-01" "2025-02-01" "Yes"]);
    reflexivity.
Defined.

(** Appending a user and loading again. *)
Lemma save_user_reload
    (faults : string -> option nat) (bom : string) (w w0 : world)
    (raw u p : string) (users : dict string)
    (F : dict_get "user.txt" (files w) = Some raw)
    (T : tidy raw = true)
    (N : faults "user.txt" = None)
    (S : storable_user u p = true)
    (L : load_users faults w = (Ok users, w0)) :
  exists w1 w2,
    save_user faults bom u p w = (Ok tt, w1)
    /\ dict_get "user.txt" (files w1) = Some (raw ++ u ++ ", " ++ p ++ LF)
    /\ stdout w1 = stdout w
    /\ load_users faults w1 = (Ok (dict_set u p users), w2)
    /\ files w2 = files w1
    /\ stdout w2 = stdout w0.
Proof.
  unfold save_user.
  rewrite (append_line_tidy faults bom "user.txt" raw _ w N F T).
  destruct (read_user_lines_uniform (file_lines raw) [])
    as (us & warnings & E).
  eexists. eexists. split; [reflexivity|].
  cbn [files stdout opened_w].
  split; [apply dict_get_set_same|]. split; [reflexivity|].
  unfold load_users, try_except, io_bind, read_lines in L |- *.
  rewrite F, E in L. injection L as <- <-.
  cbn [files]. rewrite dict_get_set_same.
  change (u ++ ", " ++ p ++ LF) with (u ++ (", " ++ p) ++ LF).
  rewrite <- (append_assoc u), file_lines_append; [|exact T| |].
  2:{ apply is_empty_sep. }
  2:{ now apply user_line_no_newline. }
  rewrite io_for_each_app. unfold io_bind. rewrite E.
  cbn [io_for_each]. unfold io_bind.
  rewrite (append_assoc u).
  change (u ++ (", " ++ p) ++ LF) with (u ++ ", " ++ p ++ LF).
  rewrite read_user_line_stored by exact S.
  cbn [ret]. split; [reflexivity|]. split; reflexivity.
Qed.

(** X13. On a [user.txt] that is empty or ends with a line break and can
    be written, [save_user] with a name and a password of Latin-1 text
    that fit the line format adds exactly the line of the new user, and
    [load_users] then returns the dictionary it returned before with the
    password of that name set: a new name goes last, a name already there
    keeps its place and gets the new password. *)
Theorem save_user_then_load
    (faults : string -> option nat) (bom : string) (w w0 : world)
    (raw u p : string) (users : dict string)
    (F : dict_get "user.txt" (files w) = Some raw)
    (T : tidy raw = true)
    (N : faults "user.txt" = None)
    (S : storable_user u p = true)
    (L : load_users faults w = (Ok users, w0)) :
  exists w1 w2,
    save_user faults bom u p w = (Ok tt, w1)
    /\ dict_get "user.txt" (files w1) = Some (raw ++ u ++ ", " ++ p ++ LF)
    /\ stdout w1 = stdout w
    /\ load_users faults w1 = (Ok (dict_set u p users), w2)
    /\ files w2 = files w1
    /\ stdout w2 = stdout w0.
Proof.
  exact (save_user_reload faults bom w w0 raw u p users F T N S L).
Qed.

Lemma save_user_then_load_witness :
  exists w1 w2,
    save_user (fun _ => None) "?" "bob" "b2"
      (mk_world [("user.txt", "admin, adm1n" ++ LF ++ "bob, b1" ++ LF)] [] [])
    = (Ok tt, w1)
    /\ dict_get "user.txt" (files w1)
       = Some (("admin, adm1n" ++ LF ++ "bob, b1" ++ LF) ++ "bob, b2" ++ LF)
    /\ stdout w1 = []
    /\ load_users (fun _ => None) w1
       = (Ok [("admin", "adm1n"); ("bob", "b2")], w2)
    /\ files w2 = files w1
    /\ stdout w2 = [].
Proof.
  apply (save_user_then_load (fun _ => None) "?"
           (mk_world [("user.txt", "admin, adm1n" ++ LF ++ "bob, b1" ++ LF)]
              [] [])
           (mk_world [("user.txt", "admin, adm1n" ++ LF ++ "bob, b1" ++ LF)]
              [] [])
           ("admin, adm1n" ++ LF ++ "bob, b1" ++ LF) "bob" "b2"
           [("admin", "adm1n"); ("bob", "b1")]);
    reflexivity.
Defined.

Lemma py_int_cases (m : nat) (s : string) :
  (exists z, py_int m s = Ok z) \/ py_int m s = Raise ValueError.
Proof.
  unfold py_int.
  destruct (skip_int_space s) as [|c s1]; [now right|].
  destruct (if (c =? "-")%char then (true, s1)
            else if (c =? "+")%char then (false, s1)
            else (false, String c s1)) as [negative [|d s3]]; [now right|].
  destruct (is_decimal d); [|now right].
  destruct (scan_digits (code d - 48) 1 s3) as [[value count] rest].
  destruct (is_empty (skip_int_space rest)
            && ((m =? 0)%nat || (count <=? m)%nat)); [left|now right].
  eauto.
Qed.

(** What a call of [get_valid_task_number] can do: it reads lines until one
    is acceptable, the input ends or the stack is full, and it touches no
    file. *)
Lemma get_valid_task_number_cases (m frames : nat) (user_tasks : list task) :
  forall ins w,
    exists used ins' o warnings,
      get_valid_task_number m frames user_tasks ins w
      = (o, ins',
         mk_world (files w) (stdout w ++ warnings)%list (opened_w w))
      /\ ins = (used ++ ins')%list
      /\ (List.length used <= frames)%nat
      /\ match o with
         | Done n =>
             (n = -1 \/ 1 <= n <= len user_tasks)
             /\ exists before line,
                 used = (before ++ [line])%list
                 /\ py_int m (strip line) = Ok n
         | Halt h =>
             (h = EOFError /\ ins' = [])
             \/ (h = RecursionError /\ List.length used = frames)
         | Unfinished => False
         end.
Proof.
  induction frames as [|frames IH]; intros ins w.
  - exists [], ins, (Halt RecursionError), []. cbn. rewrite app_nil_r.
    destruct w. repeat split; auto.
  - cbn [get_valid_task_number].
    unfold input_strip, say.
    unfold tty_try, tty_bind, input, tty_ret, run, lift, print.
    destruct ins as [|line rest]; cbv beta iota.
    + exists [], [], (Halt EOFError), ["Enter task number (-1 to main menu): "].
      cbn. repeat split; auto; lia.
    + destruct (py_int_cases m (strip line)) as [[z E]|E]; rewrite E.
      * destruct (z =? -1) eqn:E1.
        { apply Z.eqb_eq in E1. subst z.
          exists [line], rest, (Done (-1)),
            ["Enter task number (-1 to main menu): "].
          cbn. repeat split; auto; try lia.
          exists [], line. auto. }
        destruct ((1 <=? z) && (z <=? len user_tasks)) eqn:E2.
        { apply andb_true_iff in E2. destruct E2 as [A B].
          apply Z.leb_le in A, B.
          exists [line], rest, (Done z),
            ["Enter task number (-1 to main menu): "].
          cbn. repeat split; auto; try lia.
          exists [], line. auto. }
        match goal with |- context [get_valid_task_number m frames _ rest ?w1] =>
          destruct (IH rest w1) as (used & ins' & o & warnings & R & I & L & C)
        end.
        rewrite R. cbn [files stdout opened_w].
        exists (line :: used), ins', o,
          ("Enter task number (-1 to main menu): "
           :: "Invalid task number. Try again." :: warnings).
        rewrite <- !app_assoc. cbn [app]. split.
        { destruct o as [n|[e| | |]|]; try reflexivity.
          destruct C as [[C _]|[C _]]; discriminate. }
        split; [now rewrite I|]. split; [cbn; lia|].
        destruct o as [n|h|]; [| |exact C].
        -- destruct C as [C (before & l & U & P)]. split; [exact C|].
           exists (line :: before), l. rewrite U. auto.
        -- destruct C as [C|[C C']]; [left; exact C|right].
           split; [exact C|cbn; lia].
      * cbn [is_a].
        match goal with |- context [get_valid_task_number m frames _ rest ?w1] =>
          destruct (IH rest w1) as (used & ins' & o & warnings & R & I & L & C)
        end.
        rewrite R. cbn [files stdout opened_w].
        exists (line :: used), ins', o,
          ("Enter task number (-1 to main menu): "
           :: "Please enter a valid number." :: warnings).
        rewrite <- !app_assoc. cbn [app]. split; [reflexivity|].
        split; [now rewrite I|]. split; [cbn; lia|].
        destruct o as [n|h|]; [| |exact C].
        -- destruct C as [C (before & l & U & P)]. split; [exact C|].
           exists (line :: before), l. rewrite U. auto.
        -- destruct C as [C|[C C']]; [left; exact C|right].
           split; [exact C|cbn; lia].
Qed.

(** X14. Whatever is typed, [get_valid_task_number] touches no file and
    ends in one of three ways: it returns -1 or a number from 1 to the
    number of tasks; the input ends ([EOFError]); or there have been as
    many refused lines as calls fit on the stack ([RecursionError]).  No
    [ValueError] escapes. *)
Theorem get_valid_task_number_outcome (max_str_digits frames : nat)
    (user_tasks : list task) (ins : list string) (w : world) :
  let '(o, ins', w') :=
    get_valid_task_number max_str_digits frames user_tasks ins w in
  files w' = files w /\ opened_w w' = opened_w w
  /\ match o with
     | Done n => n = -1 \/ 1 <= n <= len user_tasks
     | Halt h =>
         (h = EOFError /\ ins' = [] /\ (List.length ins <= frames)%nat)
         \/ (h = RecursionError /\ (frames <= List.length ins)%nat)
     | Unfinished => False
     end.
Proof.
  destruct (get_valid_task_number_cases max_str_digits frames user_tasks
              ins w) as (used & ins' & o & warnings & R & I & L & C).
  rewrite R. cbn [files opened_w]. split; [reflexivity|].
  split; [reflexivity|]. destruct o as [n|h|]; [tauto| |exact C].
  destruct C as [[C1 C2]|[C1 C2]].
  - left. subst ins' ins. rewrite app_nil_r. auto.
  - right. subst ins. rewrite length_app. split; [exact C1|lia].
Qed.

(** X15. [get_valid_task_number] returns the number of the first line it
    can accept, when the lines refused before it are fewer than the calls
    that fit on the stack; it reads no further, and prints one prompt per
    line read and one message per refused line. *)
Theorem get_valid_task_number_takes_first_accepted
    (max_str_digits : nat) (user_tasks : list task) (refused : list string)
    (line : string) (n : Z) :
  forall (frames : nat) (rest : list string) (w : world)
         (HR : Forall (fun l => accepted max_str_digits user_tasks l = None)
                 refused)
         (HA : accepted max_str_digits user_tasks line = Some n)
         (HF : (List.length refused < frames)%nat),
  exists out,
    get_valid_task_number max_str_digits frames user_tasks
      (refused ++ line :: rest)%list w
    = (Done n, rest,
       mk_world (files w) (stdout w ++ out)%list (opened_w w))
    /\ List.length out = (2 * List.length refused + 1)%nat.
Proof.
  induction refused as [|bad refused IH]; intros frames rest w HR HA HF.
  - destruct frames as [|frames]; [cbn in HF; lia|].
    exists ["Enter task number (-1 to main menu): "].
    split; [|reflexivity].
    cbn [app get_valid_task_number]. unfold input_strip, say.
    unfold tty_try, tty_bind, input, tty_ret, run, lift, print.
    cbv beta iota. unfold accepted in HA.
    destruct (py_int max_str_digits (strip line)) as [z|e]; [|discriminate].
    destruct (z =? -1) eqn:E1.
    + apply Z.eqb_eq in E1. subst z. cbn in HA. now injection HA as <-.
    + cbn [orb] in HA.
      destruct ((1 <=? z) && (z <=? len user_tasks)); [|discriminate].
      now injection HA as <-.
  - destruct frames as [|frames]; [cbn in HF; lia|].
    inversion_clear HR as [|? ? HB HR'].
    cbn [List.length] in HF.
    cbn [app get_valid_task_number]. unfold input_strip, say.
    unfold tty_try, tty_bind, input, tty_ret, run, lift, print.
    cbv beta iota. unfold accepted in HB.
    destruct (py_int_cases max_str_digits (strip bad)) as [[z E]|E];
      rewrite E in HB |- *.
    + destruct (z =? -1); [discriminate|]. cbn [orb] in HB.
      destruct ((1 <=? z) && (z <=? len user_tasks)); [discriminate|].
      match goal with |- context [get_valid_task_number _ frames _ _ ?w1] =>
        destruct (IH frames rest w1 HR' HA ltac:(lia)) as (out & R & Lo)
      end.
      rewrite R. cbn [files stdout opened_w].
      exists ("Enter task number (-1 to main menu): "
              :: "Invalid task number. Try again." :: out).
      rewrite <- !app_assoc. split; [reflexivity|].
      cbn [List.length]. lia.
    + cbn [is_a].
      match goal with |- context [get_valid_task_number _ frames _ _ ?w1] =>
        destruct (IH frames rest w1 HR' HA ltac:(lia)) as (out & R & Lo)
      end.
      rewrite R. cbn [files stdout opened_w].
      exists ("Enter task number (-1 to main menu): "
              :: "Please enter a valid number." :: out).
      rewrite <- !app_assoc. split; [reflexivity|].
      cbn [List.length]. lia.
Qed.

Lemma get_valid_task_number_takes_first_accepted_witness :
  exists out,
    get_valid_task_number 4300 3
      [mk_task "a" "t" "d" "" "" "No"; mk_task "a" "u" "d" "" "" "No"]
      ["two"; " 3 "; "+0_2 "; "1"] (mk_world [] [] [])
    = (Done 2, ["1"], mk_world [] ([] ++ out)%list [])
    /\ List.length out = (2 * List.length ["two"; " 3 "] + 1)%nat.
Proof.
  apply (get_valid_task_number_takes_first_accepted 4300
           [mk_task "a" "t" "d" "" "" "No"; mk_task "a" "u" "d" "" "" "No"]
           ["two"; " 3 "] "+0_2 " 2 3 ["1"] (mk_world [] [] [])).
  - repeat constructor.
  - reflexivity.
  - cbn. lia.
Defined.

Lemma load_tasks_stored (faults : string -> option nat) (w : world)
    (tasks : list task) :
  dict_get "tasks.txt" (files w) = Some (join (map task_line tasks)) ->
  forallb storable tasks = true ->
  load_tasks faults w = (Ok tasks, w).
Proof.
  intros F S. unfold load_tasks, try_except, io_bind, read_lines.
  rewrite F, tasks_text_lines by exact S.
  now rewrite read_stored_lines by exact S.
Qed.

(** What [load_tasks] returns fits the line format, and the file is there
    afterwards. *)
Lemma load_tasks_result (faults : string -> option nat) (w w0 : world)
    (tasks : list task) :
  load_tasks faults w = (Ok tasks, w0) ->
  forallb storable tasks = true
  /\ dict_mem "tasks.txt" (files w0) = true.
Proof.
  intros L. destruct (dict_get "tasks.txt" (files w)) as [text|] eqn:F.
  - destruct (load_tasks_present faults w text F)
      as (tasks' & warnings & E & S' & _).
    rewrite E in L. injection L as <- <-. split; [exact S'|].
    unfold dict_mem. cbn [files]. now rewrite F.
  - pose proof (load_tasks_missing faults w F) as M.
    destruct (faults "tasks.txt").
    + destruct M as [w2 M]. rewrite M in L. discriminate.
    + rewrite M in L. injection L as <- <-. split; [reflexivity|].
      unfold dict_mem. cbn [files]. now rewrite dict_get_set_same.
Qed.

Lemma display_task_frame (t : task) (w : world) :
  exists out,
    display_task t w
    = (Ok (Z.of_nat (max_len (task_lines t) + 4)),
       mk_world (files w) (stdout w ++ out)%list (opened_w w)).
Proof.
  eexists. unfold display_task, io_bind. cbn [print].
  rewrite print_rows. cbn [files stdout opened_w ret].
  rewrite <- !app_assoc. reflexivity.
Qed.

Lemma show_numbered_from (tasks : list task) :
  forall i w,
    exists out,
      io_for_each
        (fun idx task =>
           io_bind (print (LF ++ "Task " ++ str_int idx ++ ":"))
             (fun _ => io_bind (display_task task) (fun _ => ret (idx + 1))))
        tasks i w
      = (Ok (i + len tasks),
         mk_world (files w) (stdout w ++ out)%list (opened_w w)).
Proof.
  induction tasks as [|t tasks IH]; intros i w.
  - exists []. cbn. rewrite app_nil_r, Z.add_0_r. now destruct w.
  - cbn [io_for_each]. unfold io_bind at 1 2 3. cbn [print].
    match goal with |- context [display_task t ?w1] =>
      destruct (display_task_frame t w1) as (o1 & E1) end.
    rewrite E1. cbn [ret files stdout opened_w].
    match goal with |- context [io_for_each _ tasks _ ?w1] =>
      destruct (IH (i + 1) w1) as (o2 & E2) end.
    rewrite E2. cbn [files stdout opened_w].
    eexists. rewrite <- !app_assoc. f_equal.
    f_equal. unfold len. cbn [List.length]. lia.
Qed.

Lemma show_numbered_frame (tasks : list task) (w : world) :
  exists out,
    show_numbered tasks w
    = (Ok (1 + len tasks),
       mk_world (files w) (stdout w ++ out)%list (opened_w w)).
Proof. apply show_numbered_from. Qed.

Lemma py_index_place {A : Type} (l : list A) (i : Z) :
  0 <= i < len l ->
  exists x, py_index l i = Some x /\ nth_error l (Z.to_nat i) = Some x.
Proof.
  intros H. unfold py_index.
  destruct (Z.leb_spec 0 i); [|lia]. destruct (Z.ltb_spec i (len l)); [|lia].
  cbn [andb].
  destruct (nth_error l (Z.to_nat i)) eqn:E; [eauto|].
  apply nth_error_None in E. unfold len in H. lia.
Qed.

Lemma forallb_remove_at {A : Type} (p : A -> bool) (l : list A) :
  forall i, forallb p l = true -> forallb p (remove_at i l) = true.
Proof.
  induction l as [|x l IH]; intros i H; [now destruct i|].
  cbn [forallb] in H. apply andb_true_iff in H. destruct H as [H1 H2].
  destruct i as [|i]; cbn [remove_at forallb]; [exact H2|].
  now rewrite H1, IH.
Qed.

Lemma forallb_update_at {A : Type} (p : A -> bool) (f : A -> A) (l : list A) :
  (forall x, p x = true -> p (f x) = true) ->
  forall i, forallb p l = true -> forallb p (update_at i f l) = true.
Proof.
  intros Hf. induction l as [|x l IH]; intros i H; [now destruct i|].
  cbn [forallb] in H. apply andb_true_iff in H. destruct H as [H1 H2].
  destruct i as [|i]; cbn [update_at forallb].
  - now rewrite Hf, H2.
  - now rewrite H1, IH.
Qed.

Lemma remove_at_split {A : Type} (l : list A) :
  forall i x,
    nth_error l i = Some x ->
    exists before after,
      l = (before ++ x :: after)%list
      /\ List.length before = i
      /\ remove_at i l = (before ++ after)%list.
Proof.
  induction l as [|y l IH]; intros [|i] x H; try discriminate.
  - injection H as ->. now exists [], l.
  - cbn [nth_error] in H.
    destruct (IH i x H) as (before & after & E1 & E2 & E3).
    exists (y :: before), after. cbn [remove_at app List.length].
    now rewrite <- E1, E2, E3.
Qed.

(** X16. When [tasks.txt] can be written and the line typed is the number
    of a task in the list shown, [delete_task] reads just that line,
    rewrites the file without that task, and [load_tasks] then returns the
    loaded tasks without it, in the same order and without a warning; no
    other file changes. *)
Theorem delete_task_removes_chosen
    (faults : string -> option nat) (max_str_digits : nat)
    (w w0 : world) (tasks : list task) (line : string) (rest : list string)
    (k : Z)
    (HL : load_tasks faults w = (Ok tasks, w0))
    (HF : faults "tasks.txt" = None)
    (HI : py_int max_str_digits line = Ok k)
    (HK : 1 <= k <= len tasks) :
  exists w',
    delete_task faults max_str_digits (line :: rest) w = (Done tt, rest, w')
    /\ load_tasks faults w'
       = (Ok (remove_at (Z.to_nat (k - 1)) tasks), w')
    /\ (exists before deleted_task after,
          tasks = (before ++ deleted_task :: after)%list
          /\ len before = k - 1
          /\ remove_at (Z.to_nat (k - 1)) tasks = (before ++ after)%list)
    /\ forall name,
        name <> "tasks.txt" ->
        dict_get name (files w') = dict_get name (files w0).
Proof.
  destruct (load_tasks_result faults w w0 tasks HL) as [S _].
  unfold delete_task, say, tty_try, tty_bind, run, input, tty_ret, lift,
    print.
  rewrite HL. cbv beta iota.
  destruct tasks as [|t0 tasks0] eqn:ET; [cbn in HK; lia|]. rewrite <- ET in *.
  assert (N : is_nil tasks = false) by now rewrite ET. rewrite N.
  match goal with |- context [show_numbered tasks ?w1] =>
    destruct (show_numbered_frame tasks w1) as (out & E) end.
  rewrite E, HI. cbv beta iota.
  destruct (Z.eqb_spec k 0) as [K0|_]; [lia|].
  assert (R : (1 <=? k) && (k <=? len tasks) = true).
  { apply andb_true_iff. split; apply Z.leb_le; lia. }
  rewrite R.
  destruct (py_index_place tasks (k - 1) ltac:(lia)) as (x & P & Nth).
  rewrite P. unfold save_tasks.
  rewrite write_file_ok by exact HF. cbv beta iota.
  eexists. split; [reflexivity|].
  pose proof (forallb_remove_at storable tasks (Z.to_nat (k - 1)) S) as S'.
  split; [|split].
  - apply load_tasks_stored; [|exact S'].
    cbn [files]. apply dict_get_set_same.
  - destruct (remove_at_split tasks (Z.to_nat (k - 1)) x Nth)
      as (before & after & E1 & E2 & E3).
    exists before, x, after. split; [exact E1|]. split; [|exact E3].
    unfold len. rewrite E2. lia.
  - intros name Hn. cbn [files stdout opened_w].
    now apply dict_get_set_other.
Qed.

Lemma delete_task_removes_chosen_witness :
  exists w',
    delete_task (fun _ => None) 4300 [" 2 "; "next"]
      (mk_world [("tasks.txt",
                  "a, t1, d, 2025-01-01, 2025-02-01, No" ++ LF
                  ++ "b, t2, d, 2025-01-01, 2025-02-01, No" ++ LF
                  ++ "c, t3, d, 2025-01-01, 2025-02-01, Yes" ++ LF)] [] [])
    = (Done tt, ["next"], w')
    /\ load_tasks (fun _ => None) w'
       = (Ok (remove_at (Z.to_nat (2 - 1))
                [mk_task "a" "t1" "d" "2025-01-01" "2025-02-01" "No";
                 mk_task "b" "t2" "d" "2025-01-01" "2025-02-01" "No";
                 mk_task "c" "t3" "d" "2025-01-01" "2025-02-01" "Yes"]), w')
    /\ (exists before deleted_task after,
          [mk_task "a" "t1" "d" "2025-01-01" "2025-02-01" "No";
           mk_task "b" "t2" "d" "2025-01-01" "2025-02-01" "No";
           mk_task "c" "t3" "d" "2025-01-01" "2025-02-01" "Yes"]
          = (before ++ deleted_task :: after)%list
          /\ len before = 2 - 1
          /\ remove_at (Z.to_nat (2 - 1))
               [mk_task "a" "t1" "d" "2025-01-01" "2025-02-01" "No";
                mk_task "b" "t2" "d" "2025-01-01" "2025-02-01" "No";
                mk_task "c" "t3" "d" "2025-01-01" "2025-02-01" "Yes"]
             = (before ++ after)%list)
    /\ forall name,
        name <> "tasks.txt" ->
        dict_get name (files w')
        = dict_get name
            (files
               (mk_world
                  [("tasks.txt",
                    "a, t1, d, 2025-01-01, 2025-02-01, No" ++ LF
                    ++ "b, t2, d, 2025-01-01, 2025-02-01, No" ++ LF
                    ++ "c, t3, d, 2025-01-01, 2025-02-01, Yes" ++ LF)]
                  [] [])).
Proof.
  apply (delete_task_removes_chosen (fun _ => None) 4300
           (mk_world [("tasks.txt",
                       "a, t1, d, 2025-01-01, 2025-02-01, No" ++ LF
                       ++ "b, t2, d, 2025-01-01, 2025-02-01, No" ++ LF
                       ++ "c, t3, d, 2025-01-01, 2025-02-01, Yes" ++ LF)]
              [] [])
           (mk_world [("tasks.txt",
                       "a, t1, d, 2025-01-01, 2025-02-01, No" ++ LF
                       ++ "b, t2, d, 2025-01-01, 2025-02-01, No" ++ LF
                       ++ "c, t3, d, 2025-01-01, 2025-02-01, Yes" ++ LF)]
              [] [])
           [mk_task "a" "t1" "d" "2025-01-01" "2025-02-01" "No";
            mk_task "b" "t2" "d" "2025-01-01" "2025-02-01" "No";
            mk_task "c" "t3" "d" "2025-01-01" "2025-02-01" "Yes"]
           " 2 " ["next"] 2).
  - reflexivity.
  - reflexivity.
  - reflexivity.
  - cbn. lia.
Defined.

(** X17. [delete_task] writes nothing unless the line typed is the number
    of a task in the list: with no line, a line that is not a number, 0 or
    a number out of range, no file changes and none is opened for writing
    once the tasks are loaded, and the call returns, or stops with
    [EOFError] when there are tasks and nothing to read. *)
Theorem delete_task_writes_only_on_valid_number
    (faults : string -> option nat) (max_str_digits : nat)
    (w w0 : world) (tasks : list task) (ins : list string)
    (HL : load_tasks faults w = (Ok tasks, w0))
    (HN : forall line rest k,
        ins = line :: rest -> py_int max_str_digits line = Ok k ->
        ~ 1 <= k <= len tasks) :
  exists o ins' out,
    delete_task faults max_str_digits ins w
    = (o, ins', mk_world (files w0) (stdout w0 ++ out)%list (opened_w w0))
    /\ (o = Done tt
        \/ (o = Halt EOFError /\ ins = [] /\ tasks <> [])).
Proof.
  unfold delete_task, say, tty_try, tty_bind, run, input, tty_ret, lift,
    print.
  rewrite HL. cbv beta iota.
  destruct tasks as [|t0 tasks0] eqn:ET.
  { cbn [is_nil]. eexists _, _, [_]. split; [reflexivity|]. now left. }
  rewrite <- ET in *.
  assert (N : is_nil tasks = false) by now rewrite ET. rewrite N.
  match goal with |- context [show_numbered tasks ?w1] =>
    destruct (show_numbered_frame tasks w1) as (out & E) end.
  rewrite E. cbv beta iota. cbn [files stdout opened_w].
  destruct ins as [|line rest].
  { cbn [files stdout opened_w]. eexists _, _, _. rewrite <- ?app_assoc.
      split; [reflexivity|].
    right. rewrite ET. repeat split; discriminate. }
  destruct (py_int_cases max_str_digits line) as [[k P]|P]; rewrite P;
    cbv beta iota.
  - destruct (k =? 0).
    { cbn [files stdout opened_w]. eexists _, _, _. rewrite <- ?app_assoc.
      split; [reflexivity|]. now left. }
    destruct ((1 <=? k) && (k <=? len tasks)) eqn:R.
    { exfalso. apply (HN line rest k eq_refl P).
      apply andb_true_iff in R. destruct R as [R1 R2].
      apply Z.leb_le in R1, R2. lia. }
    cbn [files stdout opened_w]. eexists _, _, _. rewrite <- ?app_assoc.
      split; [reflexivity|]. now left.
  - cbn [is_a].
    cbn [files stdout opened_w]. eexists _, _, _. rewrite <- ?app_assoc.
      split; [reflexivity|]. now left.
Qed.

Lemma delete_task_writes_only_on_valid_number_witness :
  exists o ins' out,
    delete_task (fun _ => None) 4300 ["3"; "1"]
      (mk_world [("tasks.txt",
                  "a, t1, d, 2025-01-01, 2025-02-01, No" ++ LF
                  ++ "b, t2, d, 2025-01-01, 2025-02-01, No" ++ LF)] [] [])
    = (o, ins',
       mk_world
         (files
            (mk_world [("tasks.txt",
                        "a, t1, d, 2025-01-01, 2025-02-01, No" ++ LF
                        ++ "b, t2, d, 2025-01-01, 2025-02-01, No" ++ LF)]
               [] []))
         ([] ++ out)%list [])
    /\ (o = Done tt
        \/ (o = Halt EOFError /\ ["3"; "1"] = []
            /\ [mk_task "a" "t1" "d" "2025-01-01" "2025-02-01" "No";
                mk_task "b" "t2" "d" "2025-01-01" "2025-02-01" "No"] <> [])).
Proof.
  apply (delete_task_writes_only_on_valid_number (fun _ => None) 4300
           (mk_world [("tasks.txt",
                       "a, t1, d, 2025-01-01, 2025-02-01, No" ++ LF
                       ++ "b, t2, d, 2025-01-01, 2025-02-01, No" ++ LF)]
              [] [])
           (mk_world [("tasks.txt",
                       "a, t1, d, 2025-01-01, 2025-02-01, No" ++ LF
                       ++ "b, t2, d, 2025-01-01, 2025-02-01, No" ++ LF)]
              [] [])
           [mk_task "a" "t1" "d" "2025-01-01" "2025-02-01" "No";
            mk_task "b" "t2" "d" "2025-01-01" "2025-02-01" "No"]
           ["3"; "1"]).
  - reflexivity.
  - intros line rest k [= <- <-] P. vm_compute in P. injection P as <-.
    cbn. lia.
Defined.

Lemma login_round_pair (users : dict string) (l1 l2 : string)
    (rest : list string) (w : world) :
  exists line,
    login_round users (l1 :: l2 :: rest) w
    = (Done (if opens users (l1, l2) then Some (strip l1) else None), rest,
       mk_world (files w)
         (stdout w ++ ["Enter your username: "; "Enter your password: "; line])
         (opened_w w)).
Proof.
  unfold login_round, input_strip, say, tty_bind, input, tty_ret, run, print.
  cbv beta iota. unfold opens. cbn [fst snd files stdout opened_w].
  destruct (dict_get (strip l1) users) as [stored|].
  - destruct (stored =? strip l2)%string; cbn [negb];
      cbn [files stdout opened_w]; rewrite <- !app_assoc; eexists;
      reflexivity.
  - cbn [files stdout opened_w]. rewrite <- !app_assoc. eexists. reflexivity.
Qed.

(** The loop of [login]: it reads pairs of lines up to the first pair that
    names an account and its password. *)
Lemma login_loop_cases (users : dict string) (rounds : nat) :
  forall ins w,
    exists failed ins' o out,
      while_true rounds (login_round users) ins w
      = (o, ins', mk_world (files w) (stdout w ++ out)%list (opened_w w))
      /\ existsb (opens users) failed = false
      /\ match o with
         | Done u =>
             exists l1 l2,
               ins = (typed failed ++ l1 :: l2 :: ins')%list
               /\ u = strip l1
               /\ dict_get u users = Some (strip l2)
         | Halt h =>
             h = EOFError /\ ins' = []
             /\ (ins = typed failed
                 \/ exists l1, ins = (typed failed ++ [l1])%list)
         | Unfinished =>
             ins = (typed failed ++ ins')%list
             /\ List.length failed = rounds
         end.
Proof.
  induction rounds as [|rounds IH]; intros ins w.
  - exists [], ins, Unfinished, []. cbn. rewrite app_nil_r. now destruct w.
  - cbn [while_true]. unfold tty_bind at 1.
    destruct ins as [|l1 [|l2 rest]].
    + exists [], [], (Halt EOFError), ["Enter your username: "].
      cbn. repeat split. now left.
    + exists [], [], (Halt EOFError),
        ["Enter your username: "; "Enter your password: "].
      unfold login_round, input_strip, tty_bind, input, tty_ret.
      cbv beta iota. cbn [files stdout opened_w]. rewrite <- !app_assoc.
      split; [reflexivity|]. split; [reflexivity|].
      repeat split. right. now exists l1.
    + destruct (login_round_pair users l1 l2 rest w) as (line & R).
      rewrite R. destruct (opens users (l1, l2)) eqn:O.
      * exists [], rest, (Done (strip l1)).
        eexists. cbn [tty_ret]. split; [reflexivity|].
        split; [reflexivity|]. exists l1, l2. split; [reflexivity|].
        split; [reflexivity|]. unfold opens in O. cbn [fst snd] in O.
        destruct (dict_get (strip l1) users) as [stored|]; [|discriminate].
        apply String.eqb_eq in O. now subst.
      * match goal with |- context [while_true rounds _ rest ?w1] =>
          destruct (IH rest w1) as (failed & ins' & o & out & E & F & C) end.
        rewrite E. cbn [files stdout opened_w]. rewrite <- app_assoc.
        exists ((l1, l2) :: failed), ins', o. eexists.
        split; [reflexivity|]. cbn [existsb]. rewrite O, F.
        split; [reflexivity|]. cbn [typed flat_map fst snd app].
        fold (typed failed).
        destruct o as [u|h|].
        -- destruct C as (a & b & C1 & C2). exists a, b. now rewrite C1.
        -- destruct C as (C1 & C2 & [C3|[a C3]]); rewrite C3;
             repeat split; auto. right. now exists a.
        -- destruct C as [C1 C2]. rewrite <- C1, <- C2. auto.
Qed.

(** X18. Once the accounts are loaded, [login] changes no file and reads
    the input in pairs of lines: it returns the username of the first pair
    that, stripped, names an account and its password, every pair before
    having been refused; it stops with [EOFError] when the input ends
    first, and no other exception arises. *)
Theorem login_outcome
    (faults : string -> option nat) (rounds : nat) (ins : list string)
    (w w0 : world) (users : dict string)
    (HL : load_users faults w = (Ok users, w0)) :
  exists failed ins' o out,
    login faults rounds ins w
    = (o, ins', mk_world (files w0) (stdout w0 ++ out)%list (opened_w w0))
    /\ existsb (opens users) failed = false
    /\ match o with
       | Done u =>
           exists l1 l2,
             ins = (typed failed ++ l1 :: l2 :: ins')%list
             /\ u = strip l1
             /\ dict_get u users = Some (strip l2)
       | Halt h =>
           h = EOFError /\ ins' = []
           /\ (ins = typed failed
               \/ exists l1, ins = (typed failed ++ [l1])%list)
       | Unfinished =>
           ins = (typed failed ++ ins')%list
           /\ List.length failed = rounds
       end.
Proof.
  unfold login, say. unfold tty_bind at 1 2. unfold run at 1.
  rewrite HL. unfold run, print. cbv beta iota.
  match goal with |- context [while_true rounds _ ins ?w1] =>
    destruct (login_loop_cases users rounds ins w1)
      as (failed & ins' & o & out & E & F & C) end.
  rewrite E. cbn [files stdout opened_w]. rewrite <- app_assoc.
  exists failed, ins', o. eexists. split; [reflexivity|]. auto.
Qed.

Lemma login_outcome_witness :
  exists failed ins' o out,
    login (fun _ => None) 5 ["bob"; "x"; " bob "; "b2 "; "more"]
      (mk_world [("user.txt", "admin, adm1n" ++ LF ++ "bob, b2" ++ LF)] [] [])
    = (o, ins',
       mk_world
         (files (mk_world
                   [("user.txt", "admin, adm1n" ++ LF ++ "bob, b2" ++ LF)]
                   [] []))
         ([] ++ out)%list [])
    /\ existsb (opens [("admin", "adm1n"); ("bob", "b2")]) failed = false
    /\ match o with
       | Done u =>
           exists l1 l2,
             ["bob"; "x"; " bob "; "b2 "; "more"]
             = (typed failed ++ l1 :: l2 :: ins')%list
             /\ u = strip l1
             /\ dict_get u [("admin", "adm1n"); ("bob", "b2")]
                = Some (strip l2)
       | Halt h =>
           h = EOFError /\ ins' = []
           /\ (["bob"; "x"; " bob "; "b2 "; "more"] = typed failed
               \/ exists l1,
                   ["bob"; "x"; " bob "; "b2 "; "more"]
                   = (typed failed ++ [l1])%list)
       | Unfinished =>
           ["bob"; "x"; " bob "; "b2 "; "more"] = (typed failed ++ ins')%list
           /\ List.length failed = 5%nat
       end.
Proof.
  apply (login_outcome (fun _ => None) 5 ["bob"; "x"; " bob "; "b2 "; "more"]
           (mk_world [("user.txt", "admin, adm1n" ++ LF ++ "bob, b2" ++ LF)]
              [] [])
           (mk_world [("user.txt", "admin, adm1n" ++ LF ++ "bob, b2" ++ LF)]
              [] [])
           [("admin", "adm1n"); ("bob", "b2")]).
  reflexivity.
Defined.

Lemma login_loop_accepts (users : dict string) (l1 l2 : string)
    (rest : list string) (failed : list (string * string)) :
  existsb (opens users) failed = false ->
  opens users (l1, l2) = true ->
  forall rounds w,
    (List.length failed < rounds)%nat ->
    exists out,
      while_true rounds (login_round users)
        (typed failed ++ l1 :: l2 :: rest)%list w
      = (Done (strip l1), rest,
         mk_world (files w) (stdout w ++ out)%list (opened_w w))
      /\ List.length out = (3 * List.length failed + 3)%nat.
Proof.
  intros HF HO.
  induction failed as [|[a b] failed IH]; intros rounds w1 HR.
  - destruct rounds as [|rounds]; [cbn in HR; lia|].
    cbn [typed flat_map app while_true]. unfold tty_bind at 1.
    destruct (login_round_pair users l1 l2 rest w1) as (line & R).
    rewrite R, HO. eexists. cbn [tty_ret]. split; reflexivity.
  - destruct rounds as [|rounds]; [cbn in HR; lia|].
    cbn [existsb] in HF. apply orb_false_iff in HF. destruct HF as [Ha Hf].
    cbn [typed flat_map app fst snd while_true]. fold (typed failed).
    unfold tty_bind at 1.
    match goal with |- context [login_round users (a :: b :: ?r) w1] =>
      destruct (login_round_pair users a b r w1) as (line & R) end.
    rewrite R, Ha.
    match goal with |- context [while_true rounds _ _ ?w2] =>
      destruct (IH Hf rounds w2 ltac:(cbn in HR; lia)) as (out & E & L) end.
    rewrite E. cbn [files stdout opened_w]. rewrite <- app_assoc.
    eexists. split; [reflexivity|]. cbn [app List.length]. lia.
Qed.

(** X19. With rounds to spare, [login] returns the stripped username of
    the first pair of lines that names an account and its password, and
    leaves the lines after that pair unread. *)
Theorem login_accepts_first_matching_pair
    (faults : string -> option nat) (rounds : nat) (w w0 : world)
    (users : dict string) (failed : list (string * string))
    (l1 l2 : string) (rest : list string)
    (HL : load_users faults w = (Ok users, w0))
    (HF : existsb (opens users) failed = false)
    (HO : opens users (l1, l2) = true)
    (HR : (List.length failed < rounds)%nat) :
  exists out,
    login faults rounds (typed failed ++ l1 :: l2 :: rest)%list w
    = (Done (strip l1), rest,
       mk_world (files w0) (stdout w0 ++ out)%list (opened_w w0))
    /\ List.length out = (3 * List.length failed + 4)%nat.
Proof.
  unfold login, say. unfold tty_bind at 1 2. unfold run at 1.
  rewrite HL. unfold run, print. cbv beta iota.
  match goal with |- context [while_true rounds _ _ ?w1] =>
    destruct (login_loop_accepts users l1 l2 rest failed HF HO rounds w1 HR)
      as (out & E & L) end.
  rewrite E.
  exists ("Welcome to the Task Manager. Please log in." :: out).
  cbn [files stdout opened_w]. rewrite <- app_assoc.
  split; [reflexivity|]. cbn [List.length]. lia.
Qed.

Lemma login_accepts_first_matching_pair_witness :
  exists out,
    login (fun _ => None) 2 (typed [("bob", "x")] ++ " bob " :: "b2 " :: ["m"])%list
      (mk_world [("user.txt", "admin, adm1n" ++ LF ++ "bob, b2" ++ LF)] [] [])
    = (Done (strip " bob "), ["m"],
       mk_world
         (files (mk_world
                   [("user.txt", "admin, adm1n" ++ LF ++ "bob, b2" ++ LF)]
                   [] []))
         ([] ++ out)%list [])
    /\ List.length out = (3 * List.length [("bob", "x")] + 4)%nat.
Proof.
  apply (login_accepts_first_matching_pair (fun _ => None) 2
           (mk_world [("user.txt", "admin, adm1n" ++ LF ++ "bob, b2" ++ LF)]
              [] [])
           (mk_world [("user.txt", "admin, adm1n" ++ LF ++ "bob, b2" ++ LF)]
              [] [])
           [("admin", "adm1n"); ("bob", "b2")] [("bob", "x")] " bob " "b2 "
           ["m"]); try reflexivity.
  cbn. lia.
Defined.

Lemma load_users_of_file (faults : string -> option nat) (raw : string) :
  exists users warnings,
    forall v,
      dict_get "user.txt" (files v) = Some raw ->
      load_users faults v
      = (Ok users,
         mk_world (files v) (stdout v ++ warnings)%list (opened_w v)).
Proof.
  destruct (read_user_lines_uniform (file_lines raw) [])
    as (users & warnings & E).
  exists users, warnings. intros v F.
  unfold load_users, try_except, io_bind, read_lines. now rewrite F, E.
Qed.

Lemma storable_user_stripped (l1 l2 : string) :
  plain (strip l1) = true ->
  plain (strip l2) = true ->
  is_empty (strip l2) = false ->
  storable_user (strip l1) (strip l2) = true.
Proof.
  intros P1 P2 E. unfold storable_user.
  rewrite P1, P2, strip_start. cbn [andb negb].
  unfold strip in *. now apply rstrip_solid.
Qed.

Lemma dict_set_new {V : Type} (k : string) (v : V) (d : dict V) :
  dict_mem k d = false -> dict_set k v d = (d ++ [(k, v)])%list.
Proof.
  unfold dict_mem. induction d as [|[k' v'] d IH]; [reflexivity|].
  cbn [dict_get dict_set app]. destruct (k' =? k)%string; [discriminate|].
  intros H. now rewrite IH.
Qed.

(** X20. On a [user.txt] that is empty or ends with a line break and can
    be written, [reg_user] given a new non-blank name and the same
    password twice, both free of the separator and of line breaks and the
    password not blank, appends the account; [load_users] then returns the
    accounts as before followed by the new one, and [login] accepts the
    name and password as they were typed. *)
Theorem registered_user_can_log_in
    (faults : string -> option nat) (bom : string) (rounds : nat)
    (w w0 : world) (raw : string) (users : dict string)
    (l1 l2 l3 : string) (rest : list string)
    (HF : dict_get "user.txt" (files w) = Some raw)
    (HT : tidy raw = true)
    (HN : faults "user.txt" = None)
    (HL : load_users faults w = (Ok users, w0))
    (H1 : is_empty (strip l1) = false)
    (H2 : dict_mem (strip l1) users = false)
    (H3 : strip l3 = strip l2)
    (H4 : plain (strip l1) = true)
    (H5 : plain (strip l2) = true)
    (H6 : is_empty (strip l2) = false)
    (HR : (0 < rounds)%nat) :
  exists w1,
    reg_user faults bom rounds (l1 :: l2 :: l3 :: rest) w = (Done tt, rest, w1)
    /\ dict_get "user.txt" (files w1)
       = Some (raw ++ strip l1 ++ ", " ++ strip l2 ++ LF)
    /\ (exists w2,
          load_users faults w1
          = (Ok (users ++ [(strip l1, strip l2)])%list, w2))
    /\ exists out,
        login faults rounds (l1 :: l2 :: rest) w1
        = (Done (strip l1), rest,
           mk_world (files w1) (stdout w1 ++ out)%list (opened_w w1)).
Proof.
  destruct (load_users_of_file faults raw) as (U & W & E).
  rewrite (E w HF) in HL. injection HL as <- <-.
  pose proof (storable_user_stripped l1 l2 H4 H5 H6) as St.
  destruct rounds as [|rounds]; [lia|].
  unfold reg_user. unfold tty_bind at 1. unfold run at 1.
  rewrite (E w HF). cbn [while_true]. unfold tty_bind at 1.
  unfold reg_user_round, input_strip, say.
  unfold tty_bind, input, tty_ret, run, print. cbv beta iota.
  rewrite H1, H2, H3, String.eqb_refl. cbn [negb].
  cbn [files stdout opened_w]. rewrite <- !app_assoc. cbn [app].
  match goal with |- context [save_user faults bom _ _ ?v] =>
    assert (Fv : dict_get "user.txt" (files v) = Some raw) by exact HF;
    destruct (save_user_reload faults bom v _ raw (strip l1) (strip l2) U
                Fv HT HN St (E v Fv))
      as (w1 & w2 & Sv & F1 & O1 & L1 & _)
  end.
  rewrite Sv. cbv beta iota. eexists. split; [reflexivity|]. cbn [files].
  split; [exact F1|].
  destruct (load_users_of_file faults
              (raw ++ strip l1 ++ ", " ++ strip l2 ++ LF))
    as (U' & W' & E').
  assert (EU : U' = dict_set (strip l1) (strip l2) U).
  { rewrite (E' w1 F1) in L1. now injection L1. }
  subst U'. split.
  - eexists. rewrite E' by exact F1. now rewrite dict_set_new by exact H2.
  - unfold login, say. unfold tty_bind at 1 2. unfold run at 1.
    rewrite E' by exact F1. unfold run, print. cbv beta iota.
    assert (O : opens (dict_set (strip l1) (strip l2) U) (l1, l2) = true).
    { unfold opens. cbn [fst snd]. rewrite dict_get_set_same.
      apply String.eqb_refl. }
    cbn [files stdout opened_w].
    match goal with |- context [while_true _ _ _ ?v] =>
      destruct (login_loop_accepts _ l1 l2 rest [] eq_refl O (S rounds) v
                  ltac:(cbn; lia)) as (out & R & _)
    end.
    cbn [typed flat_map app] in R. rewrite R.
    cbn [files stdout opened_w].
    exists (W' ++ ["Welcome to the Task Manager. Please log in."] ++ out)%list.
    now rewrite <- !app_assoc.
Qed.

Lemma registered_user_can_log_in_witness :
  exists w1,
    reg_user (fun _ => None) "?" 1 [" carol"; "c3 "; "c3"; "e"]
      (mk_world [("user.txt", "admin, adm1n" ++ LF)] [] [])
    = (Done tt, ["e"], w1)
    /\ dict_get "user.txt" (files w1)
       = Some (("admin, adm1n" ++ LF) ++ strip " carol" ++ ", " ++ strip "c3 "
               ++ LF)
    /\ (exists w2,
          load_users (fun _ => None) w1
          = (Ok ([("admin", "adm1n")] ++ [(strip " carol", strip "c3 ")])%list,
             w2))
    /\ exists out,
        login (fun _ => None) 1 [" carol"; "c3 "; "e"] w1
        = (Done (strip " carol"), ["e"],
           mk_world (files w1) (stdout w1 ++ out)%list (opened_w w1)).
Proof.
  apply (registered_user_can_log_in (fun _ => None) "?" 1
           (mk_world [("user.txt", "admin, adm1n" ++ LF)] [] [])
           (mk_world [("user.txt", "admin, adm1n" ++ LF)] [] [])
           ("admin, adm1n" ++ LF) [("admin", "adm1n")]
           " carol" "c3 " "c3" ["e"]); try reflexivity.
  lia.
Defined.

Lemma printed_printed (w : world) (a b : list string) :
  printed (printed w a) b = printed w (a ++ b)%list.
Proof. unfold printed. cbn [files stdout opened_w]. now rewrite app_assoc. Qed.

(** The loop of [reg_user]: it writes nothing, or it ends with the one
    [save_user] of a new, non-blank name whose password was typed twice. *)
Lemma reg_user_loop_cases (faults : string -> option nat) (bom : string)
    (users : dict string) (rounds : nat) :
  forall ins w,
    exists o ins' w',
      while_true rounds (reg_user_round faults bom users) ins w
      = (o, ins', w')
      /\ ((exists out used,
             w' = printed w out /\ ins = (used ++ ins')%list
             /\ (o = Done tt \/ (o = Halt EOFError /\ ins' = [])
                 \/ (o = Unfinished /\ (rounds <= List.length used)%nat)))
          \/ (exists before l1 l2 l3 out r v,
                ins = (before ++ l1 :: l2 :: l3 :: ins')%list
                /\ is_empty (strip l1) = false
                /\ dict_mem (strip l1) users = false
                /\ strip l2 = strip l3
                /\ save_user faults bom (strip l1) (strip l2) (printed w out)
                   = (r, v)
                /\ match r with
                   | Ok _ =>
                       o = Done tt
                       /\ w' = printed v
                                 ["User '" ++ strip l1
                                  ++ "' registered successfully."]
                   | Raise e => o = Halt (Exn e) /\ w' = v
                   end)).
Proof.
  induction rounds as [|rounds IH]; intros ins w.
  - exists Unfinished, ins, w. split; [reflexivity|]. left.
    exists [], []. unfold printed. rewrite app_nil_r.
    split; [now destruct w|]. split; [reflexivity|]. right. right.
    split; [reflexivity|cbn; lia].
  - cbn [while_true]. unfold tty_bind at 1.
    set (loop := while_true rounds (reg_user_round faults bom users)) in *.
    unfold reg_user_round, input_strip, say.
    unfold tty_bind, input, tty_ret, run, print. cbv beta iota.
    destruct ins as [|l1 ins].
    { eexists _, _, _. split; [reflexivity|]. left.
      exists ["Enter new username (blank to cancel): "], [].
      split; [reflexivity|]. split; [reflexivity|]. right. left. auto. }
    destruct (is_empty (strip l1)) eqn:E1.
    { cbn [files stdout opened_w]. rewrite <- app_assoc.
      eexists _, _, _. split; [reflexivity|]. left.
      eexists _, [l1]. split; [reflexivity|]. split; [reflexivity|].
      now left. }
    destruct (dict_mem (strip l1) users) eqn:E2.
    { cbn [files stdout opened_w]. rewrite <- app_assoc. cbn [app].
      match goal with |- context [loop ins ?w1] =>
        destruct (IH ins w1) as (o & ins' & w' & R & C) end.
      rewrite R. exists o, ins', w'. split; [reflexivity|].
      match type of R with context [loop _ ?w1] =>
        change w1 with
          (printed w ["Enter new username (blank to cancel): ";
                      "Username '" ++ strip l1
                      ++ "' already exists. Try another."]) in C end.
      destruct C as [(out & used & C1 & C2 & C3)
                    |(before & a & b & c & out & r & v & C1 & C)].
      - left. eexists _, (l1 :: used). rewrite C1.
        rewrite printed_printed. split; [reflexivity|].
        split; [now rewrite C2|].
        destruct C3 as [C3|[C3|[C3 C4]]]; auto.
        right. right. split; [exact C3|cbn; lia].
      - right. exists (l1 :: before), a, b, c. eexists _, r, v.
        split; [now rewrite C1|].
        rewrite printed_printed in C. exact C. }
    destruct ins as [|l2 ins].
    { cbn [files stdout opened_w]. rewrite <- app_assoc.
      eexists _, _, _. split; [reflexivity|]. left.
      eexists _, [l1]. split; [reflexivity|]. split; [reflexivity|].
      right. left. auto. }
    destruct ins as [|l3 ins].
    { cbn [files stdout opened_w]. rewrite <- !app_assoc.
      eexists _, _, _. split; [reflexivity|]. left.
      eexists _, [l1; l2]. split; [reflexivity|]. split; [reflexivity|].
      right. left. auto. }
    cbn [files stdout opened_w]. rewrite <- !app_assoc. cbn [app].
    destruct (strip l2 =? strip l3)%string eqn:E3; cbn [negb].
    + apply String.eqb_eq in E3.
      match goal with |- context [save_user faults bom _ _ ?w1] =>
        destruct (save_user faults bom (strip l1) (strip l2) w1)
          as [[[]|e] v] eqn:Sv end.
      * eexists _, _, _. split; [reflexivity|]. right.
        exists [], l1, l2, l3. eexists _, _, _.
        split; [reflexivity|]. split; [exact E1|]. split; [exact E2|].
        split; [exact E3|]. split; [exact Sv|]. split; reflexivity.
      * eexists _, _, _. split; [reflexivity|]. right.
        exists [], l1, l2, l3. eexists _, _, _.
        split; [reflexivity|]. split; [exact E1|]. split; [exact E2|].
        split; [exact E3|]. split; [exact Sv|]. split; reflexivity.
    + cbn [files stdout opened_w]. rewrite <- !app_assoc. cbn [app].
      match goal with |- context [loop ins ?w1] =>
        destruct (IH ins w1) as (o & ins' & w' & R & C) end.
      rewrite R. exists o, ins', w'. split; [reflexivity|].
      match type of R with context [loop _ ?w1] =>
        change w1 with
          (printed w ["Enter new username (blank to cancel): ";
                      "Enter new password: "; "Confirm password: ";
                      "Passwords do not match. Try again."]) in C end.
      destruct C as [(out & used & C1 & C2 & C3)
                    |(before & a & b & c & out & r & v & C1 & C)].
      * left. eexists _, (l1 :: l2 :: l3 :: used). rewrite C1.
        rewrite printed_printed. split; [reflexivity|].
        split; [now rewrite C2|].
        destruct C3 as [C3|[C3|[C3 C4]]]; auto.
        right. right. split; [exact C3|cbn; lia].
      * right. exists (l1 :: l2 :: l3 :: before), a, b, c. eexists _, r, v.
        split; [now rewrite C1|].
        rewrite printed_printed in C. exact C.
Qed.

(** X21. Once the accounts are loaded, [reg_user] either changes no file
    (a blank name cancels; the input or the rounds may run out), or its
    last act is the one [save_user] of a name that is not blank and not
    among the loaded accounts, with a password that was typed twice the
    same; names already taken and passwords that differ are asked again. *)
Theorem reg_user_saves_one_new_account
    (faults : string -> option nat) (bom : string) (rounds : nat)
    (ins : list string) (w w0 : world) (users : dict string)
    (HL : load_users faults w = (Ok users, w0)) :
  exists o ins' w',
    reg_user faults bom rounds ins w = (o, ins', w')
    /\ ((files w' = files w0 /\ opened_w w' = opened_w w0
         /\ (o = Done tt \/ (o = Halt EOFError /\ ins' = [])
             \/ (o = Unfinished /\ (rounds <= List.length ins)%nat)))
        \/ (exists before l1 l2 l3 out r v,
              ins = (before ++ l1 :: l2 :: l3 :: ins')%list
              /\ is_empty (strip l1) = false
              /\ dict_mem (strip l1) users = false
              /\ strip l2 = strip l3
              /\ save_user faults bom (strip l1) (strip l2) (printed w0 out)
                 = (r, v)
              /\ match r with
                 | Ok _ =>
                     o = Done tt
                     /\ w' = printed v
                               ["User '" ++ strip l1
                                ++ "' registered successfully."]
                 | Raise e => o = Halt (Exn e) /\ w' = v
                 end)).
Proof.
  unfold reg_user. unfold tty_bind at 1. unfold run at 1. rewrite HL.
  destruct (reg_user_loop_cases faults bom users rounds ins w0)
    as (o & ins' & w' & R & C).
  rewrite R. exists o, ins', w'. split; [reflexivity|].
  destruct C as [(out & used & C1 & C2 & C3)|C]; [left|right; exact C].
  subst w'. cbn [printed files opened_w]. split; [reflexivity|].
  split; [reflexivity|].
  destruct C3 as [C3|[C3|[C3 C4]]]; auto.
  right. right. split; [exact C3|]. rewrite C2, length_app. lia.
Qed.

Lemma reg_user_saves_one_new_account_witness :
  exists o ins' w',
    reg_user (fun _ => None) "?" 3 ["admin"; "bob"; "b1"; "b2"; " "; "x"]
      (mk_world [("user.txt", "admin, adm1n" ++ LF)] [] []) = (o, ins', w')
    /\ ((files w'
         = files (mk_world [("user.txt", "admin, adm1n" ++ LF)] [] [])
         /\ opened_w w'
            = opened_w (mk_world [("user.txt", "admin, adm1n" ++ LF)] [] [])
         /\ (o = Done tt \/ (o = Halt EOFError /\ ins' = [])
             \/ (o = Unfinished
                 /\ (3 <= List.length
                            ["admin"; "bob"; "b1"; "b2"; " "; "x"])%nat)))
        \/ (exists before l1 l2 l3 out r v,
              ["admin"; "bob"; "b1"; "b2"; " "; "x"]
              = (before ++ l1 :: l2 :: l3 :: ins')%list
              /\ is_empty (strip l1) = false
              /\ dict_mem (strip l1) [("admin", "adm1n")] = false
              /\ strip l2 = strip l3
              /\ save_user (fun _ => None) "?" (strip l1) (strip l2)
                   (printed
                      (mk_world [("user.txt", "admin, adm1n" ++ LF)] [] [])
                      out)
                 = (r, v)
              /\ match r with
                 | Ok _ =>
                     o = Done tt
                     /\ w' = printed v
                               ["User '" ++ strip l1
                                ++ "' registered successfully."]
                 | Raise e => o = Halt (Exn e) /\ w' = v
                 end)).
Proof.
  apply (reg_user_saves_one_new_account (fun _ => None) "?" 3
           ["admin"; "bob"; "b1"; "b2"; " "; "x"]
           (mk_world [("user.txt", "admin, adm1n" ++ LF)] [] [])
           (mk_world [("user.txt", "admin, adm1n" ++ LF)] [] [])
           [("admin", "adm1n")]).
  reflexivity.
Defined.

Lemma task_eqb_eq (a b : task) : task_eqb a b = true <-> a = b.
Proof.
  unfold task_eqb. rewrite !andb_true_iff, !String.eqb_eq.
  destruct a, b. cbn. split.
  - intros [[[[[-> ->] ->] ->] ->] ->]. reflexivity.
  - intros [= -> -> -> -> -> ->]. auto 10.
Qed.

Lemma list_index_split (x : task) (l : list task) :
  In x l ->
  exists before after,
    list_index x l = Some (List.length before)
    /\ l = (before ++ x :: after)%list
    /\ ~ In x before.
Proof.
  induction l as [|y l IH]; intros I; [destruct I|].
  cbn [list_index]. destruct (task_eqb y x) eqn:E.
  - apply task_eqb_eq in E. subst y. exists [], l. auto.
  - assert (N : y <> x).
    { intros ->. assert (T : task_eqb x x = true) by now apply task_eqb_eq.
      congruence. }
    destruct I as [I|I]; [contradiction|].
    destruct (IH I) as (before & after & E1 & E2 & E3).
    exists (y :: before), after. rewrite E1, E2. cbn [List.length app].
    repeat split; auto. intros [H|H]; auto.
Qed.

Lemma update_at_split {A : Type} (f : A -> A) (before : list A) (x : A)
    (after : list A) :
  update_at (List.length before) f (before ++ x :: after)%list
  = (before ++ f x :: after)%list.
Proof.
  induction before as [|y before IH]; [reflexivity|].
  cbn [List.length app update_at]. now rewrite IH.
Qed.

Lemma get_valid_task_number_accepts (m frames : nat) (user_tasks : list task)
    (line : string) (rest : list string) (n : Z) (w : world) :
  accepted m user_tasks line = Some n ->
  (0 < frames)%nat ->
  get_valid_task_number m frames user_tasks (line :: rest) w
  = (Done n, rest, printed w ["Enter task number (-1 to main menu): "]).
Proof.
  intros HA HF. destruct frames as [|frames]; [lia|].
  cbn [get_valid_task_number]. unfold input_strip, say.
  unfold tty_try, tty_bind, input, tty_ret, run, lift, print.
  cbv beta iota. unfold accepted in HA.
  destruct (py_int m (strip line)) as [z|e]; [|discriminate].
  destruct (z =? -1) eqn:E1.
  - apply Z.eqb_eq in E1. subst z. cbn in HA. now injection HA as <-.
  - cbn [orb] in HA.
    destruct ((1 <=? z) && (z <=? len user_tasks)); [|discriminate].
    now injection HA as <-.
Qed.

Lemma accepted_range (m : nat) (user_tasks : list task) (line : string)
    (n : Z) :
  accepted m user_tasks line = Some n ->
  n = -1 \/ 1 <= n <= len user_tasks.
Proof.
  unfold accepted. destruct (py_int m (strip line)) as [z|e]; [|discriminate].
  destruct (z =? -1) eqn:E1.
  - apply Z.eqb_eq in E1. cbn. intros [= <-]. now left.
  - cbn [orb]. destruct ((1 <=? z) && (z <=? len user_tasks)) eqn:E2;
      [|discriminate].
    intros [= <-]. apply andb_true_iff in E2. destruct E2 as [A B].
    apply Z.leb_le in A, B. now right.
Qed.

Lemma storable_set_completed (t : task) :
  storable t = true -> storable (set_completed "Yes" t) = true.
Proof.
  unfold storable, set_completed.
  cbn [username title description assigned_date due_date completed].
  rewrite !andb_true_iff. intros [[[[[[[A B] C] D] E] F] G] H].
  repeat split; auto.
Qed.

Lemma forallb_middle {A : Type} (p : A -> bool) (before : list A) (x y : A)
    (after : list A) :
  forallb p (before ++ x :: after) = true ->
  p y = true ->
  forallb p (before ++ y :: after) = true.
Proof.
  rewrite !forallb_app. cbn [forallb]. rewrite !andb_true_iff.
  intros [H1 [_ H2]] H3. auto.
Qed.

(** X22. When the current user picks one of their tasks by its number and
    answers [c], [manage_my_tasks] rewrites [tasks.txt] with the completion
    flag of one record set to [Yes]: the first record of the file that
    equals the picked one.  All other records and all other files stay as
    they are, and [load_tasks] returns the new list without a warning. *)
Theorem mark_complete_marks_first_equal_record
    (faults : string -> option nat) (max_str_digits frames : nat)
    (current_user : string) (w w0 : world) (tasks : list task)
    (num action : string) (rest : list string) (k : Z)
    (HL : load_tasks faults w = (Ok tasks, w0))
    (HF : faults "tasks.txt" = None)
    (HA : accepted max_str_digits
            (filter (fun t => (username t =? current_user)%string) tasks) num
          = Some k)
    (HK : k <> -1)
    (HS : (0 < frames)%nat)
    (HC : lower action = "c") :
  exists w' before selected after,
    manage_my_tasks faults max_str_digits frames current_user
      (num :: action :: rest) w
    = (Done tt, rest, w')
    /\ nth_error (filter (fun t => (username t =? current_user)%string) tasks)
         (Z.to_nat (k - 1)) = Some selected
    /\ tasks = (before ++ selected :: after)%list
    /\ ~ In selected before
    /\ load_tasks faults w'
       = (Ok (before ++ set_completed "Yes" selected :: after)%list, w')
    /\ forall name,
        name <> "tasks.txt" ->
        dict_get name (files w') = dict_get name (files w0).
Proof.
  destruct (load_tasks_result faults w w0 tasks HL) as [St _].
  remember (filter (fun t => (username t =? current_user)%string) tasks)
    as user_tasks eqn:EUT.
  destruct (accepted_range _ _ _ _ HA) as [K|K]; [contradiction|].
  destruct (py_index_place user_tasks (k - 1) ltac:(lia))
    as (selected & P & Nth).
  assert (I : In selected tasks).
  { apply nth_error_In in Nth. rewrite EUT in Nth.
    now apply filter_In in Nth. }
  destruct (list_index_split selected tasks I)
    as (before & after & Ix & Sp & NI).
  unfold manage_my_tasks.
  unfold tty_bind at 1. unfold run at 1. rewrite HL.
  cbv zeta. rewrite <- EUT.
  assert (N : is_nil user_tasks = false).
  { destruct user_tasks; [cbn in K; lia|reflexivity]. }
  rewrite N. unfold say.
  unfold tty_bind at 1. unfold run at 1. cbn [print].
  unfold tty_bind at 1. unfold run at 1.
  match goal with |- context [show_numbered user_tasks ?w1] =>
    destruct (show_numbered_frame user_tasks w1) as (out & E) end.
  rewrite E. unfold tty_bind at 1.
  rewrite (get_valid_task_number_accepts _ _ _ _ _ k _ HA HS).
  destruct (Z.eqb_spec k (-1)) as [|_]; [contradiction|].
  rewrite P, Ix.
  unfold tty_bind, run, input, print. cbv beta iota.
  rewrite HC. cbn [String.eqb Ascii.eqb Bool.eqb].
  unfold save_tasks. rewrite write_file_ok by exact HF.
  cbv beta iota. cbn [files stdout opened_w printed].
  assert (Up : update_at (List.length before) (set_completed "Yes") tasks
               = (before ++ set_completed "Yes" selected :: after)%list).
  { rewrite Sp. apply update_at_split. }
  rewrite Up.
  eexists _, before, selected, after. split; [reflexivity|].
  split; [exact Nth|]. split; [exact Sp|]. split; [exact NI|].
  split.
  - apply load_tasks_stored.
    + cbn [files]. apply dict_get_set_same.
    + rewrite Sp in St. apply (forallb_middle _ _ selected _ _ St).
      apply storable_set_completed.
      rewrite forallb_app in St. apply andb_true_iff in St.
      destruct St as [_ St]. cbn [forallb] in St.
      now apply andb_true_iff in St.
  - intros name Hn. cbn [files printed stdout opened_w].
    now apply dict_get_set_other.
Qed.

Lemma mark_complete_marks_first_equal_record_witness :
  exists w' before selected after,
    manage_my_tasks (fun _ => None) 4300 1 "alice" ["2"; "C"; "x"]
      (mk_world [("tasks.txt",
                  "alice, t, d, 2025-01-01, 2025-02-01, No" ++ LF
                  ++ "bob, t, d, 2025-01-01, 2025-02-01, No" ++ LF
                  ++ "alice, t, d, 2025-01-01, 2025-02-01, No" ++ LF)] [] [])
    = (Done tt, ["x"], w')
    /\ nth_error
         (filter (fun t => (username t =? "alice")%string)
            [mk_task "alice" "t" "d" "2025-01-01" "2025-02-01" "No";
             mk_task "bob" "t" "d" "2025-01-01" "2025-02-01" "No";
             mk_task "alice" "t" "d" "2025-01-01" "2025-02-01" "No"])
         (Z.to_nat (2 - 1)) = Some selected
    /\ [mk_task "alice" "t" "d" "2025-01-01" "2025-02-01" "No";
        mk_task "bob" "t" "d" "2025-01-01" "2025-02-01" "No";
        mk_task "alice" "t" "d" "2025-01-01" "2025-02-01" "No"]
       = (before ++ selected :: after)%list
    /\ ~ In selected before
    /\ load_tasks (fun _ => None) w'
       = (Ok (before ++ set_completed "Yes" selected :: after)%list, w')
    /\ forall name,
        name <> "tasks.txt" ->
        dict_get name (files w')
        = dict_get name
            (files
               (mk_world
                  [("tasks.txt",
                    "alice, t, d, 2025-01-01, 2025-02-01, No" ++ LF
                    ++ "bob, t, d, 2025-01-01, 2025-02-01, No" ++ LF
                    ++ "alice, t, d, 2025-01-01, 2025-02-01, No" ++ LF)]
                  [] [])).
Proof.
  apply (mark_complete_marks_first_equal_record (fun _ => None) 4300 1
           "alice"
           (mk_world [("tasks.txt",
                       "alice, t, d, 2025-01-01, 2025-02-01, No" ++ LF
                       ++ "bob, t, d, 2025-01-01, 2025-02-01, No" ++ LF
                       ++ "alice, t, d, 2025-01-01, 2025-02-01, No" ++ LF)]
              [] [])
           (mk_world [("tasks.txt",
                       "alice, t, d, 2025-01-01, 2025-02-01, No" ++ LF
                       ++ "bob, t, d, 2025-01-01, 2025-02-01, No" ++ LF
                       ++ "alice, t, d, 2025-01-01, 2025-02-01, No" ++ LF)]
              [] [])
           [mk_task "alice" "t" "d" "2025-01-01" "2025-02-01" "No";
            mk_task "bob" "t" "d" "2025-01-01" "2025-02-01" "No";
            mk_task "alice" "t" "d" "2025-01-01" "2025-02-01" "No"]
           "2" "C" ["x"] 2); try reflexivity.
  - discriminate.
  - lia.
Defined.

Lemma load_users_keeps_other_files (faults : string -> option nat)
    (w w' : world) (r : res (dict string)) (name : string) :
  load_users faults w = (r, w') ->
  name <> "user.txt" ->
  dict_get name (files w') = dict_get name (files w).
Proof.
  intros L N. unfold load_users, try_except, io_bind, read_lines in L.
  destruct (dict_get "user.txt" (files w)) as [raw|].
  - destruct (read_user_lines_uniform (file_lines raw) [])
      as (users & warnings & E).
    rewrite E in L. now injection L as <- <-.
  - cbn [is_a print] in L.
    match type of L with context [write_file faults ?n ?c ?v] =>
      destruct (write_file_frame faults n c v) as (r1 & w1 & E & [-> | ->] & _ & Q)
    end; rewrite E in L; cbn [ret] in L; injection L as <- <-;
      now rewrite Q.
Qed.








(** X24. The menu entry [ds] runs [generate_reports] and then
    [display_statistics]: when tasks and users load and both report files
    can be written, the screen shows the message of the reports, then
    each header followed by the text of the report just written, and
    nothing is generated a second time. *)
Theorem display_statistics_shows_fresh_reports
    (faults : string -> option nat) (now : datetime) (w w0 w1 : world)
    (tasks : list task) (users : dict string)
    (HT : load_tasks faults w = (Ok tasks, w0))
    (HU : load_users faults w0 = (Ok users, w1))
    (F1 : faults "task_overview.txt" = None)
    (F2 : faults "user_overview.txt" = None) :
  exists ts us w',
    io_bind (generate_reports faults now)
      (fun _ => display_statistics faults now) w
    = (Ok tt, w')
    /\ calculate_task_stats now tasks = Ok ts
    /\ calculate_user_stats now tasks users = Ok us
    /\ stdout w'
       = (stdout w1
          ++ ["Reports generated: task_overview.txt, user_overview.txt";
              (LF ++ "=== Task Overview ===")%string;
              universal_newlines (join (task_overview_lines ts));
              (LF ++ "=== User Overview ===")%string;
              universal_newlines (join (user_overview_lines us))])%list
    /\ opened_w w'
       = (opened_w w1 ++ ["task_overview.txt"; "user_overview.txt"])%list.
Proof.
  destruct (calculate_user_stats_lookup now tasks users) as (us & RU & _).
  eexists _, us, _.
  split.
  - unfold io_bind at 1. unfold generate_reports, io_bind, lift.
    rewrite HT, HU, calculate_task_stats_eq, RU.
    unfold write_reports, io_bind, try_except.
    rewrite (write_file_ok faults _ _ _ F1). cbn [ret].
    rewrite (write_file_ok faults _ _ _ F2). cbn [ret print].
    unfold display_statistics, io_bind, path_exists.
    cbn [files stdout opened_w]. unfold dict_mem.
    rewrite dict_get_set_same.
    rewrite dict_get_set_other by discriminate.
    rewrite dict_get_set_same. cbn [andb negb ret].
    unfold show_report, try_except2, io_bind, read_text.
    cbn [print files stdout opened_w ret].
    rewrite dict_get_set_other by discriminate.
    rewrite dict_get_set_same. cbv beta iota.
    cbn [print files stdout opened_w ret].
    rewrite dict_get_set_same. reflexivity.
  - split; [apply calculate_task_stats_eq|]. split; [exact RU|].
    cbn [files stdout opened_w]. rewrite <- !app_assoc. split; reflexivity.
Qed.

Lemma display_statistics_shows_fresh_reports_witness :
  exists ts us w',
    io_bind (generate_reports (fun _ => None) scenario_now)
      (fun _ => display_statistics (fun _ => None) scenario_now)
      (mk_world [("tasks.txt", ""); ("user.txt", "")] [] [])
    = (Ok tt, w')
    /\ calculate_task_stats scenario_now [] = Ok ts
    /\ calculate_user_stats scenario_now [] ([] : dict string) = Ok us
    /\ stdout w'
       = ([]
          ++ ["Reports generated: task_overview.txt, user_overview.txt";
              (LF ++ "=== Task Overview ===")%string;
              universal_newlines (join (task_overview_lines ts));
              (LF ++ "=== User Overview ===")%string;
              universal_newlines (join (user_overview_lines us))])%list
    /\ opened_w w' = ([] ++ ["task_overview.txt"; "user_overview.txt"])%list.
Proof.
  exact (display_statistics_shows_fresh_reports (fun _ => None) scenario_now
           (mk_world [("tasks.txt", ""); ("user.txt", "")] [] [])
           (mk_world [("tasks.txt", ""); ("user.txt", "")] [] [])
           (mk_world [("tasks.txt", ""); ("user.txt", "")] [] [])
           [] [] eq_refl eq_refl eq_refl eq_refl).
Defined.




Lemma kept_refl (w : world) : kept w w.
Proof. split; auto. Qed.

Lemma kept_trans (a b c : world) : kept a b -> kept b c -> kept a c.
Proof.
  intros [A1 A2] [B1 B2]. split.
  - intros name N1 N2. now rewrite B1, A1.
  - intros text H. auto.
Qed.

Lemma kept_same_files (w w' : world) : files w' = files w -> kept w w'.
Proof. intros E. unfold kept. rewrite E. auto. Qed.

Lemma kept_only_tasks (w w' : world) :
  (forall name,
      name <> "tasks.txt" ->
      dict_get name (files w') = dict_get name (files w)) ->
  kept w w'.
Proof.
  intros H. split.
  - intros name N _. now apply H.
  - intros text E. rewrite H by discriminate. exact E.
Qed.

Lemma io_keeps_ret {A : Type} (a : A) : io_keeps (ret a).
Proof. intros w r w' [= <- <-]. apply kept_refl. Qed.

Lemma io_keeps_lift {A : Type} (r : res A) : io_keeps (lift r).
Proof. intros w r' w' [= <- <-]. apply kept_refl. Qed.

Lemma io_keeps_print (line : string) : io_keeps (print line).
Proof. intros w r w' [= <- <-]. now apply kept_same_files. Qed.

Lemma io_keeps_bind {A B : Type} (c : io A) (k : A -> io B) :
  io_keeps c -> (forall a, io_keeps (k a)) -> io_keeps (io_bind c k).
Proof.
  intros Hc Hk w r w' E. unfold io_bind in E.
  destruct (c w) as [[a|e] w1] eqn:E1.
  - apply (kept_trans _ w1); [now apply (Hc w _ _ E1)|].
    now apply (Hk a w1 r).
  - injection E as <- <-. now apply (Hc w _ _ E1).
Qed.

Lemma io_keeps_try {A : Type} (body : io A) (cls : exn) (handler : io A) :
  io_keeps body -> io_keeps handler -> io_keeps (try_except body cls handler).
Proof.
  intros Hb Hh w r w' E. unfold try_except in E.
  destruct (body w) as [[a|e] w1] eqn:E1.
  - injection E as <- <-. now apply (Hb w _ _ E1).
  - destruct (is_a e cls).
    + apply (kept_trans _ w1); [now apply (Hb w _ _ E1)|].
      now apply (Hh w1 r).
    + injection E as <- <-. now apply (Hb w _ _ E1).
Qed.

Lemma io_keeps_for_each {A S : Type} (body : S -> A -> io S) (xs : list A) :
  (forall st x, io_keeps (body st x)) ->
  forall st, io_keeps (io_for_each body xs st).
Proof.
  intros Hb. induction xs as [|x xs IH]; intros st; cbn [io_for_each].
  - apply io_keeps_ret.
  - apply io_keeps_bind; auto.
Qed.

Lemma write_chunks_sets (name : string) (chunks : list string) :
  forall fault done w,
    exists r text,
      write_chunks name fault chunks done w = (r, set_file name text w).
Proof.
  induction chunks as [|c l IH]; intros [[|k]|] done w;
    cbn [write_chunks]; eauto.
Qed.

Lemma set_file_other (name text other : string) (w : world) :
  other <> name ->
  dict_get other (files (set_file name text w)) = dict_get other (files w).
Proof. intros N. cbn [set_file files]. now apply dict_get_set_other. Qed.

Lemma io_keeps_write_tasks (faults : string -> option nat)
    (chunks : list string) :
  io_keeps (write_file faults "tasks.txt" chunks).
Proof.
  intros w r w' E. apply kept_only_tasks. intros name N.
  destruct (write_file_frame faults "tasks.txt" chunks w)
    as (r1 & w1 & E1 & _ & _ & Q).
  rewrite E1 in E. injection E as <- <-. now apply Q.
Qed.

Lemma io_keeps_load_tasks (faults : string -> option nat) :
  io_keeps (load_tasks faults).
Proof.
  unfold load_tasks. apply io_keeps_try.
  - intros w r w' E. unfold io_bind, read_lines in E.
    destruct (dict_get "tasks.txt" (files w)) as [raw|].
    + destruct (read_task_lines_uniform (file_lines raw) [])
        as (tasks & warnings & U).
      rewrite U in E. injection E as <- <-. now apply kept_same_files.
    + injection E as <- <-. apply kept_refl.
  - apply io_keeps_bind; [apply io_keeps_print|]. intros _.
    apply io_keeps_bind; [apply io_keeps_write_tasks|]. intros _.
    apply io_keeps_ret.
Qed.

Lemma io_keeps_load_users (faults : string -> option nat) :
  io_keeps (load_users faults).
Proof.
  intros w r w' E. split.
  - intros name N1 N2.
    now apply (load_users_keeps_other_files faults w w' r).
  - intros text F. destruct (load_users_of_file faults text) as (U & W & L).
    rewrite (L w F) in E. injection E as <- <-. exact F.
Qed.

Lemma io_keeps_save_tasks (faults : string -> option nat)
    (tasks : list task) :
  io_keeps (save_tasks faults tasks).
Proof. apply io_keeps_write_tasks. Qed.

Lemma io_keeps_save_new_task (faults : string -> option nat) (bom : string)
    (a b c d e f : string) :
  io_keeps (save_new_task faults bom a b c d e f).
Proof.
  assert (K : forall fault chunks done w r w',
             write_chunks "tasks.txt" fault chunks done
               (log_open "tasks.txt" w) = (r, w') ->
             kept w w').
  { intros fault chunks done w r w' E.
    destruct (write_chunks_sets "tasks.txt" chunks fault done
                (log_open "tasks.txt" w)) as (r1 & text & E1).
    rewrite E1 in E. injection E as <- <-.
    apply kept_only_tasks. intros name N. now rewrite set_file_other. }
  unfold save_new_task. apply io_keeps_bind.
  - unfold end_with_newline. apply io_keeps_try; [|apply io_keeps_ret].
    intros w r w' E. unfold amend_file in E.
    destruct (dict_get "tasks.txt" (files w)) as [raw|].
    + destruct (faults "tasks.txt") as [[|k]|]; try now apply K in E.
      injection E as <- <-. now apply kept_same_files.
    + injection E as <- <-. now apply kept_same_files.
  - intros _ w r w' E. unfold append_file in E.
    destruct (faults "tasks.txt") as [[|k]|]; try now apply K in E.
    injection E as <- <-. now apply kept_same_files.
Qed.

Lemma io_keeps_display_task (t : task) : io_keeps (display_task t).
Proof.
  intros w r w' E. destruct (display_task_frame t w) as (out & F).
  rewrite F in E. apply (f_equal snd) in E. cbn [snd] in E. subst w'.
  now apply kept_same_files.
Qed.

Lemma io_keeps_show_numbered (tasks : list task) :
  io_keeps (show_numbered tasks).
Proof.
  apply io_keeps_for_each. intros idx t.
  apply io_keeps_bind; [apply io_keeps_print|]. intros _.
  apply io_keeps_bind; [apply io_keeps_display_task|]. intros _.
  apply io_keeps_ret.
Qed.

Lemma io_keeps_view_tasks (tasks : list task) (heading nothing : string) :
  io_keeps (view_tasks tasks heading nothing).
Proof.
  unfold view_tasks. destruct (is_nil tasks); [apply io_keeps_print|].
  apply io_keeps_bind; [apply io_keeps_print|]. intros _.
  apply io_keeps_bind; [|intros; apply io_keeps_print].
  unfold show_all. destruct tasks as [|t l]; [apply io_keeps_lift|].
  apply io_keeps_bind; [apply io_keeps_display_task|]. intros width.
  apply io_keeps_for_each. intros m x.
  apply io_keeps_bind; [apply io_keeps_display_task|]. intros.
  apply io_keeps_ret.
Qed.

Lemma tty_keeps_ret {A : Type} (a : A) : tty_keeps (tty_ret a).
Proof. intros ins w o ins' w' [= <- <- <-]. apply kept_refl. Qed.

Lemma tty_keeps_halt {A : Type} (h : halt) :
  tty_keeps (fun ins w => (@Halt A h, ins, w)).
Proof. intros ins w o ins' w' [= <- <- <-]. apply kept_refl. Qed.

Lemma tty_keeps_bind {A B : Type} (c : tty A) (k : A -> tty B) :
  tty_keeps c -> (forall a, tty_keeps (k a)) -> tty_keeps (tty_bind c k).
Proof.
  intros Hc Hk ins w o ins' w' E. unfold tty_bind in E.
  destruct (c ins w) as [[[a|h|] ins1] w1] eqn:E1.
  - apply (kept_trans _ w1); [now apply (Hc ins w _ _ _ E1)|].
    now apply (Hk a ins1 w1 o ins').
  - injection E as <- <- <-. now apply (Hc ins w _ _ _ E1).
  - injection E as <- <- <-. now apply (Hc ins w _ _ _ E1).
Qed.

Lemma tty_keeps_run {A : Type} (c : io A) : io_keeps c -> tty_keeps (run c).
Proof.
  intros Hc ins w o ins' w' E. unfold run in E.
  destruct (c w) as [[a|e] w1] eqn:E1; injection E as <- <- <-;
    now apply (Hc w _ _ E1).
Qed.

Lemma tty_keeps_say (line : string) : tty_keeps (say line).
Proof. apply tty_keeps_run, io_keeps_print. Qed.

Lemma tty_keeps_input (prompt : string) : tty_keeps (input prompt).
Proof.
  intros ins w o ins' w' E. unfold input in E.
  destruct ins; injection E as <- <- <-; now apply kept_same_files.
Qed.

Lemma tty_keeps_input_strip (prompt : string) :
  tty_keeps (input_strip prompt).
Proof.
  apply tty_keeps_bind; [apply tty_keeps_input|]. intros.
  apply tty_keeps_ret.
Qed.

Lemma tty_keeps_try {A : Type} (body : tty A) (cls : exn) (handler : tty A) :
  tty_keeps body -> tty_keeps handler -> tty_keeps (tty_try body cls handler).
Proof.
  intros Hb Hh ins w o ins' w' E. unfold tty_try in E.
  destruct (body ins w) as [[[a|[e| | |]|] ins1] w1] eqn:E1;
    try (injection E as <- <- <-; now apply (Hb ins w _ _ _ E1)).
  destruct (is_a e cls).
  - apply (kept_trans _ w1); [now apply (Hb ins w _ _ _ E1)|].
    now apply (Hh ins1 w1 o ins').
  - injection E as <- <- <-. now apply (Hb ins w _ _ _ E1).
Qed.

Lemma tty_keeps_while {A : Type} (body : tty (option A)) (rounds : nat) :
  tty_keeps body -> tty_keeps (while_true rounds body).
Proof.
  intros Hb. induction rounds as [|rounds IH]; cbn [while_true].
  - intros ins w o ins' w' [= <- <- <-]. apply kept_refl.
  - apply tty_keeps_bind; [exact Hb|]. intros [a|]; [apply tty_keeps_ret|].
    exact IH.
Qed.

Ltac keeps_step :=
  first
    [ apply tty_keeps_ret
    | apply tty_keeps_halt
    | apply tty_keeps_say
    | apply tty_keeps_input_strip
    | apply tty_keeps_input
    | apply tty_keeps_run
    | apply tty_keeps_try
    | apply tty_keeps_bind; [|intro]
    | apply io_keeps_ret
    | apply io_keeps_lift
    | apply io_keeps_print
    | apply io_keeps_load_tasks
    | apply io_keeps_load_users
    | apply io_keeps_save_tasks
    | apply io_keeps_save_new_task
    | apply io_keeps_show_numbered
    | apply io_keeps_view_tasks
    | match goal with
      | |- tty_keeps (if ?b then _ else _) => destruct b
      | |- tty_keeps (match ?x with _ => _ end) => destruct x
      end ].

Lemma tty_keeps_get_valid_task_number (m frames : nat)
    (user_tasks : list task) :
  tty_keeps (get_valid_task_number m frames user_tasks).
Proof.
  intros ins w o ins' w' E.
  destruct (get_valid_task_number_cases m frames user_tasks ins w)
    as (used & ins1 & o1 & out & R & _).
  rewrite R in E. injection E as <- <- <-. now apply kept_same_files.
Qed.

Lemma tty_keeps_manage_my_tasks (faults : string -> option nat)
    (m frames : nat) (current_user : string) :
  tty_keeps (manage_my_tasks faults m frames current_user).
Proof.
  unfold manage_my_tasks. keeps_step; [repeat keeps_step|]. cbv zeta.
  keeps_step; [repeat keeps_step|].
  keeps_step; [repeat keeps_step|].
  keeps_step; [repeat keeps_step|].
  keeps_step; [apply tty_keeps_get_valid_task_number|].
  repeat keeps_step.
  unfold edit_task. repeat keeps_step.
  - unfold edit_username. repeat keeps_step.
  - unfold edit_due_date. repeat keeps_step.
Qed.

Lemma tty_keeps_add_task (faults : string -> option nat) (bom : string)
    (now : datetime) :
  tty_keeps (add_task faults bom now).
Proof. unfold add_task. repeat keeps_step. Qed.

Lemma tty_keeps_login (faults : string -> option nat) (rounds : nat) :
  tty_keeps (login faults rounds).
Proof.
  unfold login. repeat keeps_step. apply tty_keeps_while.
  unfold login_round. repeat keeps_step.
Qed.

(** A round of the menu for a user who is not the administrator. *)
Lemma tty_keeps_menu_round (faults : string -> option nat) (bom : string)
    (m frames rounds : nat) (now : datetime) (current_user : string) :
  tty_keeps (menu_round faults bom m frames rounds now current_user false).
Proof.
  unfold menu_round. cbv iota.
  do 7 (apply tty_keeps_bind; [repeat keeps_step|intros _]).
  apply tty_keeps_bind; [apply tty_keeps_input|intros menu].
  cbv zeta. rewrite !andb_false_r.
  destruct (lower menu =? "a")%string.
  { keeps_step; [apply tty_keeps_add_task|]. keeps_step. }
  destruct (lower menu =? "va")%string; [repeat keeps_step|].
  destruct (lower menu =? "vm")%string.
  { keeps_step; [apply tty_keeps_manage_my_tasks|]. keeps_step. }
  repeat keeps_step.
Qed.

Lemma login_user_was_typed (faults : string -> option nat) (rounds : nat)
    (ins ins' : list string) (w w' : world) (u : string) :
  login faults rounds ins w = (Done u, ins', w') ->
  exists line, In line ins /\ u = strip line.
Proof.
  unfold login, say. unfold tty_bind at 1 2. unfold run at 1.
  destruct (load_users faults w) as [[users|e] w0]; [|discriminate].
  unfold run, print. cbv beta iota.
  match goal with |- context [while_true rounds _ ins ?w1] =>
    destruct (login_loop_cases users rounds ins w1)
      as (failed & ins1 & o & out & E & _ & C) end.
  rewrite E. intros [= -> <- <-].
  destruct C as (l1 & l2 & C1 & C2 & _). exists l1. split; [|exact C2].
  rewrite C1. apply in_or_app. right. now left.
Qed.

(** X26. In a session where no line typed is [admin] with blanks around
    it, nobody is logged in as the administrator, and [main] changes no
    file but [tasks.txt], apart from creating a missing [user.txt]: the
    entries [r], [vc], [del], [ds] and [gr] do nothing for other users, so
    no account is added and no report is written, whatever else is typed
    and whichever writes fail. *)
Theorem session_without_admin_keeps_accounts_and_reports
    (faults : string -> option nat) (bom : string)
    (max_str_digits recursion_limit rounds : nat) (now : datetime)
    (ins ins' : list string) (w w' : world) (o : outcome unit)
    (HA : Forall (fun line => strip line <> "admin") ins)
    (HM : main faults bom max_str_digits recursion_limit rounds now ins w
          = (o, ins', w')) :
  kept w w'.
Proof.
  unfold main in HM. unfold tty_bind at 1 in HM.
  destruct (login faults rounds ins w) as [[[u|h|] ins1] w1] eqn:L.
  - pose proof (tty_keeps_login faults rounds ins w _ _ _ L) as K1.
    destruct (login_user_was_typed _ _ _ _ _ _ _ L) as (line & I & ->).
    rewrite Forall_forall in HA. specialize (HA line I).
    apply String.eqb_neq in HA. cbv zeta in HM. rewrite HA in HM.
    apply (kept_trans _ w1); [exact K1|].
    apply (tty_keeps_while _ rounds
             (tty_keeps_menu_round faults bom max_str_digits recursion_limit
                rounds now (strip line)) ins1 w1 o ins' w' HM).
  - injection HM as <- <- <-. apply (tty_keeps_login faults rounds ins w _ _ _ L).
  - injection HM as <- <- <-. apply (tty_keeps_login faults rounds ins w _ _ _ L).
Qed.


Lemma session_without_admin_keeps_accounts_and_reports_witness :
  kept
    (mk_world [("user.txt", "admin, adm1n" ++ LF ++ "bob, b2" ++ LF);
               ("tasks.txt", "")] [] [])
    (snd (main (fun _ => None) "?" 4300 10 10 scenario_now
            ["bob"; "b2"; "gr"; "r"; "a"; "bob"; "t"; "d"; "2025-7-1"; "e"]
            (mk_world [("user.txt", "admin, adm1n" ++ LF ++ "bob, b2" ++ LF);
                       ("tasks.txt", "")] [] []))).
Proof.
  apply (session_without_admin_keeps_accounts_and_reports (fun _ => None) "?"
           4300 10 10 scenario_now
           ["bob"; "b2"; "gr"; "r"; "a"; "bob"; "t"; "d"; "2025-7-1"; "e"]
           []
           (mk_world [("user.txt", "admin, adm1n" ++ LF ++ "bob, b2" ++ LF);
                      ("tasks.txt", "")] [] [])
           _ (Done tt)).
  - repeat (constructor; [vm_compute; discriminate|]). constructor.
  - vm_compute. reflexivity.
Defined.

Section Ends.

Variable rounds : nat.

Lemma tty_ends_ret {A : Type} (a : A) : tty_ends rounds (tty_ret a).
Proof. intros ins w o ins' w' [= <- <- <-]. split; [lia|discriminate]. Qed.

Lemma tty_ends_halt {A : Type} (h : halt) :
  tty_ends rounds (fun ins w => (@Halt A h, ins, w)).
Proof. intros ins w o ins' w' [= <- <- <-]. split; [lia|discriminate]. Qed.

Lemma tty_ends_run {A : Type} (c : io A) : tty_ends rounds (run c).
Proof.
  intros ins w o ins' w' E. unfold run in E.
  destruct (c w) as [[a|e] w1]; injection E as <- <- <-;
    split; try lia; discriminate.
Qed.

Lemma tty_ends_input (prompt : string) : tty_ends rounds (input prompt).
Proof.
  intros ins w o ins' w' E. unfold input in E.
  destruct ins; injection E as <- <- <-; split; cbn; try lia; discriminate.
Qed.

Lemma tty_reads_input (prompt : string) : tty_reads (input prompt).
Proof.
  intros ins w a ins' w' E. unfold input in E.
  destruct ins; [discriminate|]. injection E as <- <- <-. cbn. lia.
Qed.

Lemma tty_ends_bind {A B : Type} (c : tty A) (k : A -> tty B) :
  tty_ends rounds c -> (forall a, tty_ends rounds (k a)) ->
  tty_ends rounds (tty_bind c k).
Proof.
  intros Hc Hk ins w o ins' w' E. unfold tty_bind in E.
  destruct (c ins w) as [[[a|h|] ins1] w1] eqn:E1;
    destruct (Hc ins w _ _ _ E1) as [L1 U1].
  - destruct (Hk a ins1 w1 _ _ _ E) as [L2 U2]. split; [lia|].
    intros R. apply U2. lia.
  - injection E as <- <- <-. split; [exact L1|discriminate].
  - injection E as <- <- <-. split; [exact L1|].
    intros R _. now apply U1.
Qed.

Lemma tty_reads_bind_l {A B : Type} (c : tty A) (k : A -> tty B) :
  tty_reads c -> (forall a, tty_ends rounds (k a)) ->
  tty_reads (tty_bind c k).
Proof.
  intros Hc Hk ins w b ins' w' E. unfold tty_bind in E.
  destruct (c ins w) as [[[a|h|] ins1] w1] eqn:E1; try discriminate.
  pose proof (Hc ins w _ _ _ E1). destruct (Hk a ins1 w1 _ _ _ E). lia.
Qed.

Lemma tty_reads_bind_r {A B : Type} (c : tty A) (k : A -> tty B) :
  tty_ends rounds c -> (forall a, tty_reads (k a)) ->
  tty_reads (tty_bind c k).
Proof.
  intros Hc Hk ins w b ins' w' E. unfold tty_bind in E.
  destruct (c ins w) as [[[a|h|] ins1] w1] eqn:E1; try discriminate.
  destruct (Hc ins w _ _ _ E1). pose proof (Hk a ins1 w1 _ _ _ E). lia.
Qed.

Lemma tty_ends_try {A : Type} (body : tty A) (cls : exn) (handler : tty A) :
  tty_ends rounds body -> tty_ends rounds handler ->
  tty_ends rounds (tty_try body cls handler).
Proof.
  intros Hb Hh ins w o ins' w' E. unfold tty_try in E.
  destruct (body ins w) as [[[a|[e| | |]|] ins1] w1] eqn:E1;
    destruct (Hb ins w _ _ _ E1) as [L1 U1];
    try (injection E as <- <- <-; split; [exact L1|exact U1]).
  destruct (is_a e cls).
  - destruct (Hh ins1 w1 _ _ _ E) as [L2 U2]. split; [lia|].
    intros R. apply U2. lia.
  - injection E as <- <- <-. split; [exact L1|exact U1].
Qed.

Lemma tty_ends_while {A : Type} (body : tty (option A)) :
  tty_ends rounds body -> tty_reads body ->
  tty_ends rounds (while_true rounds body).
Proof.
  intros Hb Hr.
  assert (G : forall n ins w o ins' w',
             while_true n body ins w = (o, ins', w') ->
             (List.length ins' <= List.length ins)%nat
             /\ ((List.length ins < n)%nat ->
                 (List.length ins < rounds)%nat -> o <> Unfinished)).
  { induction n as [|n IH]; intros ins w o ins' w' E.
    - injection E as <- <- <-. split; lia.
    - cbn [while_true] in E. unfold tty_bind in E.
      destruct (body ins w) as [[[[a|]|h|] ins1] w1] eqn:E1;
        destruct (Hb ins w _ _ _ E1) as [L1 U1].
      + injection E as <- <- <-. split; [exact L1|discriminate].
      + pose proof (Hr ins w _ _ _ E1) as R1.
        destruct (IH ins1 w1 _ _ _ E) as [L2 U2]. split; [lia|].
        intros N R. apply U2; lia.
      + injection E as <- <- <-. split; [exact L1|discriminate].
      + injection E as <- <- <-. split; [exact L1|].
        intros _ R _. now apply U1. }
  intros ins w o ins' w' E. destruct (G rounds ins w o ins' w' E) as [L U].
  split; [exact L|]. intros R. now apply U.
Qed.

Lemma tty_ends_get_valid_task_number (m frames : nat)
    (user_tasks : list task) :
  tty_ends rounds (get_valid_task_number m frames user_tasks).
Proof.
  intros ins w o ins' w' E.
  destruct (get_valid_task_number_cases m frames user_tasks ins w)
    as (used & ins1 & o1 & out & R & I & _ & C).
  rewrite R in E. injection E as <- <- <-. split.
  - rewrite I, length_app. lia.
  - intros _ ->. exact C.
Qed.

End Ends.

Ltac ends_step :=
  first
    [ apply tty_ends_ret
    | apply tty_ends_halt
    | apply tty_ends_run
    | apply tty_ends_input
    | apply tty_ends_get_valid_task_number
    | apply tty_ends_try
    | apply tty_ends_bind; [|intro]
    | match goal with
      | |- tty_ends _ (if ?b then _ else _) => destruct b
      | |- tty_ends _ (match ?x with _ => _ end) => destruct x
      end ].

Lemma tty_ends_manage_my_tasks (rounds : nat)
    (faults : string -> option nat) (m frames : nat)
    (current_user : string) :
  tty_ends rounds (manage_my_tasks faults m frames current_user).
Proof.
  unfold manage_my_tasks, say. ends_step; [ends_step|]. cbv zeta.
  repeat ends_step.
  unfold edit_task, say. repeat ends_step.
  - unfold edit_username, input_strip, say. repeat ends_step.
  - unfold edit_due_date, input_strip, say. repeat ends_step.
Qed.

Lemma tty_ends_delete_task (rounds : nat) (faults : string -> option nat)
    (m : nat) :
  tty_ends rounds (delete_task faults m).
Proof. unfold delete_task, say. repeat ends_step. Qed.

Lemma tty_ends_add_task (rounds : nat) (faults : string -> option nat)
    (bom : string) (now : datetime) :
  tty_ends rounds (add_task faults bom now).
Proof. unfold add_task, input_strip, say. repeat ends_step. Qed.

Lemma tty_ends_login (rounds : nat) (faults : string -> option nat) :
  tty_ends rounds (login faults rounds).
Proof.
  unfold login, say. repeat ends_step. apply tty_ends_while.
  - unfold login_round, input_strip, say. repeat ends_step.
  - unfold login_round, input_strip.
    apply (tty_reads_bind_l rounds).
    + apply (tty_reads_bind_l rounds); [apply tty_reads_input|]. intro. ends_step.
    + intro. unfold say. repeat ends_step.
Qed.

Lemma tty_ends_reg_user (rounds : nat) (faults : string -> option nat)
    (bom : string) :
  tty_ends rounds (reg_user faults bom rounds).
Proof.
  unfold reg_user. ends_step; [ends_step|]. apply tty_ends_while.
  - unfold reg_user_round, input_strip, say. repeat ends_step.
  - unfold reg_user_round, input_strip.
    apply (tty_reads_bind_l rounds).
    + apply (tty_reads_bind_l rounds); [apply tty_reads_input|]. intro. ends_step.
    + intro. unfold say. repeat ends_step.
Qed.

Lemma tty_ends_menu_round (rounds : nat) (faults : string -> option nat)
    (bom : string) (m frames : nat) (now : datetime) (current_user : string)
    (is_admin : bool) :
  tty_ends rounds
    (menu_round faults bom m frames rounds now current_user is_admin)
  /\ tty_reads
       (menu_round faults bom m frames rounds now current_user is_admin).
Proof.
  assert (K : forall menu : string,
    tty_ends rounds
      (if (lower menu =? "r")%string && is_admin then
         tty_bind (reg_user faults bom rounds) (fun _ => tty_ret None)
       else if (lower menu =? "a")%string then
         tty_bind (add_task faults bom now) (fun _ => tty_ret None)
       else if (lower menu =? "va")%string then
         tty_bind (run (load_tasks faults))
           (fun tasks =>
              tty_bind
                (run (view_tasks tasks (LF ++ "All Tasks")
                        "No tasks to display."))
                (fun _ => tty_ret None))
       else if (lower menu =? "vm")%string then
         tty_bind (manage_my_tasks faults m frames current_user)
           (fun _ => tty_ret None)
       else if (lower menu =? "vc")%string && is_admin then
         tty_bind (run (load_tasks faults))
           (fun tasks =>
              tty_bind
                (run (view_tasks
                        (filter (fun task => (completed task =? "Yes")%string)
                           tasks)
                        (LF ++ "Completed Tasks")
                        "No completed tasks to display."))
                (fun _ => tty_ret None))
       else if (lower menu =? "del")%string && is_admin then
         tty_bind (delete_task faults m) (fun _ => tty_ret None)
       else if (lower menu =? "ds")%string && is_admin then
         tty_bind (run (generate_reports faults now))
           (fun _ =>
              tty_bind (run (display_statistics faults now))
                (fun _ => tty_ret None))
       else if (lower menu =? "gr")%string && is_admin then
         tty_bind (run (generate_reports faults now)) (fun _ => tty_ret None)
       else if (lower menu =? "e")%string then
         tty_bind
           (say (LF ++ "Goodbye, " ++ current_user ++ ". See you next time."))
           (fun _ => tty_ret (Some tt))
       else
         tty_bind (say "Invalid option. Please select a valid option.")
           (fun _ => tty_ret None))).
  { intros menu.
    destruct ((lower menu =? "r")%string && is_admin).
    { ends_step; [apply tty_ends_reg_user|ends_step]. }
    destruct (lower menu =? "a")%string.
    { ends_step; [apply tty_ends_add_task|ends_step]. }
    destruct (lower menu =? "va")%string; [repeat ends_step|].
    destruct (lower menu =? "vm")%string.
    { ends_step; [apply tty_ends_manage_my_tasks|ends_step]. }
    destruct ((lower menu =? "vc")%string && is_admin); [repeat ends_step|].
    destruct ((lower menu =? "del")%string && is_admin).
    { ends_step; [apply tty_ends_delete_task|ends_step]. }
    unfold say. repeat ends_step. }
  unfold menu_round, say. split.
  - do 7 (apply tty_ends_bind; [repeat ends_step|intros _]).
    apply tty_ends_bind; [apply tty_ends_input|intros menu]. apply K.
  - do 7 (apply (tty_reads_bind_r rounds); [repeat ends_step|intros _]).
    apply (tty_reads_bind_l rounds); [apply tty_reads_input|intros menu]. apply K.
Qed.

(** X27. On an input of fewer lines than the rounds granted to each loop,
    [main] ends: it returns after [e], or it stops with an exception, the
    [EOFError] of the exhausted input among them; it never reads more
    lines than there are.  Every loop of the program reads a line in each
    round. *)
Theorem session_ends_on_finite_input
    (faults : string -> option nat) (bom : string)
    (max_str_digits recursion_limit rounds : nat) (now : datetime)
    (ins : list string) (w : world)
    (H : (List.length ins < rounds)%nat) :
  exists o ins' w',
    main faults bom max_str_digits recursion_limit rounds now ins w
    = (o, ins', w')
    /\ (o = Done tt \/ exists h, o = Halt h)
    /\ (List.length ins' <= List.length ins)%nat.
Proof.
  destruct (main faults bom max_str_digits recursion_limit rounds now ins w)
    as [[o ins'] w'] eqn:E.
  exists o, ins', w'. split; [reflexivity|].
  assert (M : tty_ends rounds
                (main faults bom max_str_digits recursion_limit rounds now)).
  { unfold main. apply tty_ends_bind; [apply tty_ends_login|].
    intros current_user. cbv zeta.
    apply tty_ends_while; apply tty_ends_menu_round. }
  destruct (M ins w o ins' w' E) as [L U]. split; [|exact L].
  destruct o as [[]|h|]; [now left|right; eauto|].
  exfalso. now apply U.
Qed.

Lemma session_ends_on_finite_input_witness :
  exists o ins' w',
    main (fun _ => None) "?" 4300 10 4 scenario_now ["bob"; "b2"; "va"]
      (mk_world [("user.txt", "bob, b2" ++ LF)] [] [])
    = (o, ins', w')
    /\ (o = Done tt \/ exists h, o = Halt h)
    /\ (List.length ins' <= List.length ["bob"; "b2"; "va"])%nat.
Proof.
  apply (session_ends_on_finite_input (fun _ => None) "?" 4300 10 4
           scenario_now ["bob"; "b2"; "va"]
           (mk_world [("user.txt", "bob, b2" ++ LF)] [] [])).
  cbn. lia.
Defined.
